(** * Student enrollment back end: registration pipeline

    A shallow embedding of [backend/server.js] in its two revisions:

    - the file-backed revision (nodemailer, serial counter kept in
      [serial_number.txt], the uploader removes the local PDF), module
      [FileBacked];
    - the store-derived revision (SendGrid, serial derived from the
      registration collection, the endpoint removes the local PDFs),
      module [StoreDerived].

    The two modules hold the functions of the source under their own
    names.  [FileBackedSpec] and [StoreDerivedSpec] hold the notions the
    statements are written with; the facts follow, and the properties of
    the specification close the file.

    Conventions of the embedding.

    - JavaScript strings are sequences of 8-bit code units ([string]); the
      model follows the source exactly on ASCII text.
    - JavaScript numbers are [NaN] or an integer of [Z] that a double
      holds.  [parseInt] and [+ 1] round to the nearest double, ties to
      even, so counting stops at 2^53 as it does in the source.
      [toString] prints the decimal digits of the value, which is what
      JavaScript prints up to 2^53; the statements keep the counters at or
      below that bound.
    - The request body carries the fields of [registrationSchema], each a
      string or absent, as the schema types them.
    - An [async] function is a state transformer that returns a value or
      throws: [M A := State -> result A * State].  Effects made before a
      [throw] stay in the state, as in the source.
    - The local file system is deterministic: a path is present or not,
      writing creates it, [unlink] and [readFile] reject exactly on an
      absent path.  [path.join] joins with a separator and normalises
      the result as Node does on POSIX: empty and [.] segments are
      dropped, a [..] segment removes the segment before it.
    - The remote services (browser, Cloudinary, MongoDB, mail) answer as
      an environment record says; so does the selector parser of the
      browser, which decides whether [document.querySelector] accepts a
      selector or throws.  The HTML templates are not among the sources:
      the elements the renderers bind are taken to be there. *)

From Stdlib Require Import ZArith List String Ascii Bool Lia Sorted.
From Stdlib Require Decimal DecimalFacts DecimalString DecimalPos.
Import ListNotations.

Local Open Scope string_scope.
Local Open Scope Z_scope.

(** ** JavaScript values used by the back end *)

(** A number after [parseInt] and [+ 1]: an integer or [NaN]. *)
Inductive num : Type :=
  | NaN
  | Int (z : Z).

(** The double nearest to an integer, ties to even.  Every integer up to
    2^53 = 9007199254740992 in magnitude is a double; a magnitude in
    [2^e, 2^(e+1)) above that is rounded to a multiple of 2^(e-52).
    (From 2^1024 on JavaScript reads [Infinity], which no statement
    reaches.) *)
Definition roundDouble (z : Z) : Z :=
  if Z.abs z <=? 9007199254740992 then z
  else
    let ulp := 2 ^ (Z.log2 (Z.abs z) - 52) in
    let q := Z.abs z / ulp in
    let r := Z.abs z mod ulp in
    let q' := if 2 * r <? ulp then q
              else if ulp <? 2 * r then q + 1
              else if Z.even q then q else q + 1 in
    Z.sgn z * (q' * ulp).

(** [currentNumber + 1]. *)
Definition succ_num (n : num) : num :=
  match n with
  | NaN => NaN
  | Int z => Int (roundDouble (z + 1))
  end.

(** [Number.prototype.toString()] on an integer: its decimal digits. *)
Definition Z_toString (z : Z) : string :=
  DecimalString.NilEmpty.string_of_int (Z.to_int z).

Definition toString (n : num) : string :=
  match n with
  | NaN => "NaN"
  | Int z => Z_toString z
  end.

(** [String.prototype.padStart(targetLength, "0")]. *)
Fixpoint zeros (k : nat) : string :=
  match k with
  | O => ""
  | S k' => String "0" (zeros k')
  end.

Definition padStart (targetLength : nat) (s : string) : string :=
  zeros (targetLength - String.length s) ++ s.

(** [\s] of a regular expression and the white space [parseInt] skips,
    on 8-bit code units: TAB, LF, VT, FF, CR, SPACE and NBSP. *)
Definition isWhiteSpace (c : ascii) : bool :=
  match N_of_ascii c with
  | 9%N | 10%N | 11%N | 12%N | 13%N | 32%N | 160%N => true
  | _ => false
  end.

(** The value of a decimal digit, code units 48 to 57. *)
Definition digitValue (c : ascii) : option Z :=
  let code := Z.of_N (N_of_ascii c) in
  if (48 <=? code) && (code <=? 57) then Some (code - 48) else None.

Fixpoint trimStart (s : string) : string :=
  match s with
  | String c s' => if isWhiteSpace c then trimStart s' else s
  | EmptyString => s
  end.

(** The longest prefix of decimal digits, read most significant first;
    [None] when an empty prefix has been read so far. *)
Fixpoint parseDigits (acc : option Z) (s : string) : option Z :=
  match s with
  | String c s' =>
      match digitValue c with
      | Some d =>
          parseDigits (Some (10 * match acc with Some a => a | None => 0 end + d)) s'
      | None => acc
      end
  | EmptyString => acc
  end.

(** [parseInt(s, 10)]: skip white space, read a sign, read digits; [NaN]
    when no digit follows, and otherwise the double nearest to the number
    read. *)
Definition parseInt (s : string) : num :=
  match trimStart s with
  | String "-" s' =>
      match parseDigits None s' with
      | Some z => Int (roundDouble (- z))
      | None => NaN
      end
  | String "+" s' =>
      match parseDigits None s' with
      | Some z => Int (roundDouble z)
      | None => NaN
      end
  | s' =>
      match parseDigits None s' with
      | Some z => Int (roundDouble z)
      | None => NaN
      end
  end.

(** [String.prototype.toUpperCase()], on ASCII letters. *)
Definition upperChar (c : ascii) : ascii :=
  let n := N_of_ascii c in
  if (97 <=? n)%N && (n <=? 122)%N then ascii_of_N (n - 32) else c.

Fixpoint toUpperCase (s : string) : string :=
  match s with
  | String c s' => String (upperChar c) (toUpperCase s')
  | EmptyString => ""
  end.

(** [s.split(sep)] for a one-character separator. *)
Fixpoint split (sep : ascii) (s : string) : list string :=
  match s with
  | EmptyString => [""]
  | String c s' =>
      if Ascii.eqb c sep then "" :: split sep s'
      else
        match split sep s' with
        | part :: parts => String c part :: parts
        | [] => [String c ""]
        end
  end.

(** [parts.join(sep)] for a one-character separator. *)
Fixpoint join (sep : ascii) (parts : list string) : string :=
  match parts with
  | [] => ""
  | [part] => part
  | part :: rest => part ++ String sep (join sep rest)
  end.

(** [s.replace(/\s+/g, "_")]: every maximal run of white space becomes one
    underscore. *)
Fixpoint replaceWhiteSpaceRuns (inRun : bool) (s : string) : string :=
  match s with
  | EmptyString => ""
  | String c s' =>
      if isWhiteSpace c
      then if inRun then replaceWhiteSpaceRuns true s'
           else String "_" (replaceWhiteSpaceRuns true s')
      else String c (replaceWhiteSpaceRuns false s')
  end.

Definition replaceWhiteSpace (s : string) : string :=
  replaceWhiteSpaceRuns false s.

(** ** Results and the monad of [async] functions *)

Inductive error : Type :=
  | TypeError        (* a property read on [undefined] *)
  | ENOENT           (* a file-system call on an absent path *)
  | BrowserError     (* puppeteer: launch, template load or PDF print *)
  | DatabaseError    (* MongoDB unreachable *)
  | SyntaxError      (* [querySelector] on a selector that does not parse *)
  | DuplicateKey     (* unique index on [serialNumber] *)
  | UploadError      (* cloudinary *)
  | MailError.       (* mail transport *)

Inductive result (A : Type) : Type :=
  | Ok (a : A)
  | Throw (e : error).

Arguments Ok {A} a.
Arguments Throw {A} e.

Definition M (S A : Type) : Type := S -> result A * S.

Definition ret {S A} (a : A) : M S A := fun s => (Ok a, s).

Definition throw {S A} (e : error) : M S A := fun s => (Throw e, s).

Definition bind {S A B} (m : M S A) (k : A -> M S B) : M S B :=
  fun s =>
    match m s with
    | (Ok a, s') => k a s'
    | (Throw e, s') => (Throw e, s')
    end.

(** [try { body } catch (error) { handler }]. *)
Definition try_catch {S A} (body : M S A) (handler : error -> M S A) : M S A :=
  fun s =>
    match body s with
    | (Ok a, s') => (Ok a, s')
    | (Throw e, s') => handler e s'
    end.

Definition get {S} : M S S := fun s => (Ok s, s).

Definition modify {S} (f : S -> S) : M S unit := fun s => (Ok tt, f s).

(** A pure computation that may throw, run inside an [async] function. *)
Definition lift {S A} (r : result A) : M S A := fun s => (r, s).

(** A call that rejects with [e] unless [ok]. *)
Definition guard {S} (ok : bool) (e : error) : M S unit :=
  if ok then ret tt else throw e.

Declare Scope js_scope.
Delimit Scope js_scope with js.

Notation "x <- m ;; k" := (bind m (fun x => k))
  (at level 100, m at next level, right associativity) : js_scope.
Notation "m ;;; k" := (bind m (fun _ => k))
  (at level 100, right associativity) : js_scope.

Definition bind_result {A B} (r : result A) (k : A -> result B) : result B :=
  match r with
  | Ok a => k a
  | Throw e => Throw e
  end.

(** ** Data model *)

(** One entry of [education]. *)
Record Education : Type := {
  course : option string;
  school : option string;
  spec : option string;
  year : option string;
  perc : option string
}.

(** The request body, with the fields of [registrationSchema] typed as the
    schema types them; [None] is an absent field. *)
Record FormData : Type := {
  serialNumber : option string;
  admission_no : option string;
  sdmis_ref_no : option string;
  courseName : option string;
  department : option string;
  duration : option string;
  applicantName : option string;
  dob : option string;
  gender : option string;
  fatherName : option string;
  motherName : option string;
  address : option string;
  email : option string;
  mobile : option string;
  aadhar : option string;
  fromDate : option string;
  toDate : option string;
  casteCategory : option string;
  course_fees : option string;
  education : option (list Education);
  photo : option string
}.

(** [{ ...req.body, serialNumber }]. *)
Definition withSerialNumber (body : FormData) (serial : string) : FormData :=
  {| serialNumber := Some serial;
     admission_no := admission_no body;
     sdmis_ref_no := sdmis_ref_no body;
     courseName := courseName body;
     department := department body;
     duration := duration body;
     applicantName := applicantName body;
     dob := dob body;
     gender := gender body;
     fatherName := fatherName body;
     motherName := motherName body;
     address := address body;
     email := email body;
     mobile := mobile body;
     aadhar := aadhar body;
     fromDate := fromDate body;
     toDate := toDate body;
     casteCategory := casteCategory body;
     course_fees := course_fees body;
     education := education body;
     photo := photo body |}.

(** A document of the [Registration] collection: the stamped form data and
    the two URLs; a URL is [None] for JavaScript's [null]. *)
Record Registration : Type := {
  reg_data : FormData;
  certificateUrl : option string;
  applicationFormUrl : option string
}.

(** What a render call returns: [{ path, url }]. *)
Record Document : Type := {
  doc_path : string;
  doc_url : option string
}.

(** The answer of the endpoint. *)
Inductive Response : Type :=
  | Status200                 (* "Registration successful!" *)
  | Status500 (e : error).    (* "An error occurred on the server." *)

(** ** Document renderer: the pure part *)

(** [x.toUpperCase()] on a field: a [TypeError] when the field is absent. *)
Definition upperField (x : option string) : result string :=
  match x with
  | Some s => Ok (toUpperCase s)
  | None => Throw TypeError
  end.

(** [x || ''] on a field. *)
Definition orEmpty (x : option string) : string :=
  match x with
  | Some s => s
  | None => ""
  end.

Definition isStr (x : option string) (s : string) : bool :=
  match x with
  | Some s' => String.eqb s' s
  | None => false
  end.

(** The arrow function [formatDate] of [generateCertificate]. *)
Definition formatDate (dateString : option string) : string :=
  match dateString with
  | None => ""
  | Some "" => ""
  | Some s =>
      match split "-" s with
      | [year; month; day] => day ++ "-" ++ month ++ "-" ++ year
      | _ => s
      end
  end.

Definition certifyOpen : string := "This is to certify that <strong>".
Definition certifyClose : string :=
  "</strong> is awarded this certificate in recognition".

(** [mainText] of [generateCertificate]. *)
Definition mainText (data : FormData) : result string :=
  if isStr (gender data) "Mr." then
    bind_result (upperField (applicantName data)) (fun name =>
    bind_result (upperField (fatherName data)) (fun father =>
    Ok (certifyOpen ++ "Mr. " ++ name ++ "</strong> S/o <strong>"
          ++ father ++ certifyClose)))
  else if isStr (gender data) "Ms." then
    bind_result (upperField (applicantName data)) (fun name =>
    bind_result (upperField (fatherName data)) (fun father =>
    Ok (certifyOpen ++ "Ms. " ++ name ++ "</strong> D/o <strong>"
          ++ father ++ certifyClose)))
  else
    bind_result (upperField (applicantName data)) (fun name =>
    bind_result (upperField (fatherName data)) (fun father =>
    Ok (certifyOpen ++ name ++ "</strong> S/o / D/o <strong>"
          ++ father ++ certifyClose))).

(** The callback of [page.evaluate] in [generateCertificate]: the content
    written to each bound element of the certificate template, in order. *)
Definition certificateFields (data : FormData) : result (list (string * string)) :=
  bind_result (mainText data) (fun text =>
  bind_result (upperField (courseName data)) (fun courseUpper =>
  Ok (List.app
        [ ("cert-main-text", text);
          ("cert-serial", orEmpty (serialNumber data));
          ("cert-course", "INTERNSHIP PROGRAMME ON " ++ courseUpper);
          ("cert-start", formatDate (fromDate data));
          ("cert-end", formatDate (toDate data));
          ("cert-issue-date", formatDate (toDate data)) ]
        match photo data with
        | Some "" | None => []
        | Some p => [("cert-photo", p)]
        end))).

Definition firstEducation (data : FormData) : list (string * string) :=
  match education data with
  | Some (e :: _) =>
      [ ("edu_course", orEmpty (course e));
        ("edu_school", orEmpty (school e));
        ("edu_spec", orEmpty (spec e));
        ("edu_year", orEmpty (year e));
        ("edu_perc", orEmpty (perc e)) ]
  | _ => []
  end.

Definition doubleQuote : string := String "034"%char "".

(** The selector of the caste radio button: the text
    input[name=<q>caste<q>][value=<q>${data.casteCategory}<q>] with a
    quotation mark for <q>; the value is spliced in as it is. *)
Definition casteSelector (value : string) : string :=
  "input[name=" ++ doubleQuote ++ "caste" ++ doubleQuote
    ++ "][value=" ++ doubleQuote ++ value ++ doubleQuote ++ "]".

(** [if (data.casteCategory) { const radio = document.querySelector(...);
    if (radio) radio.checked = true; }]: [querySelector] throws a
    [SyntaxError] when the browser cannot parse the selector, which
    [parses] decides. *)
Definition casteField (parses : string -> bool) (data : FormData)
    : result (list (string * string)) :=
  match casteCategory data with
  | Some "" | None => Ok []
  | Some c => if parses (casteSelector c) then Ok [("caste", c)] else Throw SyntaxError
  end.

(** The callback of [page.evaluate] in [generateApplicationFormPdf]. *)
Definition applicationFormFields (parses : string -> bool) (data : FormData)
    : result (list (string * string)) :=
 bind_result (casteField parses data) (fun caste => Ok
 ([ ("course-name", orEmpty (courseName data));
    ("department", orEmpty (department data));
    ("duration", orEmpty (duration data));
    ("from-date", orEmpty (fromDate data));
    ("to-date", orEmpty (toDate data));
    ("applicant-name", orEmpty (applicantName data));
    ("dob", orEmpty (dob data));
    ("father-name", orEmpty (fatherName data));
    ("mother-name", orEmpty (motherName data));
    ("address", orEmpty (address data));
    ("mobile", orEmpty (mobile data));
    ("email", orEmpty (email data));
    ("aadhar", orEmpty (aadhar data));
    ("course_fees", orEmpty (course_fees data)) ]
  ++ caste
  ++ firstEducation data
  ++ (if isStr (gender data) "Mr." then [("gender_male", "checked")]
      else if isStr (gender data) "Ms." then [("gender_female", "checked")]
      else [])
  ++ match photo data with
     | Some "" | None => []
     | Some p => [("preview", p)]
     end)%list).

(** [data.applicantName.replace(/\s+/g, '_')]: a [TypeError] when the name
    is absent. *)
Definition sanitizedName (data : FormData) : result string :=
  match applicantName data with
  | Some s => Ok (replaceWhiteSpace s)
  | None => Throw TypeError
  end.

(** [path.join(__dirname, '..', 'output')], with [__dirname] as the
    container image sets it. *)
Definition outputDir : string := "/usr/src/app/output".

(** The segments [path.normalize] keeps of an absolute path, [kept] being
    those kept so far, last first: an empty segment and [.] are dropped,
    [..] drops the segment before it, if there is one. *)
Fixpoint normalizeSegments (kept segments : list string) : list string :=
  match segments with
  | [] => rev kept
  | segment :: rest =>
      if String.eqb segment "" || String.eqb segment "."
      then normalizeSegments kept rest
      else if String.eqb segment ".."
      then normalizeSegments (tl kept) rest
      else normalizeSegments (segment :: kept) rest
  end.

(** [p.charCodeAt(p.length - 1)], with code 0 for the [NaN] of an empty
    string. *)
Fixpoint lastChar (p : string) : ascii :=
  match p with
  | EmptyString => zero
  | String c EmptyString => c
  | String _ p' => lastChar p'
  end.

(** [path.normalize(p)] of Node on POSIX, for an absolute path: the kept
    segments after the root, and the trailing separator if [p] has one. *)
Definition normalize (p : string) : string :=
  match join "/" (normalizeSegments [] (split "/" p)) with
  | EmptyString => "/"
  | kept => "/" ++ kept ++ (if Ascii.eqb (lastChar p) "/" then "/" else "")
  end.

(** [path.join(outputDir, fileName)]: the two joined by a separator, an
    empty argument left out, and the result normalised. *)
Definition joinOutput (fileName : string) : string :=
  match fileName with
  | EmptyString => normalize outputDir
  | _ => normalize (outputDir ++ "/" ++ fileName)
  end.

(** [`Certificate-${name}-${Date.now()}.pdf`] and its siblings. *)
Definition pdfFileName (kind name : string) (now : Z) : string :=
  kind ++ "-" ++ name ++ "-" ++ Z_toString now ++ ".pdf".

Definition reportPath (now : Z) : string :=
  joinOutput ("report-" ++ Z_toString now ++ ".xlsx").

(** ** The local file system: the set of present paths *)

Definition existsFile (p : string) (files : list string) : bool :=
  existsb (String.eqb p) files.

Definition addFile (p : string) (files : list string) : list string :=
  if existsFile p files then files else (files ++ [p])%list.

Definition removeFile (p : string) (files : list string) : list string :=
  filter (fun q => negb (String.eqb p q)) files.

(** ** The environment of one run *)

(** How the remote services answer during one submission, and what
    [Date.now()] reads when each PDF is named. *)
Record SubmitEnv : Type := {
  findOk : bool;                 (* Registration.findOne().sort(...) *)
  certBrowserOk : bool;          (* launch, template, logos, setContent *)
  certNow : Z;
  certPdfOk : bool;              (* page.pdf, browser.close *)
  certUpload : option string;    (* cloudinary: the secure_url, or a failure *)
  formBrowserOk : bool;
  selectorOk : string -> bool;   (* querySelector: the selector parses *)
  formNow : Z;
  formPdfOk : bool;
  formUpload : option string;
  saveOk : bool;                 (* MongoDB reachable for save() *)
  mailOk : bool                  (* the mail transport accepts the message *)
}.

(** The same for one scheduled flush. *)
Record FlushEnv : Type := {
  flushFindOk : bool;            (* Registration.find({}).lean() *)
  flushNow : Z;
  flushSendOk : bool
}.

(** [cloudinary.uploader.upload]: the secure URL, or a rejection. *)
Definition cloudinaryUpload {S} (answer : option string) : M S string :=
  match answer with
  | Some secure_url => ret secure_url
  | None => throw UploadError
  end.

Definition serialOf (r : Registration) : option string :=
  serialNumber (reg_data r).

Definition optionStringEqb (a b : option string) : bool :=
  match a, b with
  | Some x, Some y => String.eqb x y
  | None, None => true
  | _, _ => false
  end.

(** The unique index on [serialNumber]. *)
Definition serialTaken (serial : option string) (docs : list Registration) : bool :=
  existsb (fun r => optionStringEqb (serialOf r) serial) docs.

(** * Revision 1: file-backed counter, nodemailer *)

Module FileBacked.

Local Open Scope js_scope.

(** An entry of [fileQueue]: [{ type, path }]. *)
Record QueueItem : Type := {
  type : string;
  path : string
}.

Inductive Mail : Type :=
  | StudentMail (to : option string) (attachment : string)
  | FacultyMail (attachments : list string).

Record State : Type := {
  counterFile : option string;   (* content of serial_number.txt *)
  files : list string;           (* paths present under the output folder *)
  store : list Registration;     (* the Registration collection *)
  fileQueue : list QueueItem;
  outbox : list Mail             (* messages the transport accepted *)
}.

Definition setCounterFile (c : option string) (st : State) : State :=
  {| counterFile := c; files := files st; store := store st;
     fileQueue := fileQueue st; outbox := outbox st |}.

Definition setFiles (f : list string) (st : State) : State :=
  {| counterFile := counterFile st; files := f; store := store st;
     fileQueue := fileQueue st; outbox := outbox st |}.

Definition setStore (d : list Registration) (st : State) : State :=
  {| counterFile := counterFile st; files := files st; store := d;
     fileQueue := fileQueue st; outbox := outbox st |}.

Definition setFileQueue (q : list QueueItem) (st : State) : State :=
  {| counterFile := counterFile st; files := files st; store := store st;
     fileQueue := q; outbox := outbox st |}.

Definition setOutbox (o : list Mail) (st : State) : State :=
  {| counterFile := counterFile st; files := files st; store := store st;
     fileQueue := fileQueue st; outbox := o |}.

(** [fs.readFile(serialNumberFilePath, 'utf8')]. *)
Definition readCounterFile : M State string :=
  fun st =>
    match counterFile st with
    | Some data => (Ok data, st)
    | None => (Throw ENOENT, st)
    end.

(** [fs.writeFile(serialNumberFilePath, text, 'utf8')]. *)
Definition writeCounterFile (text : string) : M State unit :=
  modify (setCounterFile (Some text)).

(** [page.pdf({ path })] and [workbook.xlsx.writeFile(path)]. *)
Definition writeFile (p : string) : M State unit :=
  modify (fun st => setFiles (addFile p (files st)) st).

(** [fs.unlink(p)]. *)
Definition unlink (p : string) : M State unit :=
  fun st =>
    if existsFile p (files st)
    then (Ok tt, setFiles (removeFile p (files st)) st)
    else (Throw ENOENT, st).

Definition getNextSerialNumber : M State string :=
  currentNumber <-
    try_catch (data <- readCounterFile ;; ret (parseInt data))
              (fun _ => ret (Int 818)) ;;
  let nextNumber := succ_num currentNumber in
  writeCounterFile (toString nextNumber) ;;;
  ret (padStart 6 (toString nextNumber)).

(** [cloud] is the answer of Cloudinary to this upload.  The public id
    sent along is built from [studentName] and the base name of
    [filePath]; it reaches the remote side only. *)
Definition uploadToCloudinary (cloud : option string)
    (filePath : string) (studentName : option string) : M State (option string) :=
  try_catch
    (secure_url <- cloudinaryUpload cloud ;;
     unlink filePath ;;;
     ret (Some secure_url))
    (fun _ => ret None).

Definition generateCertificate (env : SubmitEnv) (data : FormData) : M State Document :=
  guard (certBrowserOk env) BrowserError ;;;
  _ <- lift (certificateFields data) ;;
  name <- lift (sanitizedName data) ;;
  let pdfPath := joinOutput (pdfFileName "Certificate" name (certNow env)) in
  guard (certPdfOk env) BrowserError ;;;
  writeFile pdfPath ;;;
  url <- uploadToCloudinary (certUpload env) pdfPath (applicantName data) ;;
  ret {| doc_path := pdfPath; doc_url := url |}.

Definition generateApplicationFormPdf (env : SubmitEnv) (data : FormData) : M State Document :=
  guard (formBrowserOk env) BrowserError ;;;
  _ <- lift (applicationFormFields (selectorOk env) data) ;;
  name <- lift (sanitizedName data) ;;
  let pdfPath := joinOutput (pdfFileName "Application" name (formNow env)) in
  guard (formPdfOk env) BrowserError ;;;
  writeFile pdfPath ;;;
  url <- uploadToCloudinary (formUpload env) pdfPath (applicantName data) ;;
  ret {| doc_path := pdfPath; doc_url := url |}.

(** [newRegistration.save()]. *)
Definition save (env : SubmitEnv) (doc : Registration) : M State unit :=
  guard (saveOk env) DatabaseError ;;;
  st <- get ;;
  guard (negb (serialTaken (serialOf doc) (store st))) DuplicateKey ;;;
  modify (fun st => setStore (store st ++ [doc]) st).

(** [transporter.sendMail]: nodemailer reads each attachment from its
    path, then hands the message to the transport. *)
Definition sendMail (transportOk : bool) (attachments : list string) (mail : Mail)
    : M State unit :=
  st <- get ;;
  guard (forallb (fun p => existsFile p (files st)) attachments) ENOENT ;;;
  guard transportOk MailError ;;;
  modify (fun st => setOutbox (outbox st ++ [mail]) st).

Definition sendStudentEmail (env : SubmitEnv) (data : FormData)
    (applicationFormPath : string) : M State unit :=
  try_catch
    (sendMail (mailOk env) [applicationFormPath]
       (StudentMail (email data) applicationFormPath))
    (fun _ => ret tt).

(** [fileQueue.forEach(file => fs.unlink(file.path).catch(...))]. *)
Fixpoint unlinkEach (paths : list string) : M State unit :=
  match paths with
  | [] => ret tt
  | p :: rest => try_catch (unlink p) (fun _ => ret tt) ;;; unlinkEach rest
  end.

Definition sendBatchedFacultyEmail (env : FlushEnv) : M State unit :=
  st <- get ;;
  match fileQueue st with
  | [] => ret tt
  | _ :: _ =>
      let attachments := map path (fileQueue st) in
      guard (flushFindOk env) DatabaseError ;;;
      let tempExcelPath := reportPath (flushNow env) in
      writeFile tempExcelPath ;;;
      let attachments := (attachments ++ [tempExcelPath])%list in
      try_catch
        (sendMail (flushSendOk env) attachments (FacultyMail attachments) ;;;
         unlinkEach (map path (fileQueue st)) ;;;
         unlink tempExcelPath ;;;
         modify (setFileQueue []))
        (fun _ => ret tt)
  end.

(** [app.post('/api/submit-form', ...)]. *)
Definition submitForm (env : SubmitEnv) (body : FormData) : M State Response :=
  try_catch
    (serial <- getNextSerialNumber ;;
     let fullFormData := withSerialNumber body serial in
     certificate <- generateCertificate env fullFormData ;;
     applicationForm <- generateApplicationFormPdf env fullFormData ;;
     let dbData :=
       {| reg_data := fullFormData;
          certificateUrl := doc_url certificate;
          applicationFormUrl := doc_url applicationForm |} in
     save env dbData ;;;
     sendStudentEmail env fullFormData (doc_path applicationForm) ;;;
     modify (fun st => setFileQueue
       (fileQueue st ++ [{| type := "certificate"; path := doc_path certificate |}]) st) ;;;
     modify (fun st => setFileQueue
       (fileQueue st ++ [{| type := "application"; path := doc_path applicationForm |}]) st) ;;;
     ret Status200)
    (fun e => ret (Status500 e)).

End FileBacked.

(** * Revision 2: store-derived counter, SendGrid *)

Module StoreDerived.

Local Open Scope js_scope.

(** An entry of [fileQueue]: [{ studentName, certificateUrl,
    applicationFormUrl }]. *)
Record QueueItem : Type := {
  studentName : option string;
  itemCertificateUrl : option string;
  itemApplicationFormUrl : option string
}.

Inductive Mail : Type :=
  | StudentMail (to : option string) (attachment : string)
  | FacultyMail (students : list QueueItem) (report : list Registration).

Record State : Type := {
  files : list string;
  store : list Registration;
  fileQueue : list QueueItem;
  outbox : list Mail
}.

Definition setFiles (f : list string) (st : State) : State :=
  {| files := f; store := store st;
     fileQueue := fileQueue st; outbox := outbox st |}.

Definition setStore (d : list Registration) (st : State) : State :=
  {| files := files st; store := d;
     fileQueue := fileQueue st; outbox := outbox st |}.

Definition setFileQueue (q : list QueueItem) (st : State) : State :=
  {| files := files st; store := store st;
     fileQueue := q; outbox := outbox st |}.

Definition setOutbox (o : list Mail) (st : State) : State :=
  {| files := files st; store := store st;
     fileQueue := fileQueue st; outbox := o |}.

Definition writeFile (p : string) : M State unit :=
  modify (fun st => setFiles (addFile p (files st)) st).

Definition unlink (p : string) : M State unit :=
  fun st =>
    if existsFile p (files st)
    then (Ok tt, setFiles (removeFile p (files st)) st)
    else (Throw ENOENT, st).

(** [fs.readFile(p)]: the content is not modelled. *)
Definition readFile (p : string) : M State unit :=
  st <- get ;;
  guard (existsFile p (files st)) ENOENT.

(** The order of [sort({ serialNumber: -1 })]: a missing field sorts
    below every string, strings by code unit. *)
Definition serialLtb (a b : option string) : bool :=
  match a, b with
  | None, Some _ => true
  | Some x, Some y => String.ltb x y
  | _, _ => false
  end.

(** [Registration.findOne().sort({ serialNumber: -1 })]. *)
Definition findLast (docs : list Registration) : option Registration :=
  fold_left
    (fun best r =>
       match best with
       | None => Some r
       | Some b => if serialLtb (serialOf b) (serialOf r) then Some r else Some b
       end)
    docs None.

Definition getNextSerialNumber (env : SubmitEnv) : M State string :=
  guard (findOk env) DatabaseError ;;;
  st <- get ;;
  let lastRegistration := findLast (store st) in
  let nextNumber :=
    match lastRegistration with
    | Some r =>
        match serialOf r with
        | Some "" | None => Int 819
        | Some s => succ_num (parseInt s)
        end
    | None => Int 819
    end in
  ret (padStart 6 (toString nextNumber)).

(** [cloud] is the answer of Cloudinary to this upload; the public id is
    built from [studentName] and the file name without its extension. *)
Definition uploadToCloudinary (cloud : option string)
    (filePath : string) (studentName : option string) : M State (option string) :=
  try_catch
    (secure_url <- cloudinaryUpload cloud ;;
     ret (Some secure_url))
    (fun _ => ret None).

Definition generateCertificate (env : SubmitEnv) (data : FormData) : M State Document :=
  guard (certBrowserOk env) BrowserError ;;;
  _ <- lift (certificateFields data) ;;
  name <- lift (sanitizedName data) ;;
  let pdfPath := joinOutput (pdfFileName "Certificate" name (certNow env)) in
  guard (certPdfOk env) BrowserError ;;;
  writeFile pdfPath ;;;
  url <- uploadToCloudinary (certUpload env) pdfPath (applicantName data) ;;
  ret {| doc_path := pdfPath; doc_url := url |}.

Definition generateApplicationFormPdf (env : SubmitEnv) (data : FormData) : M State Document :=
  guard (formBrowserOk env) BrowserError ;;;
  _ <- lift (applicationFormFields (selectorOk env) data) ;;
  name <- lift (sanitizedName data) ;;
  let pdfPath := joinOutput (pdfFileName "Application" name (formNow env)) in
  guard (formPdfOk env) BrowserError ;;;
  writeFile pdfPath ;;;
  url <- uploadToCloudinary (formUpload env) pdfPath (applicantName data) ;;
  ret {| doc_path := pdfPath; doc_url := url |}.

Definition save (env : SubmitEnv) (doc : Registration) : M State unit :=
  guard (saveOk env) DatabaseError ;;;
  st <- get ;;
  guard (negb (serialTaken (serialOf doc) (store st))) DuplicateKey ;;;
  modify (fun st => setStore (store st ++ [doc]) st).

(** [sgMail.send]. *)
Definition sgSend (transportOk : bool) (mail : Mail) : M State unit :=
  guard transportOk MailError ;;;
  modify (fun st => setOutbox (outbox st ++ [mail]) st).

Definition sendStudentEmail (env : SubmitEnv) (data : FormData)
    (applicationFormPath : string) : M State unit :=
  try_catch
    (readFile applicationFormPath ;;;
     sgSend (mailOk env) (StudentMail (email data) applicationFormPath))
    (fun _ => ret tt).

Definition sendBatchedFacultyEmail (env : FlushEnv) : M State unit :=
  st <- get ;;
  match fileQueue st with
  | [] => ret tt
  | _ :: _ =>
      try_catch
        (guard (flushFindOk env) DatabaseError ;;;
         let allRegistrations := store st in
         let tempExcelPath := reportPath (flushNow env) in
         writeFile tempExcelPath ;;;
         readFile tempExcelPath ;;;
         sgSend (flushSendOk env) (FacultyMail (fileQueue st) allRegistrations) ;;;
         unlink tempExcelPath ;;;
         modify (setFileQueue []))
        (fun _ => ret tt)
  end.

Definition submitForm (env : SubmitEnv) (body : FormData) : M State Response :=
  try_catch
    (serial <- getNextSerialNumber env ;;
     let fullFormData := withSerialNumber body serial in
     certificate <- generateCertificate env fullFormData ;;
     applicationForm <- generateApplicationFormPdf env fullFormData ;;
     let dbData :=
       {| reg_data := fullFormData;
          certificateUrl := doc_url certificate;
          applicationFormUrl := doc_url applicationForm |} in
     save env dbData ;;;
     sendStudentEmail env fullFormData (doc_path applicationForm) ;;;
     modify (fun st => setFileQueue
       (fileQueue st ++ [{| studentName := applicantName fullFormData;
                            itemCertificateUrl := doc_url certificate;
                            itemApplicationFormUrl := doc_url applicationForm |}]) st) ;;;
     unlink (doc_path certificate) ;;;
     unlink (doc_path applicationForm) ;;;
     ret Status200)
    (fun e => ret (Status500 e)).

End StoreDerived.

(** * Notions used in the statements *)

(** The value of the decimal digits [d] read after the value [acc]. *)
Fixpoint uintValue (acc : Z) (d : Decimal.uint) : Z :=
  match d with
  | Decimal.Nil => acc
  | Decimal.D0 d' => uintValue (10 * acc) d'
  | Decimal.D1 d' => uintValue (10 * acc + 1) d'
  | Decimal.D2 d' => uintValue (10 * acc + 2) d'
  | Decimal.D3 d' => uintValue (10 * acc + 3) d'
  | Decimal.D4 d' => uintValue (10 * acc + 4) d'
  | Decimal.D5 d' => uintValue (10 * acc + 5) d'
  | Decimal.D6 d' => uintValue (10 * acc + 6) d'
  | Decimal.D7 d' => uintValue (10 * acc + 7) d'
  | Decimal.D8 d' => uintValue (10 * acc + 8) d'
  | Decimal.D9 d' => uintValue (10 * acc + 9) d'
  end.

(** The first character is a decimal digit. *)
Definition startsWithDigit (s : string) : Prop :=
  match s with
  | String c _ => digitValue c <> None
  | EmptyString => False
  end.

(** Number of occurrences of a character. *)
Fixpoint countChar (c : ascii) (s : string) : nat :=
  match s with
  | EmptyString => 0
  | String a s' => ((if Ascii.eqb a c then 1 else 0) + countChar c s')%nat
  end.

(** The three phrasings of the certificate body: son of, daughter of, and
    the combined one. *)
Definition sonOfText (name father : string) : string :=
  "This is to certify that <strong>Mr. " ++ toUpperCase name
    ++ "</strong> S/o <strong>" ++ toUpperCase father
    ++ "</strong> is awarded this certificate in recognition".

Definition daughterOfText (name father : string) : string :=
  "This is to certify that <strong>Ms. " ++ toUpperCase name
    ++ "</strong> D/o <strong>" ++ toUpperCase father
    ++ "</strong> is awarded this certificate in recognition".

Definition combinedText (name father : string) : string :=
  "This is to certify that <strong>" ++ toUpperCase name
    ++ "</strong> S/o / D/o <strong>" ++ toUpperCase father
    ++ "</strong> is awarded this certificate in recognition".

Definition isSome {A} (x : option A) : bool :=
  match x with
  | Some _ => true
  | None => false
  end.

(** Every character of the string is a decimal digit. *)
Fixpoint allDigits (s : string) : bool :=
  match s with
  | EmptyString => true
  | String c s' => isSome (digitValue c) && allDigits s'
  end.

(** The number a string of decimal digits reads as, after the number
    [acc] read so far. *)
Fixpoint decimalValue (acc : Z) (s : string) : Z :=
  match s with
  | EmptyString => acc
  | String c s' =>
      decimalValue (10 * acc + match digitValue c with Some d => d | None => 0 end) s'
  end.

(** The fields the renderers read without a guard. *)
Definition renderable (data : FormData) : bool :=
  isSome (applicantName data) && isSome (fatherName data) && isSome (courseName data).

(** The document [save] stores for a submission. *)
Definition registrationOf (body : FormData) (serial : string)
    (certUrl formUrl : option string) : Registration :=
  {| reg_data := withSerialNumber body serial;
     certificateUrl := certUrl;
     applicationFormUrl := formUrl |}.

(** The paths of the two PDFs of a submission with a name. *)
Definition certificatePath (env : SubmitEnv) (body : FormData) : string :=
  joinOutput (pdfFileName "Certificate"
    (replaceWhiteSpace (orEmpty (applicantName body))) (certNow env)).

Definition applicationPath (env : SubmitEnv) (body : FormData) : string :=
  joinOutput (pdfFileName "Application"
    (replaceWhiteSpace (orEmpty (applicantName body))) (formNow env)).

(** What the client receives. *)
Definition answer (r : result Response) : Response :=
  match r with
  | Ok a => a
  | Throw e => Status500 e
  end.

(** The submissions of a run that were answered 200. *)
Fixpoint completed (subs : list (SubmitEnv * FormData)) (answers : list Response)
    : list (SubmitEnv * FormData) :=
  match subs, answers with
  | sub :: subs', Status200 :: answers' => sub :: completed subs' answers'
  | _ :: subs', _ :: answers' => completed subs' answers'
  | _, _ => []
  end.

(** The six-character serial of a number. *)
Definition serialString (n : Z) : string := padStart 6 (Z_toString n).

(** The registrations of completed submissions stamped with the serials of
    [ns], in order. *)
Definition stamped (done : list (SubmitEnv * FormData)) (ns : list Z)
    : list Registration :=
  map (fun '((env, body), n) =>
         registrationOf body (serialString n) (certUpload env) (formUpload env))
      (combine done ns).

(** The counter file is absent or holds a non-negative number. *)
Definition counterOk (counter : option string) : Prop :=
  match counter with
  | Some data => exists n, parseInt data = Int n /\ 0 <= n
  | None => True
  end.

(** The registrations added between [before] and [after] are those of the
    completed submissions [done], in order, stamped with the serials of
    the numbers [ns], which increase strictly; a serial reads back as its
    number, and no two serials are the same string. *)
Definition serialsInOrder (before after : list Registration)
    (done : list (SubmitEnv * FormData)) (ns : list Z) : Prop :=
  List.length ns = List.length done
  /\ after = (before ++ stamped done ns)%list
  /\ StronglySorted Z.lt ns
  /\ Forall (fun n => parseInt (serialString n) = Int n) ns
  /\ NoDup (map serialString ns).

(** Some character of the string is white space. *)
Fixpoint hasWhiteSpace (s : string) : bool :=
  match s with
  | String c s' => isWhiteSpace c || hasWhiteSpace s'
  | EmptyString => false
  end.

(** Every character of the string is white space. *)
Fixpoint allWhiteSpace (s : string) : bool :=
  match s with
  | String c s' => isWhiteSpace c && allWhiteSpace s'
  | EmptyString => true
  end.

(** The string is empty or starts with something that is not a digit. *)
Definition endsDigits (s : string) : Prop :=
  match s with
  | String c _ => digitValue c = None
  | EmptyString => True
  end.

(** The answer that goes with the first failing step. *)
Definition answerOf (failure : option error) : Response :=
  match failure with
  | Some e => Status500 e
  | None => Status200
  end.

(** The environment with another answer of the mail transport. *)
Definition withMailOk (ok : bool) (env : SubmitEnv) : SubmitEnv :=
  {| findOk := findOk env;
     certBrowserOk := certBrowserOk env; certNow := certNow env;
     certPdfOk := certPdfOk env; certUpload := certUpload env;
     formBrowserOk := formBrowserOk env; selectorOk := selectorOk env;
     formNow := formNow env;
     formPdfOk := formPdfOk env; formUpload := formUpload env;
     saveOk := saveOk env; mailOk := ok |}.

(** The browser parses the selector of the caste radio button, when the
    form asks for one. *)
Definition formFieldsOk (env : SubmitEnv) (data : FormData) : bool :=
  match casteCategory data with
  | Some "" | None => true
  | Some c => selectorOk env (casteSelector c)
  end.

(** The two PDFs of a submission have different paths. *)
Definition pathsDistinct (env : SubmitEnv) (body : FormData) : bool :=
  negb (String.eqb (certificatePath env body) (applicationPath env body)).

(** Both renders and the save succeed, as far as the services and the
    request decide it. *)
Definition pipelineOk (env : SubmitEnv) (body : FormData) : bool :=
  certBrowserOk env && renderable body && certPdfOk env
  && formBrowserOk env && formFieldsOk env body && formPdfOk env && saveOk env.

(** The error of the first of these steps that fails, in the order the
    endpoint runs them. *)
Definition pipelineFailure (env : SubmitEnv) (body : FormData) : option error :=
  if negb (certBrowserOk env) then Some BrowserError
  else if negb (renderable body) then Some TypeError
  else if negb (certPdfOk env) then Some BrowserError
  else if negb (formBrowserOk env) then Some BrowserError
  else if negb (formFieldsOk env body) then Some SyntaxError
  else if negb (formPdfOk env) then Some BrowserError
  else if negb (saveOk env) then Some DatabaseError
  else None.

(** The numbers a run allocates, one for each submission, starting from
    [v]: the count moves on after a submission that [consumes] its
    number. *)
Fixpoint allocated (consumes : SubmitEnv -> FormData -> bool) (v : Z)
    (subs : list (SubmitEnv * FormData)) : list Z :=
  match subs with
  | [] => []
  | (env, body) :: rest =>
      v :: allocated consumes (if consumes env body then v + 1 else v) rest
  end.

(** The submissions that are [ok], and the numbers allocated to them. *)
Fixpoint keptSubmissions (ok : SubmitEnv -> FormData -> bool)
    (subs : list (SubmitEnv * FormData)) : list (SubmitEnv * FormData) :=
  match subs with
  | [] => []
  | (env, body) :: rest =>
      if ok env body then (env, body) :: keptSubmissions ok rest
      else keptSubmissions ok rest
  end.

Fixpoint keptNumbers (ok : SubmitEnv -> FormData -> bool)
    (subs : list (SubmitEnv * FormData)) (ns : list Z) : list Z :=
  match subs, ns with
  | (env, body) :: rest, n :: ns' =>
      if ok env body then n :: keptNumbers ok rest ns' else keptNumbers ok rest ns'
  | _, _ => []
  end.

(** Every stored serial that reads as a number reads as one up to [c]. *)
Definition storeBelow (c : Z) (docs : list Registration) : Prop :=
  Forall (fun r =>
            match serialOf r with
            | Some s => match parseInt s with Int n => n <= c | NaN => True end
            | None => True
            end) docs.

(** Every stored serial is the six-character serial of a number below one
    million. *)
Definition sixDigitStore (docs : list Registration) : Prop :=
  Forall (fun r => exists n, serialOf r = Some (serialString n) /\ 0 <= n < 1000000) docs.

Module FileBackedSpec.

Import FileBacked.

(** The number [getNextSerialNumber] computes from the counter file. *)
Definition nextNumber (counter : option string) : num :=
  succ_num match counter with
           | Some data => parseInt data
           | None => Int 818
           end.

(** The serial it returns. *)
Definition nextSerial (counter : option string) : string :=
  padStart 6 (toString (nextNumber counter)).

(** The files left by a render call: the PDF, unless Cloudinary took it. *)
Definition afterRender (cloud : option string) (p : string) (fs : list string)
    : list string :=
  match cloud with
  | Some _ => removeFile p (addFile p fs)
  | None => addFile p fs
  end.

(** Every step of a submission other than the two uploads and the
    confirmation mail succeeds: both renders, and the save under the
    unique index. *)
Definition stepsSucceed (env : SubmitEnv) (body : FormData) (st : State) : bool :=
  pipelineOk env body
  && negb (serialTaken (Some (nextSerial (counterFile st))) (store st)).

(** The state a successful submission leaves. *)
Definition successState (env : SubmitEnv) (body : FormData) (st : State) : State :=
  let serial := nextSerial (counterFile st) in
  let cert := certificatePath env body in
  let form := applicationPath env body in
  {| counterFile := Some (toString (nextNumber (counterFile st)));
     files := afterRender (formUpload env) form
                (afterRender (certUpload env) cert (files st));
     store := store st ++ [registrationOf body serial (certUpload env) (formUpload env)];
     fileQueue := fileQueue st ++
       [{| type := "certificate"; path := cert |};
        {| type := "application"; path := form |}];
     outbox := if negb (isSome (formUpload env)) && mailOk env
               then outbox st ++ [StudentMail (email body) form]
               else outbox st |}.

(** Submissions handled one after the other, none overlapping. *)
Fixpoint run (subs : list (SubmitEnv * FormData)) (st : State)
    : list Response * State :=
  match subs with
  | [] => ([], st)
  | (env, body) :: rest =>
      let (r, st1) := submitForm env body st in
      let (answers, st2) := run rest st1 in
      (answer r :: answers, st2)
  end.

(** The count the counter file stands for. *)
Definition counterValue (counter : option string) : Z :=
  match counter with
  | Some data => match parseInt data with Int n => n | NaN => 0 end
  | None => 818
  end.

Definition queuedPaths (st : State) : list string := map path (fileQueue st).

(** Every queued PDF is still on disk, MongoDB answers, and the transport
    accepts the mail. *)
Definition sendSucceeds (env : FlushEnv) (st : State) : bool :=
  flushFindOk env
  && forallb (fun p => existsFile p (files st)) (queuedPaths st)
  && flushSendOk env.

Definition removeFiles (paths fs : list string) : list string :=
  fold_left (fun fs p => removeFile p fs) paths fs.

(** The error of the first step of a submission that fails, in the order
    the endpoint runs them; [None] when every step succeeds. *)
Definition firstFailure (env : SubmitEnv) (body : FormData) (st : State)
    : option error :=
  match pipelineFailure env body with
  | Some e => Some e
  | None =>
      if serialTaken (Some (nextSerial (counterFile st))) (store st)
      then Some DuplicateKey
      else None
  end.

(** The serials [getNextSerialNumber] returns to the submissions of a
    run, in order. *)
Fixpoint issued (subs : list (SubmitEnv * FormData)) (st : State)
    : list (result string) :=
  match subs with
  | [] => []
  | (env, body) :: rest =>
      fst (getNextSerialNumber st) :: issued rest (snd (submitForm env body st))
  end.

(** The two queue entries of each completed submission, in order. *)
Definition queueEntries (done : list (SubmitEnv * FormData)) : list QueueItem :=
  flat_map (fun '(env, body) =>
              [{| type := "certificate"; path := certificatePath env body |};
               {| type := "application"; path := applicationPath env body |}])
           done.

End FileBackedSpec.

Module StoreDerivedSpec.

Import StoreDerived.

(** The serial [getNextSerialNumber] derives from a collection. *)
Definition nextSerial (docs : list Registration) : string :=
  padStart 6 (toString
    match findLast docs with
    | Some r =>
        match serialOf r with
        | Some "" | None => Int 819
        | Some s => succ_num (parseInt s)
        end
    | None => Int 819
    end).

(** The registration of a submission is stored: the query for the last
    serial, both renders, and the save under the unique index succeed. *)
Definition stored (env : SubmitEnv) (body : FormData) (st : State) : bool :=
  findOk env && pipelineOk env body
  && negb (serialTaken (Some (nextSerial (store st))) (store st)).

(** Every step of a submission other than the two uploads and the
    confirmation mail succeeds: the registration is stored and the
    endpoint can unlink both PDFs, which it can when their paths
    differ. *)
Definition stepsSucceed (env : SubmitEnv) (body : FormData) (st : State) : bool :=
  stored env body st && pathsDistinct env body.

(** The state a submission leaves whose two PDFs share a path: the
    registration is stored and queued, the path is unlinked once, and the
    second [unlink] rejects. *)
Definition collisionState (env : SubmitEnv) (body : FormData) (st : State) : State :=
  let serial := nextSerial (store st) in
  let cert := certificatePath env body in
  {| files := removeFile cert (addFile cert (files st));
     store := store st ++ [registrationOf body serial (certUpload env) (formUpload env)];
     fileQueue := fileQueue st ++
       [{| studentName := applicantName body;
           itemCertificateUrl := certUpload env;
           itemApplicationFormUrl := formUpload env |}];
     outbox := if mailOk env
               then outbox st ++ [StudentMail (email body) cert]
               else outbox st |}.

(** The state a successful submission leaves. *)
Definition successState (env : SubmitEnv) (body : FormData) (st : State) : State :=
  let serial := nextSerial (store st) in
  let cert := certificatePath env body in
  let form := applicationPath env body in
  {| files := removeFile form (removeFile cert (addFile form (addFile cert (files st))));
     store := store st ++ [registrationOf body serial (certUpload env) (formUpload env)];
     fileQueue := fileQueue st ++
       [{| studentName := applicantName body;
           itemCertificateUrl := certUpload env;
           itemApplicationFormUrl := formUpload env |}];
     outbox := if mailOk env
               then outbox st ++ [StudentMail (email body) form]
               else outbox st |}.

Fixpoint run (subs : list (SubmitEnv * FormData)) (st : State)
    : list Response * State :=
  match subs with
  | [] => ([], st)
  | (env, body) :: rest =>
      let (r, st1) := submitForm env body st in
      let (answers, st2) := run rest st1 in
      (answer r :: answers, st2)
  end.

(** The number the next serial stands for. *)
Definition nextValue (docs : list Registration) : Z :=
  match findLast docs with
  | Some r =>
      match serialOf r with
      | Some s => match parseInt s with Int n => n + 1 | NaN => 0 end
      | None => 0
      end
  | None => 819
  end.

(** The flush reaches [sgMail.send] and the transport accepts the mail. *)
Definition sendSucceeds (env : FlushEnv) : bool :=
  flushFindOk env && flushSendOk env.

(** The error of the first step of a submission that fails, in the order
    the endpoint runs them; [None] when every step succeeds. *)
Definition firstFailure (env : SubmitEnv) (body : FormData) (st : State)
    : option error :=
  if negb (findOk env) then Some DatabaseError
  else
    match pipelineFailure env body with
    | Some e => Some e
    | None =>
        if serialTaken (Some (nextSerial (store st))) (store st)
        then Some DuplicateKey
        else if negb (pathsDistinct env body) then Some ENOENT
        else None
    end.

(** The query and the pipeline succeed. *)
Definition servicesOk (env : SubmitEnv) (body : FormData) : bool :=
  findOk env && pipelineOk env body.

Definition servicesFailure (env : SubmitEnv) (body : FormData) : option error :=
  if negb (findOk env) then Some DatabaseError else pipelineFailure env body.

(** What [getNextSerialNumber] returns to the submissions of a run, in
    order. *)
Fixpoint issued (subs : list (SubmitEnv * FormData)) (st : State)
    : list (result string) :=
  match subs with
  | [] => []
  | (env, body) :: rest =>
      fst (getNextSerialNumber env st) :: issued rest (snd (submitForm env body st))
  end.

(** What it returns when the numbers of [ns] are allocated. *)
Fixpoint answersOfQuery (subs : list (SubmitEnv * FormData)) (ns : list Z)
    : list (result string) :=
  match subs, ns with
  | (env, _) :: rest, n :: ns' =>
      (if findOk env then Ok (serialString n) else Throw DatabaseError)
        :: answersOfQuery rest ns'
  | _, _ => []
  end.

(** The queue entry of each completed submission, in order. *)
Definition queueEntries (done : list (SubmitEnv * FormData)) : list QueueItem :=
  map (fun '(env, body) =>
         {| studentName := applicantName body;
            itemCertificateUrl := certUpload env;
            itemApplicationFormUrl := formUpload env |})
      done.

End StoreDerivedSpec.

(** * Fixtures *)

(** A selector parser that accepts the selector of the caste radio button
    when the value brings no quotation mark and no backslash with it. *)
Definition plainSelector (selector : string) : bool :=
  Nat.eqb (countChar "034"%char selector) 4
  && Nat.eqb (countChar "092"%char selector) 0.

Definition sampleBody : FormData :=
  {| serialNumber := None; admission_no := None; sdmis_ref_no := None;
     courseName := Some "cad cam"; department := Some "Design";
     duration := Some "4 weeks"; applicantName := Some "Asha  Rao";
     dob := Some "2003-01-15"; gender := Some "Ms.";
     fatherName := Some "Ravi Rao"; motherName := None; address := None;
     email := Some "asha@example.org"; mobile := None; aadhar := None;
     fromDate := Some "2024-05-07"; toDate := Some "2024-06-07";
     casteCategory := None; course_fees := None; education := None;
     photo := None |}.

(** The same form without the applicant's name. *)
Definition namelessBody : FormData :=
  {| serialNumber := None; admission_no := None; sdmis_ref_no := None;
     courseName := Some "cad cam"; department := Some "Design";
     duration := Some "4 weeks"; applicantName := None;
     dob := Some "2003-01-15"; gender := Some "Ms.";
     fatherName := Some "Ravi Rao"; motherName := None; address := None;
     email := Some "asha@example.org"; mobile := None; aadhar := None;
     fromDate := Some "2024-05-07"; toDate := Some "2024-06-07";
     casteCategory := None; course_fees := None; education := None;
     photo := None |}.

(** Every service answers, except Cloudinary for the certificate. *)
Definition sampleEnv : SubmitEnv :=
  {| findOk := true; certBrowserOk := true; certNow := 1700000000000;
     certPdfOk := true; certUpload := None;
     formBrowserOk := true; selectorOk := plainSelector;
     formNow := 1700000000900; formPdfOk := true;
     formUpload := Some "https://res.cloudinary.com/citd/application.pdf";
     saveOk := true; mailOk := true |}.

(** The render of the certificate fails. *)
Definition brokenEnv : SubmitEnv :=
  {| findOk := true; certBrowserOk := false; certNow := 1700000000000;
     certPdfOk := true; certUpload := None;
     formBrowserOk := true; selectorOk := plainSelector;
     formNow := 1700000000900; formPdfOk := true;
     formUpload := None; saveOk := true; mailOk := true |}.

Definition sendingEnv : FlushEnv :=
  {| flushFindOk := true; flushNow := 1700000100000; flushSendOk := true |}.

Definition refusingEnv : FlushEnv :=
  {| flushFindOk := true; flushNow := 1700000050000; flushSendOk := false |}.

(** Cloudinary is down for both uploads; everything else answers. *)
Definition offlineEnv : SubmitEnv :=
  {| findOk := true; certBrowserOk := true; certNow := 1700000000000;
     certPdfOk := true; certUpload := None;
     formBrowserOk := true; selectorOk := plainSelector;
     formNow := 1700000000900; formPdfOk := true;
     formUpload := None; saveOk := true; mailOk := true |}.

Definition freshFileBacked : FileBacked.State :=
  {| FileBacked.counterFile := None; FileBacked.files := [];
     FileBacked.store := []; FileBacked.fileQueue := [];
     FileBacked.outbox := [] |}.

(** The counter file holds text that is not a number. *)
Definition corruptFileBacked : FileBacked.State :=
  {| FileBacked.counterFile := Some "abc"; FileBacked.files := [];
     FileBacked.store := []; FileBacked.fileQueue := [];
     FileBacked.outbox := [] |}.

Definition freshStoreDerived : StoreDerived.State :=
  {| StoreDerived.files := []; StoreDerived.store := [];
     StoreDerived.fileQueue := []; StoreDerived.outbox := [] |}.

(** One PDF waits on disk for its upload. *)
Definition pendingUpload : FileBacked.State :=
  {| FileBacked.counterFile := Some "819";
     FileBacked.files := ["/usr/src/app/output/Certificate-Asha_Rao-1700000000000.pdf"];
     FileBacked.store := []; FileBacked.fileQueue := [];
     FileBacked.outbox := [] |}.

(** One registration waits in the queue of each revision. *)
Definition queuedFileBacked : FileBacked.State :=
  snd (FileBacked.submitForm offlineEnv sampleBody freshFileBacked).

Definition queuedStoreDerived : StoreDerived.State :=
  snd (StoreDerived.submitForm sampleEnv sampleBody freshStoreDerived).

(** A registration stamped with the last six-digit serial. *)
Definition lastSixDigits : Registration :=
  registrationOf sampleBody "999999" None None.

Definition fullStoreDerived : StoreDerived.State :=
  {| StoreDerived.files := []; StoreDerived.store := [lastSixDigits];
     StoreDerived.fileQueue := []; StoreDerived.outbox := [] |}.

(** MongoDB refuses the save; everything else answers. *)
Definition unsavedEnv : SubmitEnv :=
  {| findOk := true; certBrowserOk := true; certNow := 1700000000000;
     certPdfOk := true; certUpload := Some "https://res.cloudinary.com/citd/certificate.pdf";
     formBrowserOk := true; selectorOk := plainSelector;
     formNow := 1700000000900; formPdfOk := true;
     formUpload := Some "https://res.cloudinary.com/citd/application.pdf";
     saveOk := false; mailOk := true |}.

(** MongoDB is down for the flush. *)
Definition blindEnv : FlushEnv :=
  {| flushFindOk := false; flushNow := 1700000100000; flushSendOk := true |}.

(** The counter file was edited by hand: a space, the number, a newline. *)
Definition handEditedCounter : FileBacked.State :=
  {| FileBacked.counterFile := Some (" " ++ Z_toString 900 ++ String "010"%char "");
     FileBacked.files := []; FileBacked.store := [];
     FileBacked.fileQueue := []; FileBacked.outbox := [] |}.

(** The name of the applicant steps out of the folder it names, and both
    PDFs are named in the same millisecond: they get the same path. *)
Definition dottedBody : FormData :=
  {| serialNumber := None; admission_no := None; sdmis_ref_no := None;
     courseName := Some "cad cam"; department := Some "Design";
     duration := Some "4 weeks"; applicantName := Some "/../a";
     dob := Some "2003-01-15"; gender := Some "Ms.";
     fatherName := Some "Ravi Rao"; motherName := None; address := None;
     email := Some "asha@example.org"; mobile := None; aadhar := None;
     fromDate := Some "2024-05-07"; toDate := Some "2024-06-07";
     casteCategory := Some "OBC"; course_fees := None; education := None;
     photo := None |}.

Definition sameInstantEnv : SubmitEnv :=
  {| findOk := true; certBrowserOk := true; certNow := 1700000000000;
     certPdfOk := true; certUpload := None;
     formBrowserOk := true; selectorOk := plainSelector;
     formNow := 1700000000000; formPdfOk := true;
     formUpload := None; saveOk := true; mailOk := true |}.

(** The counter file holds 2^53. *)
Definition saturatedCounter : FileBacked.State :=
  {| FileBacked.counterFile := Some "9007199254740992"; FileBacked.files := [];
     FileBacked.store := []; FileBacked.fileQueue := [];
     FileBacked.outbox := [] |}.

(** The counter file was lost while the collection holds serial 000819. *)
Definition lostCounter : FileBacked.State :=
  {| FileBacked.counterFile := None; FileBacked.files := [];
     FileBacked.store := [registrationOf sampleBody "000819" None None];
     FileBacked.fileQueue := []; FileBacked.outbox := [] |}.

(** * Facts about the JavaScript primitives *)

Section NumberFormat.

Import DecimalString.

#[local] Arguments Z.mul : simpl never.
#[local] Arguments Z.add : simpl never.

Lemma parseDigits_uint (d : Decimal.uint) (acc : Z) :
  parseDigits (Some acc) (NilEmpty.string_of_uint d) = Some (uintValue acc d).
Proof.
  revert acc; induction d; intros acc; simpl; try reflexivity;
    rewrite IHd; f_equal; f_equal; lia.
Qed.

Lemma uintValue_acc (d : Decimal.uint) (acc : positive) :
  uintValue (Zpos acc) d = Zpos (Pos.of_uint_acc d acc).
Proof.
  revert acc; induction d; intros acc; cbn [uintValue Pos.of_uint_acc];
    try reflexivity; rewrite <- IHd; f_equal; lia.
Qed.

Lemma uintValue_zero (d : Decimal.uint) :
  uintValue 0 d = Z.of_N (Pos.of_uint d).
Proof.
  induction d; simpl; try reflexivity; try assumption;
    change 1 with (Zpos 1); change 2 with (Zpos 2); change 3 with (Zpos 3);
    change 4 with (Zpos 4); change 5 with (Zpos 5); change 6 with (Zpos 6);
    change 7 with (Zpos 7); change 8 with (Zpos 8); change 9 with (Zpos 9);
    apply uintValue_acc.
Qed.

(** Up to 2^53 in magnitude every integer is a double. *)
Lemma roundDouble_safe (z : Z) :
  Z.abs z <= 9007199254740992 -> roundDouble z = z.
Proof.
  intros H. unfold roundDouble.
  destruct (Z.leb_spec (Z.abs z) 9007199254740992); [reflexivity | lia].
Qed.

Lemma parseInt_startsWithDigit (s : string) :
  startsWithDigit s ->
  parseInt s
  = match parseDigits None s with Some z => Int (roundDouble z) | None => NaN end.
Proof.
  destruct s as [|c s]; [contradiction|].
  destruct c as [[|] [|] [|] [|] [|] [|] [|] [|]]; cbn [startsWithDigit digitValue];
    intros H; try (exfalso; apply H; reflexivity); reflexivity.
Qed.

Lemma parseDigits_restart (s : string) :
  startsWithDigit s -> parseDigits None s = parseDigits (Some 0) s.
Proof.
  destruct s as [|c s]; [contradiction|].
  cbn [startsWithDigit parseDigits]; intros H.
  destruct (digitValue c); [reflexivity | congruence].
Qed.

Lemma string_of_uint_startsWithDigit (d : Decimal.uint) :
  d <> Decimal.Nil -> startsWithDigit (NilEmpty.string_of_uint d).
Proof.
  destruct d; intros H; try congruence; simpl; discriminate.
Qed.

Lemma zeros_startsWithDigit (k : nat) (s : string) :
  startsWithDigit s -> startsWithDigit (zeros k ++ s).
Proof.
  destruct k; simpl; [trivial | discriminate].
Qed.

Lemma parseDigits_zeros (k : nat) (s : string) :
  parseDigits (Some 0) (zeros k ++ s) = parseDigits (Some 0) s.
Proof.
  induction k; simpl; [reflexivity | exact IHk].
Qed.

Lemma Z_toString_startsWithDigit (n : Z) :
  0 <= n -> startsWithDigit (Z_toString n).
Proof.
  intros Hn. destruct n as [|p|p]; [simpl; discriminate | | lia].
  apply string_of_uint_startsWithDigit, DecimalPos.Unsigned.to_uint_nonnil.
Qed.

Lemma parseDigits_Z_toString (n : Z) :
  0 <= n -> parseDigits (Some 0) (Z_toString n) = Some n.
Proof.
  intros Hn. destruct n as [|p|p]; [reflexivity | | lia].
  unfold Z_toString; cbn [Z.to_int NilEmpty.string_of_int].
  rewrite parseDigits_uint, uintValue_zero, DecimalPos.Unsigned.of_to.
  reflexivity.
Qed.

Lemma parseDigits_zeros_toString (k : nat) (n : Z) :
  0 <= n -> parseDigits (Some 0) (zeros k ++ Z_toString n) = Some n.
Proof.
  intros Hn. now rewrite parseDigits_zeros, parseDigits_Z_toString.
Qed.

(** Reading back a zero-padded non-negative number gives the double
    nearest to it, and the number itself up to 2^53. *)
Lemma parseInt_zeros_toString_round (k : nat) (n : Z) :
  0 <= n -> parseInt (zeros k ++ Z_toString n) = Int (roundDouble n).
Proof.
  intros Hn.
  pose proof (Z_toString_startsWithDigit n Hn) as Hd.
  rewrite parseInt_startsWithDigit by (apply zeros_startsWithDigit; exact Hd).
  rewrite parseDigits_restart by (apply zeros_startsWithDigit; exact Hd).
  now rewrite parseDigits_zeros_toString.
Qed.

Lemma parseInt_zeros_toString (k : nat) (n : Z) :
  0 <= n <= 9007199254740992 -> parseInt (zeros k ++ Z_toString n) = Int n.
Proof.
  intros Hn. rewrite parseInt_zeros_toString_round by lia.
  rewrite roundDouble_safe by lia. reflexivity.
Qed.

Lemma parseInt_padStart (n : Z) :
  0 <= n <= 9007199254740992 -> parseInt (padStart 6 (Z_toString n)) = Int n.
Proof. apply parseInt_zeros_toString. Qed.

Lemma parseInt_Z_toString (n : Z) :
  0 <= n <= 9007199254740992 -> parseInt (Z_toString n) = Int n.
Proof. apply (parseInt_zeros_toString 0). Qed.

Lemma padStart_inj (n m : Z) :
  0 <= n -> 0 <= m ->
  padStart 6 (Z_toString n) = padStart 6 (Z_toString m) -> n = m.
Proof.
  intros Hn Hm H.
  apply (f_equal (parseDigits (Some 0))) in H. unfold padStart in H.
  rewrite !parseDigits_zeros_toString in H by assumption.
  congruence.
Qed.

Lemma padStart_not_empty (n : num) : padStart 6 (toString n) <> "".
Proof.
  unfold padStart.
  destruct (toString n) as [|c s] eqn:E.
  - simpl. discriminate.
  - destruct (6 - String.length (String c s))%nat; simpl; discriminate.
Qed.

End NumberFormat.

(** * Facts about the document renderer *)

Section StringFacts.

Lemma length_append (s t : string) :
  String.length (s ++ t) = (String.length s + String.length t)%nat.
Proof. induction s; simpl; [reflexivity | now rewrite IHs]. Qed.

Lemma append_assoc (s t u : string) : (s ++ t) ++ u = s ++ (t ++ u).
Proof. induction s; simpl; [reflexivity | now rewrite IHs]. Qed.

Lemma append_inv_head (s t u : string) : s ++ t = s ++ u -> t = u.
Proof. induction s; simpl; intros H; [exact H | injection H; auto]. Qed.

Lemma split_not_nil (sep : ascii) (s : string) : split sep s <> [].
Proof.
  induction s as [|a s IH]; simpl; [discriminate|].
  destruct (Ascii.eqb a sep); [discriminate|].
  destruct (split sep s); [contradiction | discriminate].
Qed.

Lemma split_length (sep : ascii) (s : string) :
  List.length (split sep s) = S (countChar sep s).
Proof.
  induction s as [|a s IH]; simpl; [reflexivity|].
  destruct (Ascii.eqb a sep); simpl; [now rewrite IH|].
  pose proof (split_not_nil sep s) as Hne.
  destruct (split sep s); [contradiction | exact IH].
Qed.

Lemma split_no_separator (sep : ascii) (s : string) :
  countChar sep s = 0%nat -> split sep s = [s].
Proof.
  induction s as [|a s IH]; simpl; [reflexivity|].
  destruct (Ascii.eqb a sep); [discriminate|].
  intros H; rewrite (IH H); reflexivity.
Qed.

Lemma split_at_separator (sep : ascii) (s rest : string) :
  countChar sep s = 0%nat ->
  split sep (s ++ String sep rest) = s :: split sep rest.
Proof.
  induction s as [|a s IH]; simpl.
  - intros _. now rewrite Ascii.eqb_refl.
  - destruct (Ascii.eqb a sep); [discriminate|].
    intros H; rewrite (IH H); reflexivity.
Qed.

End StringFacts.

(** [formatDate] on a string with exactly two dashes swaps the outer
    parts. *)
Lemma formatDate_three_parts (y m d : string) :
  countChar "-" y = 0%nat -> countChar "-" m = 0%nat -> countChar "-" d = 0%nat ->
  formatDate (Some (y ++ "-" ++ m ++ "-" ++ d)) = d ++ "-" ++ m ++ "-" ++ y.
Proof.
  intros Hy Hm Hd. unfold formatDate.
  assert (Hs : split "-" (y ++ "-" ++ m ++ "-" ++ d) = [y; m; d]).
  { change (y ++ "-" ++ m ++ "-" ++ d) with (y ++ String "-" (m ++ String "-" d)).
    rewrite (split_at_separator _ _ _ Hy), (split_at_separator _ _ _ Hm).
    now rewrite (split_no_separator _ _ Hd). }
  destruct (y ++ "-" ++ m ++ "-" ++ d) as [|c s] eqn:E.
  - destruct y; discriminate.
  - rewrite Hs. reflexivity.
Qed.

Lemma formatDate_other (s : string) :
  countChar "-" s <> 2%nat -> formatDate (Some s) = s.
Proof.
  intros H. unfold formatDate.
  destruct s as [|c s]; [reflexivity|].
  pose proof (split_length "-" (String c s)) as Hl.
  destruct (split "-" (String c s)) as [|p1 [|p2 [|p3 [|p4 ps]]]]; try reflexivity.
  cbn [List.length] in Hl. lia.
Qed.

(** C5.  The certificate date reformatter maps a three-part
    year-month-day string to day-month-year (so "2024-05-07" becomes
    "07-05-2024"), and returns every string that does not consist of three
    dash-separated parts unchanged. *)
Theorem formatDate_spec :
  (forall y m d : string,
      countChar "-" y = 0%nat -> countChar "-" m = 0%nat -> countChar "-" d = 0%nat ->
      formatDate (Some (y ++ "-" ++ m ++ "-" ++ d)) = d ++ "-" ++ m ++ "-" ++ y)
  /\ (forall s : string, countChar "-" s <> 2%nat -> formatDate (Some s) = s)
  /\ formatDate (Some "2024-05-07") = "07-05-2024".
Proof.
  split; [exact formatDate_three_parts|].
  split; [exact formatDate_other | reflexivity].
Qed.

Lemma formatDate_spec_witness :
  (countChar "-" "2024" = 0%nat /\ countChar "-" "05" = 0%nat /\ countChar "-" "07" = 0%nat
   /\ formatDate (Some ("2024" ++ "-" ++ "05" ++ "-" ++ "07"))
      = "07" ++ "-" ++ "05" ++ "-" ++ "2024")
  /\ (countChar "-" "07/05/2024" <> 2%nat /\ formatDate (Some "07/05/2024") = "07/05/2024").
Proof.
  split.
  - split; [reflexivity|]. split; [reflexivity|]. split; [reflexivity|].
    apply (proj1 formatDate_spec); reflexivity.
  - split; [simpl; lia|].
    apply (proj1 (proj2 formatDate_spec)). simpl; lia.
Defined.

Lemma isStr_true (x : option string) (s : string) :
  isStr x s = true <-> x = Some s.
Proof.
  destruct x as [s'|]; simpl.
  - rewrite String.eqb_eq. split; congruence.
  - split; discriminate.
Qed.

Lemma isStr_false (x : option string) (s : string) :
  isStr x s = false <-> x <> Some s.
Proof.
  rewrite <- isStr_true. destruct (isStr x s); split; congruence.
Qed.

Lemma sonOf_not_daughterOf (n f n' f' : string) :
  sonOfText n f <> daughterOfText n' f'.
Proof. unfold sonOfText, daughterOfText; simpl; discriminate. Qed.

Lemma sonOf_not_combined (n f : string) : sonOfText n f <> combinedText n f.
Proof.
  unfold sonOfText, combinedText. intros H.
  apply (f_equal String.length) in H. simpl in H.
  repeat (rewrite !length_append in H; simpl in H). lia.
Qed.

Lemma daughterOf_not_combined (n f : string) : daughterOfText n f <> combinedText n f.
Proof.
  unfold daughterOfText, combinedText. intros H.
  apply (f_equal String.length) in H. simpl in H.
  repeat (rewrite !length_append in H; simpl in H). lia.
Qed.

Lemma mainText_cases (data : FormData) (name father : string) :
  applicantName data = Some name -> fatherName data = Some father ->
  mainText data =
    Ok (if isStr (gender data) "Mr." then sonOfText name father
        else if isStr (gender data) "Ms." then daughterOfText name father
        else combinedText name father).
Proof.
  intros Hn Hf. unfold mainText. rewrite Hn, Hf.
  destruct (isStr (gender data) "Mr."); [reflexivity|].
  destruct (isStr (gender data) "Ms."); reflexivity.
Qed.

(** C4.  The body text of the certificate is selected by the gender
    field: it is the son-of ("S/o") phrasing exactly when the field is
    "Mr.", the daughter-of ("D/o") phrasing exactly when it is "Ms.", and
    the combined "S/o / D/o" phrasing for every other value, an absent
    field included. *)
Theorem mainText_selected_by_gender (data : FormData) (name father : string) :
  applicantName data = Some name -> fatherName data = Some father ->
  exists text, mainText data = Ok text
    /\ (gender data = Some "Mr." <-> text = sonOfText name father)
    /\ (gender data = Some "Ms." <-> text = daughterOfText name father)
    /\ (gender data <> Some "Mr." /\ gender data <> Some "Ms."
        <-> text = combinedText name father).
Proof.
  intros Hn Hf. rewrite (mainText_cases data name father Hn Hf).
  eexists; split; [reflexivity|].
  pose proof (sonOf_not_daughterOf name father name father) as Hsd.
  pose proof (sonOf_not_combined name father) as Hsc.
  pose proof (daughterOf_not_combined name father) as Hdc.
  destruct (isStr (gender data) "Mr.") eqn:Emr;
    [apply isStr_true in Emr | apply isStr_false in Emr;
     destruct (isStr (gender data) "Ms.") eqn:Ems;
     [apply isStr_true in Ems | apply isStr_false in Ems]].
  - rewrite Emr. intuition congruence.
  - rewrite Ems. intuition congruence.
  - intuition congruence.
Qed.

(** * Facts about the local file system *)

Section FileSystem.

Lemma existsFile_addFile_same (p : string) (fs : list string) :
  existsFile p (addFile p fs) = true.
Proof.
  unfold addFile. destruct (existsFile p fs) eqn:E; [exact E|].
  unfold existsFile. rewrite existsb_app. simpl.
  rewrite String.eqb_refl. apply orb_true_iff; right; reflexivity.
Qed.

Lemma existsFile_addFile_other (p q : string) (fs : list string) :
  existsFile q fs = true -> existsFile q (addFile p fs) = true.
Proof.
  intros H. unfold addFile. destruct (existsFile p fs); [exact H|].
  unfold existsFile in *. rewrite existsb_app, H. reflexivity.
Qed.

Lemma existsFile_removeFile (p q : string) (fs : list string) :
  existsFile q (removeFile p fs) = existsFile q fs && negb (String.eqb p q).
Proof.
  unfold existsFile, removeFile.
  induction fs as [|f fs IH]; simpl; [reflexivity|].
  destruct (String.eqb_spec p f) as [->|Hpf]; simpl.
  - rewrite IH. destruct (String.eqb_spec q f) as [->|Hqf]; simpl.
    + rewrite String.eqb_refl; simpl. now rewrite andb_false_r.
    + reflexivity.
  - rewrite IH. destruct (String.eqb_spec q f) as [->|Hqf]; simpl; [|reflexivity].
    destruct (String.eqb_spec p f); [contradiction | reflexivity].
Qed.

Lemma existsFile_removeFile_same (p : string) (fs : list string) :
  existsFile p (removeFile p fs) = false.
Proof.
  rewrite existsFile_removeFile, String.eqb_refl. apply andb_false_r.
Qed.

Lemma removeFile_absent (p : string) (fs : list string) :
  existsFile p fs = false -> removeFile p fs = fs.
Proof.
  unfold existsFile, removeFile.
  induction fs as [|f fs IH]; simpl; [reflexivity|].
  intros H. apply orb_false_iff in H as [Hf Hfs].
  rewrite Hf. simpl. now rewrite IH.
Qed.

End FileSystem.

(** * Facts about paths *)

Section Paths.

Lemma append_nil_r (s : string) : s ++ "" = s.
Proof. induction s; simpl; [reflexivity | now rewrite IHs]. Qed.

Lemma lastChar_cons (c : ascii) (s : string) :
  s <> "" -> lastChar (String c s) = lastChar s.
Proof. destruct s; [contradiction | reflexivity]. Qed.

Lemma lastChar_append (s t : string) : t <> "" -> lastChar (s ++ t) = lastChar t.
Proof.
  intros Ht. induction s as [|c s IH]; [reflexivity|].
  cbn [append]. rewrite lastChar_cons; [exact IH|].
  destruct s; [exact Ht | discriminate].
Qed.

(** The segment after the last separator is the last part of [split]. *)
Lemma split_append_clean (sep : ascii) (q t : string) :
  countChar sep t = 0%nat ->
  split sep (q ++ String sep t) = (split sep q ++ [t])%list.
Proof.
  intros Ht. induction q as [|c q IH]; cbn [append split].
  - rewrite Ascii.eqb_refl, (split_no_separator _ _ Ht). reflexivity.
  - rewrite IH. destruct (Ascii.eqb c sep); [reflexivity|].
    pose proof (split_not_nil sep q) as Hne.
    destruct (split sep q); [contradiction | reflexivity].
Qed.

(** A string holds no separator, or it has a last one. *)
Lemma last_separator (sep : ascii) (f : string) :
  countChar sep f = 0%nat
  \/ exists q t, f = q ++ String sep t /\ countChar sep t = 0%nat.
Proof.
  induction f as [|c f IH]; [left; reflexivity|].
  destruct IH as [IH|[q [t [-> Ht]]]].
  - cbn [countChar]. destruct (Ascii.eqb_spec c sep) as [->|Hc].
    + right. exists "", f. split; [reflexivity | exact IH].
    + left. exact IH.
  - right. exists (String c q), t. split; [reflexivity | exact Ht].
Qed.

(** The parts of a path that ends in a segment, after the directory. *)
Lemma split_last_segment (dir f : string) :
  f <> "" -> lastChar f <> "/"%char ->
  exists segments t,
    split "/" (dir ++ String "/" f) = (segments ++ [t])%list
    /\ t <> "" /\ lastChar t = lastChar f.
Proof.
  intros Hf Hl. destruct (last_separator "/" f) as [H|[q [t [-> Ht]]]].
  - exists (split "/" dir), f. split; [now apply split_append_clean|]. now split.
  - assert (Hne : t <> "").
    { intros ->. apply Hl. now rewrite lastChar_append by discriminate. }
    exists (split "/" (dir ++ String "/" q)), t. split.
    + rewrite <- (split_append_clean _ _ _ Ht).
      change (String "/" (q ++ String "/" t)) with ("/" ++ (q ++ String "/" t)).
      change (String "/" q) with ("/" ++ q).
      now rewrite <- !append_assoc.
    + split; [exact Hne|].
      rewrite lastChar_append by discriminate. now rewrite lastChar_cons.
Qed.

(** A segment that ends in neither a dot nor a separator is kept. *)
Lemma normalizeSegments_snoc (kept segments : list string) (t : string) :
  t <> "" -> lastChar t <> "."%char ->
  exists kept',
    normalizeSegments kept (segments ++ [t]) = (kept' ++ [t])%list.
Proof.
  intros Hne Hl. revert kept.
  induction segments as [|seg segments IH]; intros kept.
  - cbn [List.app normalizeSegments].
    destruct (String.eqb_spec t "") as [->|_]; [contradiction|].
    destruct (String.eqb_spec t ".") as [->|_]; [exfalso; now apply Hl|].
    destruct (String.eqb_spec t "..") as [->|_]; [exfalso; now apply Hl|].
    cbn [orb rev]. now exists (rev kept).
  - cbn [List.app normalizeSegments].
    destruct (String.eqb seg "" || String.eqb seg "."); [apply IH|].
    destruct (String.eqb seg ".."); apply IH.
Qed.

Lemma join_snoc (sep : ascii) (parts : list string) (t : string) :
  t <> "" ->
  join sep (parts ++ [t]) <> "" /\ lastChar (join sep (parts ++ [t])) = lastChar t.
Proof.
  intros Hne. induction parts as [|part parts [IHne IHl]]; [now split|].
  assert (Hj : join sep ((part :: parts) ++ [t])
               = part ++ String sep (join sep (parts ++ [t]))).
  { cbn [List.app join]. destruct (parts ++ [t])%list eqn:E; [|reflexivity].
    now destruct parts. }
  rewrite Hj. split.
  - destruct part; discriminate.
  - rewrite lastChar_append by discriminate.
    now rewrite lastChar_cons.
Qed.

(** The last character of a file name survives [path.join], when it is
    neither a dot nor a separator. *)
Lemma joinOutput_lastChar (f : string) :
  f <> "" -> lastChar f <> "/"%char -> lastChar f <> "."%char ->
  lastChar (joinOutput f) = lastChar f.
Proof.
  intros Hf Hs Hd. unfold joinOutput.
  destruct f as [|c f']; [contradiction|]. set (f := String c f') in *.
  change (outputDir ++ "/" ++ f) with (outputDir ++ String "/" f).
  destruct (split_last_segment outputDir f Hf Hs) as [segments [t [Hsplit [Hne Hl]]]].
  unfold normalize. rewrite Hsplit.
  destruct (normalizeSegments_snoc [] segments t Hne) as [kept' ->];
    [now rewrite Hl|].
  destruct (join_snoc "/" kept' t Hne) as [Hj Hjl].
  destruct (join "/" (kept' ++ [t])) as [|k kept] eqn:Ej; [contradiction|].
  assert (Hp : lastChar (outputDir ++ String "/" f) = lastChar f)
    by (rewrite lastChar_append by discriminate; now apply lastChar_cons).
  rewrite Hp. destruct (Ascii.eqb_spec (lastChar f) "/") as [E|_]; [contradiction|].
  rewrite append_nil_r, lastChar_append by discriminate.
  now rewrite Hjl, Hl.
Qed.

Lemma lastChar_not_separator (sep : ascii) (s : string) :
  countChar sep s = 0%nat -> s <> "" -> lastChar s <> sep.
Proof.
  induction s as [|c s IH]; [contradiction|]. cbn [countChar].
  destruct (Ascii.eqb_spec c sep) as [|Hc]; [discriminate|]. intros H _.
  destruct s as [|d s]; [exact Hc|].
  rewrite lastChar_cons by discriminate. apply IH; [exact H | discriminate].
Qed.

(** A file name without a separator is appended to the directory as it
    is. *)
Lemma joinOutput_plain (f : string) :
  countChar "/" f = 0%nat -> f <> "" -> f <> "." -> f <> ".." ->
  joinOutput f = outputDir ++ "/" ++ f.
Proof.
  intros Hc Hf Hd Hdd. unfold joinOutput.
  destruct f as [|c f']; [contradiction|]. remember (String c f') as f eqn:Ef.
  clear c f' Ef.
  change (outputDir ++ "/" ++ f) with (outputDir ++ String "/" f).
  unfold normalize. rewrite (split_append_clean _ _ _ Hc).
  assert (Hp : lastChar (outputDir ++ String "/" f) <> "/"%char).
  { rewrite lastChar_append by discriminate. rewrite lastChar_cons by exact Hf.
    now apply lastChar_not_separator. }
  destruct (Ascii.eqb_spec (lastChar (outputDir ++ String "/" f)) "/") as [E|_];
    [contradiction|].
  change (split "/" outputDir) with [""; "usr"; "src"; "app"; "output"].
  cbn [List.app normalizeSegments].
  change (String.eqb "" "" || String.eqb "" ".") with true.
  change (String.eqb "usr" "" || String.eqb "usr" ".") with false.
  change (String.eqb "usr" "..") with false.
  change (String.eqb "src" "" || String.eqb "src" ".") with false.
  change (String.eqb "src" "..") with false.
  change (String.eqb "app" "" || String.eqb "app" ".") with false.
  change (String.eqb "app" "..") with false.
  change (String.eqb "output" "" || String.eqb "output" ".") with false.
  change (String.eqb "output" "..") with false.
  cbv iota.
  destruct (String.eqb_spec f "") as [E|_]; [contradiction|].
  destruct (String.eqb_spec f ".") as [E|_]; [contradiction|].
  destruct (String.eqb_spec f "..") as [E|_]; [contradiction|].
  cbn [orb rev List.app join append].
  now rewrite append_nil_r.
Qed.

Lemma countChar_append (c : ascii) (s t : string) :
  countChar c (s ++ t) = (countChar c s + countChar c t)%nat.
Proof. induction s as [|a s IH]; cbn; [reflexivity | rewrite IH; lia]. Qed.

Lemma countChar_uint (d : Decimal.uint) :
  countChar "/" (DecimalString.NilEmpty.string_of_uint d) = 0%nat.
Proof. induction d; cbn; [reflexivity | assumption ..]. Qed.

Lemma countChar_Z_toString (z : Z) : countChar "/" (Z_toString z) = 0%nat.
Proof.
  unfold Z_toString. destruct z; cbn; try apply countChar_uint; reflexivity.
Qed.

Lemma countChar_replaceWhiteSpaceRuns (inRun : bool) (s : string) :
  countChar "/" s = 0%nat -> countChar "/" (replaceWhiteSpaceRuns inRun s) = 0%nat.
Proof.
  revert inRun. induction s as [|c s IH]; intros inRun; [reflexivity|].
  cbn [countChar replaceWhiteSpaceRuns].
  destruct (Ascii.eqb c "/") eqn:Ec; [discriminate|]. intros H.
  destruct (isWhiteSpace c).
  - destruct inRun; [now apply IH|]. cbn [countChar]. now apply IH.
  - cbn [countChar]. rewrite Ec. now apply IH.
Qed.

(** The path of a PDF whose name part holds no separator. *)
Lemma joinOutput_pdfFileName (kind name : string) (now : Z) :
  countChar "/" kind = 0%nat -> kind <> "" -> lastChar kind <> "."%char ->
  countChar "/" name = 0%nat ->
  joinOutput (pdfFileName kind name now)
  = outputDir ++ "/" ++ pdfFileName kind name now.
Proof.
  intros Hk Hne Hl Hn.
  assert (Hlen : forall s t : string, String.length (s ++ t)
                   = (String.length s + String.length t)%nat)
    by (intros s t; induction s; cbn; [reflexivity | now f_equal]).
  apply joinOutput_plain.
  - unfold pdfFileName. rewrite !countChar_append, Hk, Hn, countChar_Z_toString.
    reflexivity.
  - unfold pdfFileName. destruct kind; [contradiction | discriminate].
  - unfold pdfFileName. intros E. apply (f_equal String.length) in E.
    rewrite !Hlen in E. cbn in E. destruct kind; [contradiction|]. cbn in E. lia.
  - unfold pdfFileName. intros E. apply (f_equal String.length) in E.
    rewrite !Hlen in E. cbn in E. destruct kind; [contradiction|]. cbn in E. lia.
Qed.

(** The path of a PDF ends in its extension. *)
Lemma lastChar_pdfPath (kind name : string) (now : Z) :
  lastChar (joinOutput (pdfFileName kind name now)) = "f"%char.
Proof.
  assert (Hl : lastChar (pdfFileName kind name now) = "f"%char).
  { unfold pdfFileName. rewrite <- !append_assoc. now rewrite lastChar_append. }
  rewrite joinOutput_lastChar; rewrite ?Hl; try discriminate; [reflexivity|].
  intros E. rewrite E in Hl. discriminate.
Qed.

Lemma lastChar_reportPath (now : Z) : lastChar (reportPath now) = "x"%char.
Proof.
  assert (Hl : lastChar ("report-" ++ Z_toString now ++ ".xlsx") = "x"%char).
  { rewrite <- !append_assoc. now rewrite lastChar_append. }
  unfold reportPath. rewrite joinOutput_lastChar; rewrite ?Hl; try discriminate.
  reflexivity.
Qed.

(** Neither PDF of a submission is the spreadsheet report, whatever the
    name of the applicant. *)
Lemma certificate_path_not_report (n : string) (t t' : Z) :
  joinOutput (pdfFileName "Certificate" n t) <> reportPath t'.
Proof.
  intros E. apply (f_equal lastChar) in E.
  rewrite lastChar_pdfPath, lastChar_reportPath in E. discriminate.
Qed.

Lemma application_path_not_report (n : string) (t t' : Z) :
  joinOutput (pdfFileName "Application" n t) <> reportPath t'.
Proof.
  intros E. apply (f_equal lastChar) in E.
  rewrite lastChar_pdfPath, lastChar_reportPath in E. discriminate.
Qed.

(** When the name of the applicant holds no separator the two PDFs of a
    submission have different paths. *)
Lemma plain_name_paths_distinct (env : SubmitEnv) (body : FormData) :
  countChar "/" (orEmpty (applicantName body)) = 0%nat ->
  pathsDistinct env body = true.
Proof.
  intros Hn. unfold pathsDistinct, certificatePath, applicationPath.
  apply negb_true_iff, String.eqb_neq.
  rewrite !joinOutput_pdfFileName;
    try (apply countChar_replaceWhiteSpaceRuns; exact Hn);
    try reflexivity; try discriminate.
Qed.

End Paths.


(** The fields of the application form are filled unless the browser
    rejects the selector of the caste radio button. *)
Lemma applicationFormFields_cases (env : SubmitEnv) (data : FormData) :
  if formFieldsOk env data
  then exists fields, applicationFormFields (selectorOk env) data = Ok fields
  else applicationFormFields (selectorOk env) data = Throw SyntaxError.
Proof.
  unfold formFieldsOk, applicationFormFields, casteField.
  destruct (casteCategory data) as [[|c s]|]; try (eexists; reflexivity).
  destruct (selectorOk env _); [eexists|]; reflexivity.
Qed.

(** * Facts about the store-derived revision *)

Module StoreDerivedFacts.

Import StoreDerived StoreDerivedSpec.

Lemma sd_getNextSerialNumber_eq (env : SubmitEnv) (st : State) :
  getNextSerialNumber env st =
    if findOk env then (Ok (nextSerial (store st)), st)
    else (Throw DatabaseError, st).
Proof.
  unfold getNextSerialNumber, bind, guard, get, ret, throw, nextSerial.
  destruct (findOk env); reflexivity.
Qed.

Lemma sd_uploadToCloudinary_eq (cloud : option string) (p : string)
    (n : option string) (st : State) :
  uploadToCloudinary cloud p n st = (Ok cloud, st).
Proof. destruct cloud; reflexivity. Qed.

Lemma sd_generateCertificate_eq (env : SubmitEnv) (data : FormData) (st : State) :
  generateCertificate env data st =
    if certBrowserOk env then
      match certificateFields data with
      | Throw e => (Throw e, st)
      | Ok _ =>
          match sanitizedName data with
          | Throw e => (Throw e, st)
          | Ok name =>
              let pdfPath := joinOutput (pdfFileName "Certificate" name (certNow env)) in
              if certPdfOk env
              then (Ok {| doc_path := pdfPath; doc_url := certUpload env |},
                    setFiles (addFile pdfPath (files st)) st)
              else (Throw BrowserError, st)
          end
      end
    else (Throw BrowserError, st).
Proof.
  unfold generateCertificate, bind, guard, lift, ret, throw, writeFile, modify.
  destruct (certBrowserOk env); [|reflexivity].
  destruct (certificateFields data); [|reflexivity].
  destruct (sanitizedName data); [|reflexivity].
  destruct (certPdfOk env); [|reflexivity].
  cbv beta iota zeta. rewrite sd_uploadToCloudinary_eq. reflexivity.
Qed.

Lemma sd_generateApplicationFormPdf_eq (env : SubmitEnv) (data : FormData) (st : State) :
  generateApplicationFormPdf env data st =
    if formBrowserOk env then
      if formFieldsOk env data then
        match sanitizedName data with
        | Throw e => (Throw e, st)
        | Ok name =>
            let pdfPath := joinOutput (pdfFileName "Application" name (formNow env)) in
            if formPdfOk env
            then (Ok {| doc_path := pdfPath; doc_url := formUpload env |},
                  setFiles (addFile pdfPath (files st)) st)
            else (Throw BrowserError, st)
        end
      else (Throw SyntaxError, st)
    else (Throw BrowserError, st).
Proof.
  unfold generateApplicationFormPdf, bind, guard, lift, ret, throw, writeFile, modify.
  destruct (formBrowserOk env); [|reflexivity].
  pose proof (applicationFormFields_cases env data) as Hfields.
  destruct (formFieldsOk env data); [destruct Hfields as [fields ->] | now rewrite Hfields].
  destruct (sanitizedName data); [|reflexivity].
  destruct (formPdfOk env); [|reflexivity].
  cbv beta iota zeta. rewrite sd_uploadToCloudinary_eq. reflexivity.
Qed.

Lemma sd_save_eq (env : SubmitEnv) (doc : Registration) (st : State) :
  save env doc st =
    if saveOk env then
      if serialTaken (serialOf doc) (store st) then (Throw DuplicateKey, st)
      else (Ok tt, setStore (store st ++ [doc]) st)
    else (Throw DatabaseError, st).
Proof.
  unfold save, bind, guard, get, ret, throw, modify.
  destruct (saveOk env); [|reflexivity].
  destruct (serialTaken (serialOf doc) (store st)); reflexivity.
Qed.

(** The confirmation mail never throws and touches the outbox only. *)
Lemma sd_sendStudentEmail_eq (env : SubmitEnv) (data : FormData) (p : string) (st : State) :
  sendStudentEmail env data p st =
    (Ok tt,
     setOutbox
       (if existsFile p (files st) && mailOk env
        then outbox st ++ [StudentMail (email data) p]
        else outbox st)%list
       st).
Proof.
  unfold sendStudentEmail, try_catch, readFile, sgSend, bind, guard, get, ret,
    throw, modify.
  destruct st as [fs docs q ob]; cbn [files outbox setOutbox store fileQueue].
  destruct (existsFile p fs); [|reflexivity].
  destruct (mailOk env); reflexivity.
Qed.


End StoreDerivedFacts.

(** * The endpoint as a whole *)

Lemma certificateFields_renderable (data : FormData) :
  renderable data = true -> exists fields, certificateFields data = Ok fields.
Proof.
  unfold renderable, certificateFields, mainText, upperField.
  destruct (applicantName data), (fatherName data), (courseName data);
    try discriminate; intros _.
  destruct (isStr (gender data) "Mr."); [eexists; reflexivity|].
  destruct (isStr (gender data) "Ms."); eexists; reflexivity.
Qed.

Lemma certificateFields_not_renderable (data : FormData) :
  renderable data = false -> certificateFields data = Throw TypeError.
Proof.
  unfold renderable, certificateFields, mainText, upperField.
  destruct (applicantName data), (fatherName data), (courseName data);
    try discriminate; intros _;
    destruct (isStr (gender data) "Mr."); try reflexivity;
    destruct (isStr (gender data) "Ms."); reflexivity.
Qed.

Lemma sanitizedName_renderable (data : FormData) :
  renderable data = true ->
  sanitizedName data = Ok (replaceWhiteSpace (orEmpty (applicantName data))).
Proof.
  unfold renderable, sanitizedName.
  destruct (applicantName data); [reflexivity | discriminate].
Qed.

Lemma renderable_withSerialNumber (body : FormData) (serial : string) :
  renderable (withSerialNumber body serial) = renderable body.
Proof. reflexivity. Qed.

Lemma formFieldsOk_withSerialNumber (env : SubmitEnv) (body : FormData)
    (serial : string) :
  formFieldsOk env (withSerialNumber body serial) = formFieldsOk env body.
Proof. reflexivity. Qed.

Lemma pipelineFailure_none (env : SubmitEnv) (body : FormData) :
  pipelineFailure env body = None <-> pipelineOk env body = true.
Proof.
  unfold pipelineFailure, pipelineOk.
  destruct (certBrowserOk env), (renderable body), (certPdfOk env),
    (formBrowserOk env), (formFieldsOk env body), (formPdfOk env), (saveOk env);
    cbn; split; congruence.
Qed.

Lemma addFile_present (p : string) (fs : list string) :
  existsFile p fs = true -> addFile p fs = fs.
Proof. intros H. unfold addFile. now rewrite H. Qed.

Module StoreDerivedEndpoint.

Import StoreDerived StoreDerivedSpec StoreDerivedFacts.

Ltac norm :=
  unfold setFileQueue, setOutbox, setStore, setFiles;
  cbv beta iota zeta; cbn [store files fileQueue outbox fst snd].

Ltac failed :=
  first [ discriminate
        | split; [eexists; reflexivity | repeat split; reflexivity] ].

(** Once the registration is stored the endpoint answers 200, unless the
    two PDFs share a path: then the second [unlink] rejects. *)
Lemma sd_submitForm_stored (env : SubmitEnv) (body : FormData) (st : State) :
  stored env body st = true ->
  submitForm env body st
  = if pathsDistinct env body
    then (Ok Status200, successState env body st)
    else (Ok (Status500 ENOENT), collisionState env body st).
Proof.
  unfold stored, pipelineOk. intros H.
  rewrite !andb_true_iff in H.
  destruct H as [[Hfind [[[[[[Hcb Hr] Hcp] Hfb] Hff] Hfp] Hs]] Ht].
  unfold submitForm, try_catch, bind.
  rewrite sd_getNextSerialNumber_eq, Hfind. cbv beta iota zeta.
  rewrite sd_generateCertificate_eq, Hcb.
  destruct (certificateFields_renderable (withSerialNumber body (nextSerial (store st))))
    as [fields ->]; [assumption|].
  rewrite sanitizedName_renderable by assumption.
  rewrite Hcp. cbv beta iota zeta.
  rewrite sd_generateApplicationFormPdf_eq, Hfb, formFieldsOk_withSerialNumber, Hff.
  rewrite sanitizedName_renderable by assumption.
  rewrite Hfp. cbv beta iota zeta. rewrite sd_save_eq, Hs.
  cbn [applicantName withSerialNumber].
  unfold pathsDistinct, successState, collisionState.
  fold (certificatePath env body). fold (applicationPath env body).
  set (cert := certificatePath env body). set (form := applicationPath env body).
  cbv zeta.
  destruct st as [fs docs q ob].
  unfold registrationOf.
  cbn [store setFiles files doc_url doc_path serialOf reg_data withSerialNumber serialNumber] in *.
  apply negb_true_iff in Ht. rewrite Ht.
  cbv beta iota zeta. rewrite sd_sendStudentEmail_eq. cbv beta iota zeta.
  unfold modify, unlink. norm.
  assert (Hcert : existsFile cert (addFile form (addFile cert fs)) = true)
    by (apply existsFile_addFile_other, existsFile_addFile_same).
  rewrite Hcert. norm.
  rewrite existsFile_removeFile, !existsFile_addFile_same. cbn [andb].
  destruct (String.eqb_spec cert form) as [E|_]; cbn [negb]; unfold ret; norm.
  - rewrite <- E. rewrite (addFile_present cert (addFile cert fs))
      by apply existsFile_addFile_same.
    reflexivity.
  - reflexivity.
Qed.

Lemma sd_submitForm_success (env : SubmitEnv) (body : FormData) (st : State) :
  stepsSucceed env body st = true ->
  submitForm env body st = (Ok Status200, successState env body st).
Proof.
  unfold stepsSucceed. intros H. apply andb_true_iff in H as [Hs Hd].
  now rewrite (sd_submitForm_stored env body st Hs), Hd.
Qed.

(** A submission whose two PDFs share a path is stored and queued, and
    answered 500. *)
Lemma sd_submitForm_collision (env : SubmitEnv) (body : FormData) (st : State) :
  stored env body st = true -> pathsDistinct env body = false ->
  submitForm env body st = (Ok (Status500 ENOENT), collisionState env body st).
Proof.
  intros Hs Hd. now rewrite (sd_submitForm_stored env body st Hs), Hd.
Qed.

(** A submission that is not stored leaves the collection, the queue and
    the outbox as they were. *)
Lemma sd_submitForm_failure (env : SubmitEnv) (body : FormData) (st : State) :
  stored env body st = false ->
  (exists e, fst (submitForm env body st) = Ok (Status500 e))
  /\ store (snd (submitForm env body st)) = store st
  /\ fileQueue (snd (submitForm env body st)) = fileQueue st
  /\ outbox (snd (submitForm env body st)) = outbox st.
Proof.
  unfold stored, pipelineOk. intros H.
  unfold submitForm, try_catch, bind.
  rewrite sd_getNextSerialNumber_eq.
  destruct (findOk env); [|failed]. cbv beta iota zeta.
  rewrite sd_generateCertificate_eq.
  destruct (certBrowserOk env); [|failed].
  destruct (renderable body) eqn:Er.
  2:{ rewrite certificateFields_not_renderable by assumption. failed. }
  destruct (certificateFields_renderable (withSerialNumber body (nextSerial (store st))))
    as [fields ->]; [assumption|].
  rewrite sanitizedName_renderable by assumption.
  destruct (certPdfOk env); [|failed]. cbv beta iota zeta.
  rewrite sd_generateApplicationFormPdf_eq, formFieldsOk_withSerialNumber.
  destruct (formBrowserOk env); [|failed].
  destruct (formFieldsOk env body); [|failed].
  rewrite sanitizedName_renderable by assumption.
  destruct (formPdfOk env); [|failed]. cbv beta iota zeta.
  rewrite sd_save_eq.
  destruct (saveOk env); [|failed].
  destruct st as [fs docs q ob].
  cbn [store setFiles files doc_url doc_path serialOf reg_data withSerialNumber serialNumber] in *.
  destruct (serialTaken _ _); [failed | discriminate].
Qed.

(** Where a distinction between the paths is at hand, a submission that
    does not succeed is one that is not stored. *)
Lemma sd_not_stored (env : SubmitEnv) (body : FormData) (st : State) :
  stepsSucceed env body st = false -> pathsDistinct env body = true ->
  stored env body st = false.
Proof.
  unfold stepsSucceed. intros H Hd. rewrite Hd, andb_true_r in H. exact H.
Qed.


Lemma sd_taken_not_stored (env : SubmitEnv) (body : FormData) (st : State) :
  serialTaken (Some (nextSerial (store st))) (store st) = true ->
  stored env body st = false.
Proof. intros H. unfold stored. rewrite H. apply andb_false_r. Qed.

Lemma sd_firstFailure_none (env : SubmitEnv) (body : FormData) (st : State) :
  firstFailure env body st = None <-> stepsSucceed env body st = true.
Proof.
  unfold firstFailure, stepsSucceed, stored.
  pose proof (pipelineFailure_none env body) as Hp.
  destruct (findOk env); cbn [negb andb]; [|split; discriminate].
  destruct (pipelineFailure env body) as [e|].
  - destruct (pipelineOk env body); [|split; discriminate].
    destruct Hp as [_ Hp]. specialize (Hp eq_refl). discriminate.
  - rewrite (proj1 Hp eq_refl). cbn [andb].
    destruct (serialTaken _ _); cbn [negb andb]; [split; discriminate|].
    destruct (pathsDistinct env body); cbn; split; congruence.
Qed.

(** The answer is that of the first step that fails. *)
Lemma sd_submitForm_answer (env : SubmitEnv) (body : FormData) (st : State) :
  fst (submitForm env body st) = Ok (answerOf (firstFailure env body st)).
Proof.
  destruct (stored env body st) eqn:Es.
  - rewrite (sd_submitForm_stored env body st Es).
    revert Es. unfold stored, firstFailure. rewrite !andb_true_iff.
    intros [[-> Hp] Ht]. apply pipelineFailure_none in Hp. rewrite Hp.
    apply negb_true_iff in Ht. rewrite Ht. cbn [negb].
    now destruct (pathsDistinct env body).
  - revert Es. unfold stored, pipelineOk, firstFailure, pipelineFailure. intros H.
    unfold submitForm, try_catch, bind.
    rewrite sd_getNextSerialNumber_eq.
    destruct (findOk env); [|reflexivity]. cbv beta iota zeta.
    rewrite sd_generateCertificate_eq.
    destruct (certBrowserOk env); [|reflexivity].
    destruct (renderable body) eqn:Er.
    2:{ rewrite certificateFields_not_renderable by assumption. reflexivity. }
    destruct (certificateFields_renderable (withSerialNumber body (nextSerial (store st))))
      as [fields ->]; [assumption|].
    rewrite sanitizedName_renderable by assumption.
    destruct (certPdfOk env); [|reflexivity]. cbv beta iota zeta.
    rewrite sd_generateApplicationFormPdf_eq, formFieldsOk_withSerialNumber.
    destruct (formBrowserOk env); [|reflexivity].
    destruct (formFieldsOk env body); [|reflexivity].
    rewrite sanitizedName_renderable by assumption.
    destruct (formPdfOk env); [|reflexivity]. cbv beta iota zeta.
    rewrite sd_save_eq.
    destruct (saveOk env); [|reflexivity].
    destruct st as [fs docs q ob].
    cbn [store setFiles files doc_url doc_path serialOf reg_data withSerialNumber
         serialNumber negb] in *.
    destruct (serialTaken _ _); [reflexivity | discriminate].
Qed.

(** A submission some step of which fails is answered 500. *)
Lemma sd_submitForm_rejected (env : SubmitEnv) (body : FormData) (st : State) :
  stepsSucceed env body st = false ->
  exists e, fst (submitForm env body st) = Ok (Status500 e).
Proof.
  intros H. rewrite sd_submitForm_answer.
  destruct (firstFailure env body st) as [e|] eqn:E; [now exists e|].
  apply sd_firstFailure_none in E. congruence.
Qed.

End StoreDerivedEndpoint.

(** * Facts about the file-backed revision *)

Module FileBackedFacts.

Import FileBacked FileBackedSpec.

Lemma fb_getNextSerialNumber_eq (st : State) :
  getNextSerialNumber st =
    (Ok (nextSerial (counterFile st)),
     setCounterFile (Some (toString (nextNumber (counterFile st)))) st).
Proof.
  unfold getNextSerialNumber, try_catch, bind, readCounterFile, writeCounterFile,
    modify, ret, nextSerial, nextNumber.
  destruct (counterFile st); reflexivity.
Qed.

Lemma fb_uploadToCloudinary_eq (cloud : option string) (p : string)
    (n : option string) (st : State) :
  uploadToCloudinary cloud p n st =
    match cloud with
    | Some secure_url =>
        if existsFile p (files st)
        then (Ok (Some secure_url), setFiles (removeFile p (files st)) st)
        else (Ok None, st)
    | None => (Ok None, st)
    end.
Proof.
  unfold uploadToCloudinary, try_catch, bind, cloudinaryUpload, unlink, ret, throw.
  destruct cloud; [|reflexivity].
  destruct (existsFile p (files st)); reflexivity.
Qed.

Lemma fb_generateCertificate_eq (env : SubmitEnv) (data : FormData) (st : State) :
  generateCertificate env data st =
    if certBrowserOk env then
      match certificateFields data with
      | Throw e => (Throw e, st)
      | Ok _ =>
          match sanitizedName data with
          | Throw e => (Throw e, st)
          | Ok name =>
              let pdfPath := joinOutput (pdfFileName "Certificate" name (certNow env)) in
              if certPdfOk env
              then (Ok {| doc_path := pdfPath; doc_url := certUpload env |},
                    setFiles (afterRender (certUpload env) pdfPath (files st)) st)
              else (Throw BrowserError, st)
          end
      end
    else (Throw BrowserError, st).
Proof.
  unfold generateCertificate, bind, guard, lift, ret, throw, writeFile, modify.
  destruct (certBrowserOk env); [|reflexivity].
  destruct (certificateFields data); [|reflexivity].
  destruct (sanitizedName data); [|reflexivity].
  destruct (certPdfOk env); [|reflexivity].
  cbv beta iota zeta. rewrite fb_uploadToCloudinary_eq.
  destruct st as [c fs docs q ob]. unfold afterRender, setFiles.
  cbn [files counterFile store fileQueue outbox].
  destruct (certUpload env); [|reflexivity].
  rewrite existsFile_addFile_same. reflexivity.
Qed.

Lemma fb_generateApplicationFormPdf_eq (env : SubmitEnv) (data : FormData) (st : State) :
  generateApplicationFormPdf env data st =
    if formBrowserOk env then
      if formFieldsOk env data then
        match sanitizedName data with
        | Throw e => (Throw e, st)
        | Ok name =>
            let pdfPath := joinOutput (pdfFileName "Application" name (formNow env)) in
            if formPdfOk env
            then (Ok {| doc_path := pdfPath; doc_url := formUpload env |},
                  setFiles (afterRender (formUpload env) pdfPath (files st)) st)
            else (Throw BrowserError, st)
        end
      else (Throw SyntaxError, st)
    else (Throw BrowserError, st).
Proof.
  unfold generateApplicationFormPdf, bind, guard, lift, ret, throw, writeFile, modify.
  destruct (formBrowserOk env); [|reflexivity].
  pose proof (applicationFormFields_cases env data) as Hfields.
  destruct (formFieldsOk env data); [destruct Hfields as [fields ->] | now rewrite Hfields].
  destruct (sanitizedName data); [|reflexivity].
  destruct (formPdfOk env); [|reflexivity].
  cbv beta iota zeta. rewrite fb_uploadToCloudinary_eq.
  destruct st as [c fs docs q ob]. unfold afterRender, setFiles.
  cbn [files counterFile store fileQueue outbox].
  destruct (formUpload env); [|reflexivity].
  rewrite existsFile_addFile_same. reflexivity.
Qed.

Lemma fb_save_eq (env : SubmitEnv) (doc : Registration) (st : State) :
  save env doc st =
    if saveOk env then
      if serialTaken (serialOf doc) (store st) then (Throw DuplicateKey, st)
      else (Ok tt, setStore (store st ++ [doc]) st)
    else (Throw DatabaseError, st).
Proof.
  unfold save, bind, guard, get, ret, throw, modify.
  destruct (saveOk env); [|reflexivity].
  destruct (serialTaken (serialOf doc) (store st)); reflexivity.
Qed.

Lemma fb_sendMail_eq (ok : bool) (attachments : list string) (mail : Mail) (st : State) :
  sendMail ok attachments mail st =
    if forallb (fun p => existsFile p (files st)) attachments then
      if ok then (Ok tt, setOutbox (outbox st ++ [mail]) st)
      else (Throw MailError, st)
    else (Throw ENOENT, st).
Proof.
  unfold sendMail, bind, guard, get, ret, throw, modify.
  destruct (forallb _ attachments); [|reflexivity].
  destruct ok; reflexivity.
Qed.

Lemma fb_sendStudentEmail_eq (env : SubmitEnv) (data : FormData) (p : string) (st : State) :
  sendStudentEmail env data p st =
    (Ok tt,
     setOutbox
       (if existsFile p (files st) && mailOk env
        then outbox st ++ [StudentMail (email data) p]
        else outbox st)%list
       st).
Proof.
  unfold sendStudentEmail, try_catch. rewrite fb_sendMail_eq.
  destruct st as [c fs docs q ob]; cbn [files outbox setOutbox forallb].
  rewrite andb_true_r.
  destruct (existsFile p fs); [|reflexivity].
  destruct (mailOk env); reflexivity.
Qed.

End FileBackedFacts.

Module FileBackedEndpoint.

Import FileBacked FileBackedSpec FileBackedFacts.

Ltac norm :=
  unfold setFileQueue, setOutbox, setStore, setFiles, setCounterFile;
  cbv beta iota zeta; cbn [counterFile store files fileQueue outbox fst snd].

Ltac failed :=
  first [ discriminate
        | split; [eexists; reflexivity | repeat split; reflexivity] ].

Lemma fb_submitForm_success (env : SubmitEnv) (body : FormData) (st : State) :
  stepsSucceed env body st = true ->
  submitForm env body st = (Ok Status200, successState env body st).
Proof.
  unfold stepsSucceed, pipelineOk. intros H.
  rewrite !andb_true_iff in H.
  destruct H as [[[[[[[Hcb Hr] Hcp] Hfb] Hff] Hfp] Hs] Ht].
  unfold submitForm, try_catch, bind.
  rewrite fb_getNextSerialNumber_eq. cbv beta iota zeta.
  rewrite fb_generateCertificate_eq, Hcb.
  destruct (certificateFields_renderable
              (withSerialNumber body (nextSerial (counterFile st))))
    as [fields ->]; [assumption|].
  rewrite sanitizedName_renderable by assumption.
  rewrite Hcp. cbv beta iota zeta.
  rewrite fb_generateApplicationFormPdf_eq, Hfb, formFieldsOk_withSerialNumber, Hff.
  rewrite sanitizedName_renderable by assumption.
  rewrite Hfp. cbv beta iota zeta. rewrite fb_save_eq, Hs.
  cbn [applicantName withSerialNumber].
  fold (certificatePath env body). fold (applicationPath env body).
  set (cert := certificatePath env body). set (form := applicationPath env body).
  unfold successState. fold cert. fold form. cbv zeta.
  destruct st as [c fs docs q ob].
  unfold registrationOf.
  cbn [store setFiles files doc_url doc_path serialOf reg_data withSerialNumber
       serialNumber setCounterFile counterFile fileQueue outbox] in *.
  apply negb_true_iff in Ht. rewrite Ht.
  cbv beta iota zeta. rewrite fb_sendStudentEmail_eq. cbv beta iota zeta.
  unfold modify, ret. norm.
  rewrite <- app_assoc. cbn [List.app].
  assert (Hform : existsFile form
            (afterRender (formUpload env) form (afterRender (certUpload env) cert fs))
          = negb (isSome (formUpload env))).
  { unfold afterRender at 1. destruct (formUpload env); cbn [isSome negb].
    - apply existsFile_removeFile_same.
    - apply existsFile_addFile_same. }
  rewrite Hform. reflexivity.
Qed.

(** A failed submission leaves the collection, the queue and the outbox as
    they were. *)
Lemma fb_submitForm_failure (env : SubmitEnv) (body : FormData) (st : State) :
  stepsSucceed env body st = false ->
  (exists e, fst (submitForm env body st) = Ok (Status500 e))
  /\ store (snd (submitForm env body st)) = store st
  /\ fileQueue (snd (submitForm env body st)) = fileQueue st
  /\ outbox (snd (submitForm env body st)) = outbox st.
Proof.
  unfold stepsSucceed, pipelineOk. intros H.
  unfold submitForm, try_catch, bind.
  rewrite fb_getNextSerialNumber_eq. cbv beta iota zeta.
  rewrite fb_generateCertificate_eq.
  destruct (certBrowserOk env); [|failed].
  destruct (renderable body) eqn:Er.
  2:{ rewrite certificateFields_not_renderable by assumption. failed. }
  destruct (certificateFields_renderable
              (withSerialNumber body (nextSerial (counterFile st))))
    as [fields ->]; [assumption|].
  rewrite sanitizedName_renderable by assumption.
  destruct (certPdfOk env); [|failed]. cbv beta iota zeta.
  rewrite fb_generateApplicationFormPdf_eq, formFieldsOk_withSerialNumber.
  destruct (formBrowserOk env); [|failed].
  destruct (formFieldsOk env body); [|failed].
  rewrite sanitizedName_renderable by assumption.
  destruct (formPdfOk env); [|failed]. cbv beta iota zeta.
  rewrite fb_save_eq.
  destruct (saveOk env); [|failed].
  destruct st as [c fs docs q ob].
  cbn [store setFiles files doc_url doc_path serialOf reg_data withSerialNumber
       serialNumber setCounterFile counterFile fileQueue outbox] in *.
  destruct (serialTaken _ _); [failed | discriminate].
Qed.

(** The counter file is written before anything else runs and is never
    written again: whatever the answer, it holds the number just issued. *)
Lemma fb_submitForm_counterFile (env : SubmitEnv) (body : FormData) (st : State) :
  counterFile (snd (submitForm env body st))
  = Some (toString (nextNumber (counterFile st))).
Proof.
  destruct (stepsSucceed env body st) eqn:E.
  - rewrite fb_submitForm_success by assumption. reflexivity.
  - revert E. unfold stepsSucceed, pipelineOk. intros H.
    unfold submitForm, try_catch, bind.
    rewrite fb_getNextSerialNumber_eq. cbv beta iota zeta.
    rewrite fb_generateCertificate_eq.
    destruct (certBrowserOk env); [|reflexivity].
    destruct (renderable body) eqn:Er.
    2:{ rewrite certificateFields_not_renderable by assumption. reflexivity. }
    destruct (certificateFields_renderable
                (withSerialNumber body (nextSerial (counterFile st))))
      as [fields ->]; [assumption|].
    rewrite sanitizedName_renderable by assumption.
    destruct (certPdfOk env); [|reflexivity]. cbv beta iota zeta.
    rewrite fb_generateApplicationFormPdf_eq, formFieldsOk_withSerialNumber.
    destruct (formBrowserOk env); [|reflexivity].
    destruct (formFieldsOk env body); [|reflexivity].
    rewrite sanitizedName_renderable by assumption.
    destruct (formPdfOk env); [|reflexivity]. cbv beta iota zeta.
    rewrite fb_save_eq.
    destruct (saveOk env); [|reflexivity].
    destruct st as [c fs docs q ob].
    cbn [store setFiles files doc_url doc_path serialOf reg_data withSerialNumber
         serialNumber setCounterFile counterFile fileQueue outbox] in *.
    destruct (serialTaken _ _); [reflexivity | discriminate].
Qed.


Lemma fb_taken_fails (env : SubmitEnv) (body : FormData) (st : State) :
  serialTaken (Some (nextSerial (counterFile st))) (store st) = true ->
  stepsSucceed env body st = false.
Proof. intros H. unfold stepsSucceed. rewrite H. apply andb_false_r. Qed.

Lemma fb_firstFailure_none (env : SubmitEnv) (body : FormData) (st : State) :
  firstFailure env body st = None <-> stepsSucceed env body st = true.
Proof.
  unfold firstFailure, stepsSucceed.
  pose proof (pipelineFailure_none env body) as Hp.
  destruct (pipelineFailure env body) as [e|].
  - destruct (pipelineOk env body); [|split; discriminate].
    destruct Hp as [_ Hp]. specialize (Hp eq_refl). discriminate.
  - rewrite (proj1 Hp eq_refl). cbn [andb].
    destruct (serialTaken _ _); cbn; split; congruence.
Qed.

(** The answer is that of the first step that fails. *)
Lemma fb_submitForm_answer (env : SubmitEnv) (body : FormData) (st : State) :
  fst (submitForm env body st) = Ok (answerOf (firstFailure env body st)).
Proof.
  destruct (stepsSucceed env body st) eqn:Es.
  - rewrite (fb_submitForm_success env body st Es).
    apply fb_firstFailure_none in Es. now rewrite Es.
  - revert Es. unfold stepsSucceed, pipelineOk, firstFailure, pipelineFailure.
    intros H.
    unfold submitForm, try_catch, bind.
    rewrite fb_getNextSerialNumber_eq. cbv beta iota zeta.
    rewrite fb_generateCertificate_eq.
    destruct (certBrowserOk env); [|reflexivity].
    destruct (renderable body) eqn:Er.
    2:{ rewrite certificateFields_not_renderable by assumption. reflexivity. }
    destruct (certificateFields_renderable
                (withSerialNumber body (nextSerial (counterFile st))))
      as [fields ->]; [assumption|].
    rewrite sanitizedName_renderable by assumption.
    destruct (certPdfOk env); [|reflexivity]. cbv beta iota zeta.
    rewrite fb_generateApplicationFormPdf_eq, formFieldsOk_withSerialNumber.
    destruct (formBrowserOk env); [|reflexivity].
    destruct (formFieldsOk env body); [|reflexivity].
    rewrite sanitizedName_renderable by assumption.
    destruct (formPdfOk env); [|reflexivity]. cbv beta iota zeta.
    rewrite fb_save_eq.
    destruct (saveOk env); [|reflexivity].
    destruct st as [c fs docs q ob].
    cbn [store setFiles files doc_url doc_path serialOf reg_data withSerialNumber
         serialNumber setCounterFile counterFile fileQueue outbox negb] in *.
    destruct (serialTaken _ _); [reflexivity | discriminate].
Qed.

End FileBackedEndpoint.

(** * The order of six-digit serials *)

Section DigitStrings.

Import DecimalString.

#[local] Arguments Z.mul : simpl never.
#[local] Arguments Z.add : simpl never.
#[local] Arguments Z.pow : simpl never.
#[local] Arguments Z.of_nat : simpl never.

Lemma digitValue_range (c : ascii) (d : Z) :
  digitValue c = Some d -> 0 <= d <= 9 /\ Z.of_N (N_of_ascii c) = d + 48.
Proof.
  unfold digitValue.
  destruct (Z.leb_spec 48 (Z.of_N (N_of_ascii c))); cbn [andb]; [|discriminate].
  destruct (Z.leb_spec (Z.of_N (N_of_ascii c)) 57); [|discriminate].
  intros [= <-]. lia.
Qed.

Lemma parseDigits_allDigits (s : string) (acc : Z) :
  allDigits s = true -> parseDigits (Some acc) s = Some (decimalValue acc s).
Proof.
  revert acc. induction s as [|c s IH]; intros acc; [reflexivity|].
  cbn [allDigits parseDigits decimalValue].
  destruct (digitValue c); cbn [isSome andb]; [|discriminate].
  intros H. now apply IH.
Qed.

Lemma decimalValue_acc (s : string) (acc : Z) :
  decimalValue acc s
  = acc * 10 ^ Z.of_nat (String.length s) + decimalValue 0 s.
Proof.
  revert acc. induction s as [|c s IH]; intros acc.
  - cbn. lia.
  - cbn [decimalValue String.length].
    rewrite IH, (IH (10 * 0 + _)), Nat2Z.inj_succ, Z.pow_succ_r by lia. lia.
Qed.

Lemma decimalValue_bound (s : string) :
  allDigits s = true -> 0 <= decimalValue 0 s < 10 ^ Z.of_nat (String.length s).
Proof.
  induction s as [|c s IH]; [cbn; lia|].
  cbn [allDigits decimalValue String.length].
  destruct (digitValue c) as [d|] eqn:Ed; cbn [isSome andb]; [|discriminate].
  intros H. specialize (IH H). apply digitValue_range in Ed as [Hd _].
  rewrite decimalValue_acc, Nat2Z.inj_succ, Z.pow_succ_r by lia.
  nia.
Qed.

(** Strings of digits of the same length are ordered as the numbers they
    read as. *)
Lemma compare_digits (s t : string) :
  allDigits s = true -> allDigits t = true ->
  String.length s = String.length t ->
  String.compare s t = Z.compare (decimalValue 0 s) (decimalValue 0 t).
Proof.
  revert t. induction s as [|c s IH]; intros [|c' t]; try discriminate.
  - reflexivity.
  - cbn [allDigits decimalValue String.length String.compare].
    destruct (digitValue c) as [d|] eqn:Ed; cbn [isSome andb]; [|discriminate].
    destruct (digitValue c') as [d'|] eqn:Ed'; cbn [isSome andb]; [|discriminate].
    intros Hs Ht [= Hl].
    apply digitValue_range in Ed as [Hd Hc], Ed' as [Hd' Hc'].
    pose proof (decimalValue_bound s Hs) as Hbs.
    pose proof (decimalValue_bound t Ht) as Hbt.
    rewrite (decimalValue_acc s), (decimalValue_acc t), <- Hl.
    rewrite <- Hl in Hbt.
    unfold Ascii.compare. rewrite <- N2Z.inj_compare, Hc, Hc'.
    rewrite (IH t Hs Ht Hl).
    set (P := 10 ^ Z.of_nat (String.length s)) in *.
    destruct (Z.compare_spec (d + 48) (d' + 48)) as [E|E|E].
    + assert (d = d') by lia. subst d'.
      destruct (Z.compare_spec (decimalValue 0 s) (decimalValue 0 t));
        symmetry; [apply Z.compare_eq_iff | apply Z.compare_lt_iff
                  | apply Z.compare_gt_iff]; lia.
    + symmetry. apply Z.compare_lt_iff. nia.
    + symmetry. apply Z.compare_gt_iff. nia.
Qed.

Lemma allDigits_append (s t : string) :
  allDigits (s ++ t) = allDigits s && allDigits t.
Proof.
  induction s as [|c s IH]; [reflexivity|].
  cbn [append allDigits]. rewrite IH. apply andb_assoc.
Qed.

Lemma allDigits_zeros (k : nat) : allDigits (zeros k) = true.
Proof. induction k; [reflexivity | exact IHk]. Qed.

Lemma allDigits_uint (d : Decimal.uint) :
  allDigits (NilEmpty.string_of_uint d) = true.
Proof. induction d; cbn; [reflexivity | assumption ..]. Qed.

Lemma length_zeros (k : nat) : String.length (zeros k) = k.
Proof. induction k; cbn; [reflexivity | now f_equal]. Qed.

Lemma length_uint (d : Decimal.uint) :
  String.length (NilEmpty.string_of_uint d) = Decimal.nb_digits d.
Proof. induction d; cbn; [reflexivity | now f_equal ..]. Qed.

Lemma uintValue_lower (d : Decimal.uint) (acc : Z) :
  0 <= acc -> acc * 10 ^ Z.of_nat (Decimal.nb_digits d) <= uintValue acc d.
Proof.
  revert acc. induction d; intros acc Hacc; cbn [uintValue Decimal.nb_digits];
    [cbn; lia | ..];
    (etransitivity; [|apply IHd; lia]);
    rewrite Nat2Z.inj_succ, Z.pow_succ_r by lia;
    assert (0 <= 10 ^ Z.of_nat (Decimal.nb_digits d)) by (apply Z.pow_nonneg; lia);
    nia.
Qed.

(** The digits of a positive number start with a digit that is not
    zero. *)
Lemma to_uint_head (p : positive) :
  match Pos.to_uint p with
  | Decimal.Nil | Decimal.D0 _ => False
  | _ => True
  end.
Proof.
  pose proof (DecimalPos.Unsigned.to_uint_nonnil p) as Hnil.
  pose proof (DecimalPos.Unsigned.to_uint_nonzero p) as Hzero.
  pose proof (DecimalPos.Unsigned.to_of (Pos.to_uint p)) as Hnorm.
  rewrite DecimalPos.Unsigned.of_to in Hnorm. cbn [N.to_uint] in Hnorm.
  destruct (Pos.to_uint p) as [|u| | | | | | | | |]; try exact I; [congruence|].
  rewrite DecimalFacts.unorm_D0 in Hnorm.
  destruct (Decimal.uint_eq_dec u Decimal.Nil) as [->|Hu];
    [apply Hzero; reflexivity|].
  pose proof (DecimalFacts.nb_digits_unorm u Hu) as Hlen.
  rewrite <- Hnorm in Hlen. cbn [Decimal.nb_digits] in Hlen. lia.
Qed.

Lemma length_Z_toString (n : Z) :
  0 <= n < 1000000 -> (String.length (Z_toString n) <= 6)%nat.
Proof.
  intros Hn. destruct n as [|p|p]; [cbn; lia | | lia].
  unfold Z_toString. cbn [Z.to_int NilEmpty.string_of_int].
  rewrite length_uint.
  pose proof (to_uint_head p) as Hhead.
  pose proof (uintValue_zero (Pos.to_uint p)) as Hv.
  rewrite DecimalPos.Unsigned.of_to in Hv. cbn [Z.of_N] in Hv.
  destruct (Nat.le_gt_cases (Decimal.nb_digits (Pos.to_uint p)) 6) as [H|H];
    [exact H | exfalso].
  assert (Hpow : forall d acc, 1 <= acc -> (6 <= Decimal.nb_digits d)%nat ->
                   1000000 <= uintValue acc d).
  { intros d acc Hacc Hd.
    etransitivity; [|apply uintValue_lower; lia].
    assert (10 ^ 6 <= 10 ^ Z.of_nat (Decimal.nb_digits d))
      by (apply Z.pow_le_mono_r; lia).
    change (10 ^ 6) with 1000000 in *. nia. }
  destruct (Pos.to_uint p) as [|u|u|u|u|u|u|u|u|u|u]; try contradiction;
    cbn [Decimal.nb_digits] in H; cbn [uintValue] in Hv;
    match type of Hv with
    | uintValue ?a _ = _ => pose proof (Hpow u a ltac:(lia) ltac:(lia))
    end; lia.
Qed.

Lemma length_serialString (n : Z) :
  0 <= n < 1000000 -> String.length (serialString n) = 6%nat.
Proof.
  intros Hn. pose proof (length_Z_toString n Hn).
  unfold serialString, padStart. rewrite length_append, length_zeros. lia.
Qed.

Lemma allDigits_serialString (n : Z) : 0 <= n -> allDigits (serialString n) = true.
Proof.
  intros Hn. unfold serialString, padStart.
  rewrite allDigits_append, allDigits_zeros. cbn [andb].
  unfold Z_toString. destruct n as [|p|p]; [reflexivity | | lia].
  apply allDigits_uint.
Qed.

Lemma decimalValue_serialString (n : Z) :
  0 <= n -> decimalValue 0 (serialString n) = n.
Proof.
  intros Hn.
  pose proof (parseDigits_allDigits _ 0 (allDigits_serialString n Hn)) as H.
  assert (H' : parseDigits (Some 0) (serialString n) = Some n)
    by exact (parseDigits_zeros_toString _ n Hn).
  congruence.
Qed.

(** Below one million the serials sort as their numbers do. *)
Lemma serialString_ltb (a b : Z) :
  0 <= a < 1000000 -> 0 <= b < 1000000 ->
  String.ltb (serialString a) (serialString b) = (a <? b).
Proof.
  intros Ha Hb. unfold String.ltb.
  rewrite compare_digits;
    rewrite ?allDigits_serialString, ?length_serialString, ?decimalValue_serialString;
    try lia; try reflexivity.
Qed.

End DigitStrings.

(** * Runs of sequential submissions *)

Section Allocation.

Lemma optionStringEqb_eq (a b : option string) :
  optionStringEqb a b = true <-> a = b.
Proof.
  destruct a as [x|], b as [y|]; cbn; try (split; congruence).
  rewrite String.eqb_eq. split; congruence.
Qed.

Lemma serialTaken_false (serial : option string) (docs : list Registration) :
  serialTaken serial docs = false -> ~ In serial (map serialOf docs).
Proof.
  unfold serialTaken. intros Hf Hin.
  apply in_map_iff in Hin as [r [Hr Hin]].
  assert (Ht : existsb (fun r => optionStringEqb (serialOf r) serial) docs = true).
  { apply existsb_exists. exists r. split; [exact Hin|]. now apply optionStringEqb_eq. }
  congruence.
Qed.

Lemma serialTaken_true (serial : option string) (docs : list Registration) :
  serialTaken serial docs = true -> exists r, In r docs /\ serialOf r = serial.
Proof.
  unfold serialTaken. intros H. apply existsb_exists in H as [r [Hin Hr]].
  exists r. split; [exact Hin | now apply optionStringEqb_eq].
Qed.


(** The numbers allocated from [v] to [k] submissions lie between [v] and
    [v + k - 1]. *)
Lemma allocated_range (consumes : SubmitEnv -> FormData -> bool) (v : Z)
    (subs : list (SubmitEnv * FormData)) :
  Forall (fun n => v <= n < v + Z.of_nat (List.length subs))
    (allocated consumes v subs).
Proof.
  revert v. induction subs as [|[env body] rest IH]; intros v; [constructor|].
  cbn [allocated List.length]. constructor; [lia|].
  eapply Forall_impl; [|apply IH]. cbv beta. intros n Hn.
  destruct (consumes env body); lia.
Qed.

Lemma keptNumbers_Forall (P : Z -> Prop) (ok : SubmitEnv -> FormData -> bool)
    (subs : list (SubmitEnv * FormData)) (ns : list Z) :
  Forall P ns -> Forall P (keptNumbers ok subs ns).
Proof.
  revert ns. induction subs as [|[env body] rest IH]; intros ns H; [constructor|].
  destruct ns as [|n ns]; [constructor|]. cbn [keptNumbers].
  inversion H; subst. destruct (ok env body); [constructor|]; auto.
Qed.

Lemma keptNumbers_length (ok consumes : SubmitEnv -> FormData -> bool) (v : Z)
    (subs : list (SubmitEnv * FormData)) :
  List.length (keptNumbers ok subs (allocated consumes v subs))
  = List.length (keptSubmissions ok subs).
Proof.
  revert v. induction subs as [|[env body] rest IH]; intros v; [reflexivity|].
  cbn [allocated keptNumbers keptSubmissions].
  destruct (ok env body); cbn [List.length]; now rewrite IH.
Qed.

(** When the count moves on after every submission that is kept, the
    numbers of the kept submissions increase strictly. *)
Lemma keptNumbers_sorted (ok consumes : SubmitEnv -> FormData -> bool) (v : Z)
    (subs : list (SubmitEnv * FormData)) :
  (forall env body, ok env body = true -> consumes env body = true) ->
  StronglySorted Z.lt (keptNumbers ok subs (allocated consumes v subs)).
Proof.
  intros Hc. revert v. induction subs as [|[env body] rest IH]; intros v;
    [constructor|].
  cbn [allocated keptNumbers].
  destruct (ok env body) eqn:Eok; [|apply IH].
  rewrite (Hc _ _ Eok). constructor; [apply IH|].
  apply keptNumbers_Forall.
  eapply Forall_impl; [|apply allocated_range]. cbv beta. intros n Hn. lia.
Qed.

Lemma allocated_sorted (v : Z) (subs : list (SubmitEnv * FormData)) :
  StronglySorted Z.lt (allocated (fun _ _ => true) v subs).
Proof.
  revert v. induction subs as [|[env body] rest IH]; intros v; [constructor|].
  cbn [allocated]. constructor; [apply IH|].
  eapply Forall_impl; [|apply allocated_range]. cbv beta. intros n Hn. lia.
Qed.

Lemma sorted_serials_NoDup (ns : list Z) :
  StronglySorted Z.lt ns -> Forall (fun n => 0 <= n) ns ->
  NoDup (map serialString ns).
Proof.
  induction 1 as [|n ns Hs IH Hall]; intros Hpos; cbn [map]; constructor.
  - intros Hin. apply in_map_iff in Hin as [m [Hm Hin]].
    inversion Hpos as [|? ? Hn Hns]; subst.
    rewrite Forall_forall in Hall, Hns.
    specialize (Hall m Hin). specialize (Hns m Hin).
    apply padStart_inj in Hm; lia.
  - apply IH. now inversion Hpos.
Qed.

(** The submissions answered 200 are those that are [ok], when the
    answers are those of [failure]. *)
Lemma completed_answers (ok : SubmitEnv -> FormData -> bool)
    (failure : SubmitEnv -> FormData -> option error)
    (subs : list (SubmitEnv * FormData)) :
  (forall env body, failure env body = None <-> ok env body = true) ->
  completed subs (map (fun sub => answerOf (failure (fst sub) (snd sub))) subs)
  = keptSubmissions ok subs.
Proof.
  intros H. induction subs as [|[env body] rest IH]; [reflexivity|].
  cbn [map completed keptSubmissions fst snd].
  specialize (H env body).
  destruct (failure env body) as [e|]; cbn [answerOf].
  - destruct (ok env body); [|exact IH].
    destruct H as [_ H]. specialize (H eq_refl). discriminate.
  - rewrite (proj1 H eq_refl). now rewrite IH.
Qed.

Lemma parseInt_serialString (n : Z) :
  0 <= n <= 9007199254740992 -> parseInt (serialString n) = Int n.
Proof. apply parseInt_padStart. Qed.

Lemma storeBelow_weaken (c c' : Z) (docs : list Registration) :
  c <= c' -> storeBelow c docs -> storeBelow c' docs.
Proof.
  intros Hc. unfold storeBelow. apply Forall_impl. intros r.
  destruct (serialOf r) as [s|]; [|trivial].
  destruct (parseInt s); [trivial | lia].
Qed.

(** A serial above the numbers of the collection is not taken. *)
Lemma storeBelow_free (c n : Z) (docs : list Registration) :
  storeBelow c docs -> c < n -> 0 <= n <= 9007199254740992 ->
  serialTaken (Some (serialString n)) docs = false.
Proof.
  intros Hb Hc Hn.
  destruct (serialTaken (Some (serialString n)) docs) eqn:E; [|reflexivity].
  apply serialTaken_true in E as [r [Hin Hr]].
  unfold storeBelow in Hb. rewrite Forall_forall in Hb. specialize (Hb r Hin).
  rewrite Hr in Hb. unfold serialString in Hb.
  rewrite parseInt_padStart in Hb by exact Hn. lia.
Qed.

Lemma storeBelow_snoc (c n : Z) (docs : list Registration) (body : FormData)
    (certUrl formUrl : option string) :
  storeBelow c docs -> 0 <= n <= c -> n <= 9007199254740992 ->
  storeBelow c (docs ++ [registrationOf body (serialString n) certUrl formUrl]).
Proof.
  intros Hb Hn Hs. apply Forall_app. split; [exact Hb|].
  constructor; [|constructor].
  cbn [serialOf registrationOf reg_data withSerialNumber serialNumber].
  unfold serialString. rewrite parseInt_padStart by lia. lia.
Qed.

End Allocation.

Module FileBackedRun.

Import FileBacked FileBackedSpec FileBackedFacts FileBackedEndpoint.

Lemma fb_nextNumber_counterOk (counter : option string) :
  counterOk counter -> counterValue counter < 9007199254740992 ->
  nextNumber counter = Int (counterValue counter + 1).
Proof.
  unfold nextNumber, counterValue. destruct counter as [data|]; [|reflexivity].
  intros [n [-> Hn]] Hb. cbn [succ_num]. now rewrite roundDouble_safe by lia.
Qed.

Lemma fb_counterValue_nonneg (counter : option string) :
  counterOk counter -> 0 <= counterValue counter.
Proof.
  unfold counterValue. destruct counter as [data|]; [|lia].
  intros [n [-> Hn]]. exact Hn.
Qed.

Lemma fb_counterOk_next (counter : option string) :
  counterOk counter -> counterValue counter < 9007199254740992 ->
  counterOk (Some (toString (nextNumber counter)))
  /\ counterValue (Some (toString (nextNumber counter))) = counterValue counter + 1.
Proof.
  intros H Hb. pose proof (fb_counterValue_nonneg _ H) as Hn.
  rewrite (fb_nextNumber_counterOk _ H Hb). cbn [toString counterOk counterValue].
  rewrite parseInt_Z_toString by lia. split; [|reflexivity].
  exists (counterValue counter + 1). split; [reflexivity | lia].
Qed.

Lemma fb_nextSerial_counterOk (counter : option string) :
  counterOk counter -> counterValue counter < 9007199254740992 ->
  nextSerial counter = serialString (counterValue counter + 1).
Proof.
  intros H Hb. unfold nextSerial. now rewrite (fb_nextNumber_counterOk _ H Hb).
Qed.

Lemma fb_run_cons (env : SubmitEnv) (body : FormData)
    (rest : list (SubmitEnv * FormData)) (st : State) :
  fst (run ((env, body) :: rest) st)
  = answer (fst (submitForm env body st)) :: fst (run rest (snd (submitForm env body st)))
  /\ snd (run ((env, body) :: rest) st) = snd (run rest (snd (submitForm env body st))).
Proof.
  cbn [run]. destruct (submitForm env body st) as [r st1]. cbn [fst snd].
  destruct (run rest st1) as [answers st2]. split; reflexivity.
Qed.

Lemma fb_run_counterFile (subs : list (SubmitEnv * FormData)) (st : State) :
  counterOk (counterFile st) ->
  counterValue (counterFile st) + Z.of_nat (List.length subs) <= 9007199254740992 ->
  counterOk (counterFile (snd (run subs st)))
  /\ counterValue (counterFile (snd (run subs st)))
     = counterValue (counterFile st) + Z.of_nat (List.length subs).
Proof.
  revert st. induction subs as [|[env body] rest IH]; intros st Hok Hb.
  - simpl. split; [exact Hok | lia].
  - cbn [List.length] in Hb. rewrite (proj2 (fb_run_cons env body rest st)).
    pose proof (fb_submitForm_counterFile env body st) as Hc.
    destruct (fb_counterOk_next _ Hok) as [Hok1 Hv1]; [lia|].
    rewrite <- Hc in Hok1, Hv1.
    destruct (IH _ Hok1) as [IHok IHv]; [lia|].
    split; [exact IHok|]. rewrite IHv, Hv1. cbn [List.length]. lia.
Qed.

(** One submission, from a state whose counter is ahead of the
    collection: the serial is that of the count plus one, the unique index
    does not refuse it, and the counter stays ahead. *)
Lemma fb_step (env : SubmitEnv) (body : FormData) (st : State) :
  counterOk (counterFile st) ->
  storeBelow (counterValue (counterFile st)) (store st) ->
  counterValue (counterFile st) < 9007199254740992 ->
  let c := counterValue (counterFile st) in
  let st1 := snd (submitForm env body st) in
  fst (getNextSerialNumber st) = Ok (serialString (c + 1))
  /\ fst (submitForm env body st) = Ok (answerOf (pipelineFailure env body))
  /\ store st1
     = (store st
        ++ if pipelineOk env body
           then [registrationOf body (serialString (c + 1)) (certUpload env)
                   (formUpload env)]
           else [])%list
  /\ counterOk (counterFile st1)
  /\ counterValue (counterFile st1) = c + 1
  /\ storeBelow (c + 1) (store st1).
Proof.
  intros Hok Hb Hlt c st1. subst st1.
  pose proof (fb_counterValue_nonneg _ Hok) as Hc. fold c in Hc, Hb, Hlt.
  pose proof (fb_nextSerial_counterOk _ Hok Hlt) as Hserial. fold c in Hserial.
  assert (Hfree : serialTaken (Some (nextSerial (counterFile st))) (store st) = false).
  { rewrite Hserial. apply (storeBelow_free c); [exact Hb | lia | lia]. }
  assert (Hsteps : stepsSucceed env body st = pipelineOk env body).
  { unfold stepsSucceed. rewrite Hfree. apply andb_true_r. }
  assert (Hfirst : firstFailure env body st = pipelineFailure env body).
  { unfold firstFailure. rewrite Hfree. now destruct (pipelineFailure env body). }
  destruct (fb_counterOk_next _ Hok Hlt) as [Hok1 Hv1].
  rewrite <- (fb_submitForm_counterFile env body st) in Hok1, Hv1.
  split; [|split; [|split; [|split; [exact Hok1 | split; [exact Hv1|]]]]].
  - rewrite fb_getNextSerialNumber_eq. cbn [fst]. now rewrite Hserial.
  - now rewrite fb_submitForm_answer, Hfirst.
  - destruct (pipelineOk env body) eqn:Ep.
    + rewrite (fb_submitForm_success env body st Hsteps).
      cbn [snd successState store]. now rewrite Hserial.
    + rewrite app_nil_r. apply (fb_submitForm_failure env body st Hsteps).
  - destruct (pipelineOk env body) eqn:Ep.
    + rewrite (fb_submitForm_success env body st Hsteps).
      cbn [snd successState store]. rewrite Hserial.
      apply storeBelow_snoc; [|lia|lia].
      apply (storeBelow_weaken c); [lia | exact Hb].
    + rewrite (proj1 (proj2 (fb_submitForm_failure env body st Hsteps))).
      apply (storeBelow_weaken c); [lia | exact Hb].
Qed.

(** A run, from a state whose counter is ahead of the collection: every
    submission is issued the next number, is answered by its services
    alone, and is stored under its number when they succeed. *)
Lemma fb_run_allocation (subs : list (SubmitEnv * FormData)) (st : State) :
  counterOk (counterFile st) ->
  storeBelow (counterValue (counterFile st)) (store st) ->
  counterValue (counterFile st) + Z.of_nat (List.length subs) <= 9007199254740992 ->
  let ns := allocated (fun _ _ => true) (counterValue (counterFile st) + 1) subs in
  issued subs st = map (fun n => Ok (serialString n)) ns
  /\ fst (run subs st)
     = map (fun sub => answerOf (pipelineFailure (fst sub) (snd sub))) subs
  /\ store (snd (run subs st))
     = (store st ++ stamped (keptSubmissions pipelineOk subs)
                      (keptNumbers pipelineOk subs ns))%list.
Proof.
  revert st. induction subs as [|[env body] rest IH]; intros st Hok Hb Hlen ns;
    subst ns.
  - cbn. now rewrite app_nil_r.
  - cbn [List.length] in Hlen.
    destruct (fb_step env body st Hok Hb) as [Hi [Ha [Hs [Hok1 [Hv1 Hb1]]]]]; [lia|].
    rewrite <- Hv1 in Hb1.
    destruct (IH _ Hok1 Hb1) as [IHi [IHa IHs]]; [lia|].
    rewrite Hv1 in IHi, IHs.
    destruct (fb_run_cons env body rest st) as [Hfst Hsnd].
    cbn [issued allocated map keptSubmissions keptNumbers fst snd].
    split; [|split].
    + now rewrite Hi, IHi.
    + now rewrite Hfst, Ha, IHa.
    + rewrite Hsnd, IHs, Hs, <- app_assoc.
      destruct (pipelineOk env body); reflexivity.
Qed.

End FileBackedRun.

Module StoreDerivedRun.

Import StoreDerived StoreDerivedSpec StoreDerivedFacts StoreDerivedEndpoint.

Lemma sd_findLast_app (docs : list Registration) (r : Registration) :
  findLast (docs ++ [r]) =
    match findLast docs with
    | None => Some r
    | Some b => if serialLtb (serialOf b) (serialOf r) then Some r else Some b
    end.
Proof. unfold findLast. rewrite fold_left_app. reflexivity. Qed.


Lemma sd_serialTaken_app (serial : option string) (docs : list Registration)
    (r : Registration) :
  serialOf r = serial -> serialTaken serial (docs ++ [r]) = true.
Proof.
  intros <-. unfold serialTaken. rewrite existsb_app. cbn [existsb].
  assert (H : optionStringEqb (serialOf r) (serialOf r) = true).
  { destruct (serialOf r); [apply String.eqb_refl | reflexivity]. }
  rewrite H. now rewrite orb_true_r.
Qed.

Lemma sd_run_cons (env : SubmitEnv) (body : FormData)
    (rest : list (SubmitEnv * FormData)) (st : State) :
  fst (run ((env, body) :: rest) st)
  = answer (fst (submitForm env body st)) :: fst (run rest (snd (submitForm env body st)))
  /\ snd (run ((env, body) :: rest) st) = snd (run rest (snd (submitForm env body st))).
Proof.
  cbn [run]. destruct (submitForm env body st) as [r st1]. cbn [fst snd].
  destruct (run rest st1) as [answers st2]. split; reflexivity.
Qed.

(** In a collection of six-digit serials the query for the last serial
    finds a registration with the largest number. *)
Lemma sd_findLast_max (docs : list Registration) :
  sixDigitStore docs ->
  match findLast docs with
  | None => docs = []
  | Some r =>
      exists n, serialOf r = Some (serialString n) /\ 0 <= n < 1000000
        /\ Forall (fun r' => exists m, serialOf r' = Some (serialString m)
                                       /\ 0 <= m <= n) docs
  end.
Proof.
  induction docs as [|d docs IH] using rev_ind; intros Hsix; [reflexivity|].
  apply Forall_app in Hsix as [Hdocs Hd].
  inversion Hd as [|? ? [nd [Hsd Hnd]] _]; subst.
  rewrite sd_findLast_app. specialize (IH Hdocs).
  destruct (findLast docs) as [b|].
  - destruct IH as [nb [Hsb [Hnb Hall]]]. rewrite Hsb, Hsd. cbn [serialLtb].
    rewrite serialString_ltb by lia.
    destruct (Z.ltb_spec nb nd).
    + exists nd. split; [exact Hsd|]. split; [exact Hnd|].
      apply Forall_app. split.
      * eapply Forall_impl; [|exact Hall]. cbv beta.
        intros r' [m [Hm Hle]]. exists m. split; [exact Hm | lia].
      * constructor; [|constructor]. exists nd. split; [exact Hsd | lia].
    + exists nb. split; [exact Hsb|]. split; [exact Hnb|].
      apply Forall_app. split; [exact Hall|].
      constructor; [|constructor]. exists nd. split; [exact Hsd | lia].
  - subst docs. exists nd. split; [exact Hsd|]. split; [exact Hnd|].
    constructor; [|constructor]. exists nd. split; [exact Hsd | lia].
Qed.

Lemma serialString_not_empty (n : Z) : serialString n <> "".
Proof. exact (padStart_not_empty (Int n)). Qed.

(** The serial derived from such a collection is that of the largest
    number plus one, and it is not taken. *)
Lemma sd_nextSerial_six (docs : list Registration) :
  sixDigitStore docs ->
  nextSerial docs = serialString (nextValue docs)
  /\ 1 <= nextValue docs <= 1000000
  /\ serialTaken (Some (serialString (nextValue docs))) docs = false.
Proof.
  intros Hsix. pose proof (sd_findLast_max docs Hsix) as Hmax.
  unfold nextSerial, nextValue.
  destruct (findLast docs) as [r|].
  - destruct Hmax as [n [Hs [Hn Hall]]]. rewrite Hs.
    pose proof (serialString_not_empty n) as Hne.
    assert (Hp : parseInt (serialString n) = Int n)
      by (apply parseInt_padStart; lia).
    destruct (serialString n) as [|c s] eqn:E; [contradiction|].
    rewrite Hp. cbn [succ_num toString]. rewrite roundDouble_safe by lia.
    split; [reflexivity|]. split; [lia|].
    destruct (serialTaken (Some (serialString (n + 1))) docs) eqn:Et; [|reflexivity].
    apply serialTaken_true in Et as [r' [Hin Hr']].
    rewrite Forall_forall in Hall. destruct (Hall r' Hin) as [m [Hm Hle]].
    rewrite Hm in Hr'. injection Hr' as Hr'.
    apply padStart_inj in Hr'; lia.
  - subst docs. split; [reflexivity|]. split; [lia | reflexivity].
Qed.

(** Storing the next serial keeps the collection in six digits and moves
    the next number on by one. *)
Lemma sd_six_step (docs : list Registration) (body : FormData)
    (certUrl formUrl : option string) :
  sixDigitStore docs -> nextValue docs < 1000000 ->
  let docs' := (docs ++ [registrationOf body (serialString (nextValue docs))
                           certUrl formUrl])%list in
  sixDigitStore docs' /\ nextValue docs' = nextValue docs + 1.
Proof.
  intros Hsix Hlt docs'.
  destruct (sd_nextSerial_six docs Hsix) as [_ [Hv _]].
  assert (Hp : parseInt (serialString (nextValue docs)) = Int (nextValue docs))
    by (apply parseInt_padStart; lia).
  split.
  - apply Forall_app. split; [exact Hsix|]. constructor; [|constructor].
    exists (nextValue docs). split; [reflexivity | lia].
  - pose proof (sd_findLast_max docs Hsix) as Hmax.
    unfold nextValue at 1. subst docs'. rewrite sd_findLast_app.
    cbn [serialOf registrationOf reg_data withSerialNumber serialNumber].
    destruct (findLast docs) as [b|] eqn:Eb.
    + destruct Hmax as [n [Hs [Hn _]]]. rewrite Hs. cbn [serialLtb].
      assert (Hnext : nextValue docs = n + 1).
      { unfold nextValue. rewrite Eb, Hs.
        now rewrite (parseInt_serialString n) by lia. }
      rewrite serialString_ltb by lia.
      destruct (Z.ltb_spec n (nextValue docs)); [|lia].
      cbn [serialOf registrationOf reg_data withSerialNumber serialNumber].
      now rewrite Hp.
    + cbn [serialOf registrationOf reg_data withSerialNumber serialNumber].
      now rewrite Hp.
Qed.

Lemma sd_servicesFailure_none (env : SubmitEnv) (body : FormData) :
  servicesFailure env body = None <-> servicesOk env body = true.
Proof.
  unfold servicesFailure, servicesOk.
  destruct (findOk env); cbn [negb andb]; [apply pipelineFailure_none|].
  split; discriminate.
Qed.

(** One submission whose PDFs have different paths, from a collection of
    six-digit serials: the serial is that of the next number, the unique
    index does not refuse it, and the collection stays in six digits. *)
Lemma sd_step (env : SubmitEnv) (body : FormData) (st : State) :
  sixDigitStore (store st) -> nextValue (store st) < 1000000 ->
  pathsDistinct env body = true ->
  let v := nextValue (store st) in
  let st1 := snd (submitForm env body st) in
  fst (getNextSerialNumber env st)
  = (if findOk env then Ok (serialString v) else Throw DatabaseError)
  /\ fst (submitForm env body st) = Ok (answerOf (servicesFailure env body))
  /\ store st1
     = (store st
        ++ if servicesOk env body
           then [registrationOf body (serialString v) (certUpload env) (formUpload env)]
           else [])%list
  /\ sixDigitStore (store st1)
  /\ nextValue (store st1) = (if servicesOk env body then v + 1 else v).
Proof.
  intros Hsix Hlt Hd v st1. subst st1.
  destruct (sd_nextSerial_six _ Hsix) as [Hserial [Hv Hfree]]. fold v in Hserial, Hv, Hfree.
  rewrite <- Hserial in Hfree.
  assert (Hstored : stored env body st = servicesOk env body).
  { unfold stored, servicesOk. rewrite Hfree. apply andb_true_r. }
  assert (Hsteps : stepsSucceed env body st = servicesOk env body).
  { unfold stepsSucceed. rewrite Hstored, Hd. apply andb_true_r. }
  assert (Hfirst : firstFailure env body st = servicesFailure env body).
  { unfold firstFailure, servicesFailure. rewrite Hfree, Hd.
    destruct (findOk env); [|reflexivity].
    now destruct (pipelineFailure env body). }
  split; [|split].
  - rewrite sd_getNextSerialNumber_eq. rewrite Hserial.
    now destruct (findOk env).
  - now rewrite sd_submitForm_answer, Hfirst.
  - destruct (servicesOk env body) eqn:Ep.
    + rewrite (sd_submitForm_success env body st Hsteps).
      cbn [snd successState store]. rewrite Hserial.
      split; [reflexivity|]. now apply sd_six_step.
    + destruct (sd_submitForm_failure env body st Hstored) as [_ [Hsame _]].
      rewrite Hsame, app_nil_r. split; [reflexivity|]. now split.
Qed.

(** A run of such submissions: the number moves on after each one whose
    services succeed, every submission is answered by its services alone,
    and is stored under its number when they succeed. *)
Lemma sd_run_allocation (subs : list (SubmitEnv * FormData)) (st : State) :
  sixDigitStore (store st) ->
  Forall (fun sub => pathsDistinct (fst sub) (snd sub) = true) subs ->
  nextValue (store st) + Z.of_nat (List.length subs) <= 1000000 ->
  let ns := allocated servicesOk (nextValue (store st)) subs in
  issued subs st = answersOfQuery subs ns
  /\ fst (run subs st)
     = map (fun sub => answerOf (servicesFailure (fst sub) (snd sub))) subs
  /\ store (snd (run subs st))
     = (store st ++ stamped (keptSubmissions servicesOk subs)
                      (keptNumbers servicesOk subs ns))%list.
Proof.
  revert st. induction subs as [|[env body] rest IH]; intros st Hsix Hd Hlen ns;
    subst ns.
  - cbn. now rewrite app_nil_r.
  - cbn [List.length] in Hlen. inversion Hd as [|? ? Hd1 Hdrest]; subst.
    cbn [fst snd] in Hd1.
    destruct (sd_step env body st Hsix) as [Hi [Ha [Hs [Hsix1 Hv1]]]];
      [lia | exact Hd1 |].
    destruct (IH _ Hsix1 Hdrest) as [IHi [IHa IHs]].
    { rewrite Hv1. destruct (servicesOk env body); lia. }
    rewrite Hv1 in IHi, IHs.
    destruct (sd_run_cons env body rest st) as [Hfst Hsnd].
    cbn [issued allocated answersOfQuery map keptSubmissions keptNumbers fst snd].
    split; [|split].
    + now rewrite Hi, IHi.
    + now rewrite Hfst, Ha, IHa.
    + rewrite Hsnd, IHs, Hs, <- app_assoc.
      destruct (servicesOk env body); reflexivity.
Qed.

End StoreDerivedRun.

(** * The scheduled flush *)

Lemma existsFile_addFile (p q : string) (fs : list string) :
  existsFile q (addFile p fs) = existsFile q fs || String.eqb q p.
Proof.
  unfold addFile. destruct (existsFile p fs) eqn:E.
  - destruct (String.eqb_spec q p) as [->|_].
    + rewrite E. reflexivity.
    + now rewrite orb_false_r.
  - unfold existsFile. rewrite existsb_app. cbn [existsb]. now rewrite orb_false_r.
Qed.

Module StoreDerivedFlush.

Import StoreDerived StoreDerivedSpec.

Ltac flush_steps :=
  unfold try_catch, writeFile, readFile, sgSend, unlink, modify;
  unfold bind, guard, get, ret, throw;
  unfold setFiles, setOutbox, setFileQueue;
  cbv beta iota zeta; cbn [files store fileQueue outbox fst snd].

Lemma sd_flush_empty (env : FlushEnv) (st : State) :
  fileQueue st = [] -> sendBatchedFacultyEmail env st = (Ok tt, st).
Proof.
  intros H. unfold sendBatchedFacultyEmail, bind, get. now rewrite H.
Qed.

Lemma sd_flush_success (env : FlushEnv) (st : State) :
  fileQueue st <> [] -> sendSucceeds env = true ->
  sendBatchedFacultyEmail env st =
    (Ok tt,
     {| files := removeFile (reportPath (flushNow env))
                   (addFile (reportPath (flushNow env)) (files st));
        store := store st;
        fileQueue := [];
        outbox := outbox st ++ [FacultyMail (fileQueue st) (store st)] |}).
Proof.
  intros Hq H. unfold sendSucceeds in H. apply andb_true_iff in H as [Hf Hs].
  destruct st as [fs docs [|item q] ob]; [contradiction|].
  unfold sendBatchedFacultyEmail. flush_steps. rewrite Hf, Hs. flush_steps.
  rewrite existsFile_addFile_same. flush_steps.
  rewrite existsFile_addFile_same. reflexivity.
Qed.

Lemma sd_flush_failure (env : FlushEnv) (st : State) :
  sendSucceeds env = false ->
  fst (sendBatchedFacultyEmail env st) = Ok tt
  /\ fileQueue (snd (sendBatchedFacultyEmail env st)) = fileQueue st
  /\ outbox (snd (sendBatchedFacultyEmail env st)) = outbox st
  /\ store (snd (sendBatchedFacultyEmail env st)) = store st.
Proof.
  intros H. unfold sendSucceeds in H.
  destruct st as [fs docs [|item q] ob]; [repeat split|].
  unfold sendBatchedFacultyEmail. flush_steps.
  destruct (flushFindOk env); [|repeat split].
  destruct (flushSendOk env); [discriminate|]. flush_steps.
  rewrite existsFile_addFile_same. repeat split.
Qed.

(** When the transport refuses the mail the spreadsheet stays on disk. *)
Lemma sd_flush_refused_keeps_report (env : FlushEnv) (st : State) :
  fileQueue st <> [] -> flushFindOk env = true -> flushSendOk env = false ->
  existsFile (reportPath (flushNow env))
    (files (snd (sendBatchedFacultyEmail env st))) = true.
Proof.
  intros Hq Hf Hs.
  destruct st as [fs docs [|item q] ob]; [contradiction|].
  unfold sendBatchedFacultyEmail. flush_steps. rewrite Hf, Hs. flush_steps.
  rewrite existsFile_addFile_same. cbn [snd files].
  apply existsFile_addFile_same.
Qed.

End StoreDerivedFlush.

Module FileBackedFlush.

Import FileBacked FileBackedSpec FileBackedFacts.

Ltac flush_steps :=
  unfold try_catch, writeFile, unlink, modify;
  unfold bind, guard, get, ret, throw;
  unfold setFiles, setOutbox, setFileQueue, setCounterFile, setStore;
  cbv beta iota zeta; cbn [counterFile files store fileQueue outbox fst snd].

Lemma fb_unlinkEach_eq (paths : list string) (st : State) :
  unlinkEach paths st = (Ok tt, setFiles (removeFiles paths (files st)) st).
Proof.
  revert st. induction paths as [|p paths IH]; intros st.
  - destruct st; reflexivity.
  - cbn [unlinkEach]. unfold bind at 1, try_catch, unlink.
    destruct (existsFile p (files st)) eqn:E.
    + rewrite IH. destruct st; reflexivity.
    + unfold ret. rewrite IH. unfold removeFiles. cbn [fold_left].
      now rewrite (removeFile_absent _ _ E).
Qed.

Lemma fb_existsFile_removeFiles (q : string) (paths fs : list string) :
  ~ In q paths -> existsFile q (removeFiles paths fs) = existsFile q fs.
Proof.
  unfold removeFiles. revert fs.
  induction paths as [|p paths IH]; intros fs Hq; [reflexivity|].
  cbn [fold_left]. rewrite IH by (intros H; apply Hq; right; exact H).
  rewrite existsFile_removeFile.
  destruct (String.eqb_spec p q) as [->|_].
  - exfalso; apply Hq; left; reflexivity.
  - apply andb_true_r.
Qed.

Lemma fb_attachments_present (tmp : string) (paths fs : list string) :
  ~ In tmp paths ->
  forallb (fun p => existsFile p (addFile tmp fs)) (paths ++ [tmp])
  = forallb (fun p => existsFile p fs) paths.
Proof.
  intros Ht. rewrite forallb_app. cbn [forallb].
  rewrite existsFile_addFile_same, !andb_true_r.
  induction paths as [|p paths IH]; [reflexivity|].
  cbn [forallb]. rewrite IH by (intros H; apply Ht; right; exact H).
  rewrite existsFile_addFile.
  destruct (String.eqb_spec p tmp) as [->|_].
  - exfalso; apply Ht; left; reflexivity.
  - now rewrite orb_false_r.
Qed.

Lemma fb_flush_empty (env : FlushEnv) (st : State) :
  fileQueue st = [] -> sendBatchedFacultyEmail env st = (Ok tt, st).
Proof.
  intros H. unfold sendBatchedFacultyEmail, bind, get. now rewrite H.
Qed.

Lemma fb_flush_success (env : FlushEnv) (st : State) :
  fileQueue st <> [] ->
  ~ In (reportPath (flushNow env)) (queuedPaths st) ->
  sendSucceeds env st = true ->
  sendBatchedFacultyEmail env st =
    (Ok tt,
     {| counterFile := counterFile st;
        files := removeFile (reportPath (flushNow env))
                   (removeFiles (queuedPaths st)
                      (addFile (reportPath (flushNow env)) (files st)));
        store := store st;
        fileQueue := [];
        outbox := outbox st
                  ++ [FacultyMail (queuedPaths st ++ [reportPath (flushNow env)])] |}).
Proof.
  intros Hq Ht H. unfold sendSucceeds in H.
  rewrite !andb_true_iff in H. destruct H as [[Hf Hp] Hs].
  unfold queuedPaths in *.
  destruct st as [c fs docs [|item q] ob]; [contradiction|].
  cbn [files fileQueue counterFile store outbox] in *.
  unfold sendBatchedFacultyEmail. flush_steps. rewrite Hf. flush_steps.
  rewrite fb_sendMail_eq. cbn [files outbox].
  rewrite (fb_attachments_present _ _ _ Ht), Hp, Hs. flush_steps.
  rewrite fb_unlinkEach_eq. flush_steps.
  rewrite (fb_existsFile_removeFiles _ _ _ Ht), existsFile_addFile_same.
  reflexivity.
Qed.

Lemma fb_flush_failure (env : FlushEnv) (st : State) :
  ~ In (reportPath (flushNow env)) (queuedPaths st) ->
  sendSucceeds env st = false ->
  fileQueue (snd (sendBatchedFacultyEmail env st)) = fileQueue st
  /\ outbox (snd (sendBatchedFacultyEmail env st)) = outbox st
  /\ store (snd (sendBatchedFacultyEmail env st)) = store st.
Proof.
  intros Ht H. unfold sendSucceeds in H. unfold queuedPaths in *.
  destruct st as [c fs docs [|item q] ob]; [repeat split|].
  cbn [files fileQueue counterFile store outbox] in *.
  unfold sendBatchedFacultyEmail. flush_steps.
  destruct (flushFindOk env); [|repeat split]. flush_steps.
  rewrite fb_sendMail_eq. cbn [files outbox].
  rewrite (fb_attachments_present _ _ _ Ht).
  destruct (forallb _ _); [|repeat split].
  destruct (flushSendOk env); [discriminate | repeat split].
Qed.

(** When the mail is not sent the spreadsheet, once written, stays on
    disk. *)
Lemma fb_flush_refused_keeps_report (env : FlushEnv) (st : State) :
  fileQueue st <> [] ->
  ~ In (reportPath (flushNow env)) (queuedPaths st) ->
  flushFindOk env = true -> sendSucceeds env st = false ->
  existsFile (reportPath (flushNow env))
    (files (snd (sendBatchedFacultyEmail env st))) = true.
Proof.
  intros Hq Ht Hf H. unfold sendSucceeds in H. rewrite Hf in H.
  unfold queuedPaths in *.
  destruct st as [c fs docs [|item q] ob]; [contradiction|].
  cbn [files fileQueue counterFile store outbox] in *.
  unfold sendBatchedFacultyEmail. flush_steps. rewrite Hf. flush_steps.
  rewrite fb_sendMail_eq. cbn [files outbox].
  rewrite (fb_attachments_present _ _ _ Ht).
  destruct (forallb _ _); [|apply existsFile_addFile_same].
  destruct (flushSendOk env); [discriminate | apply existsFile_addFile_same].
Qed.

(** The endpoint queues the paths of PDFs only, never the path of a
    spreadsheet report: the side condition of [fb_flush_success] holds in
    every state reached from an empty queue. *)
Lemma fb_submitForm_queues_no_report (env : SubmitEnv) (body : FormData)
    (st : State) (now : Z) :
  ~ In (reportPath now) (queuedPaths st) ->
  ~ In (reportPath now) (queuedPaths (snd (submitForm env body st))).
Proof.
  intros Hq. unfold queuedPaths in *.
  destruct (stepsSucceed env body st) eqn:Es.
  - rewrite (FileBackedEndpoint.fb_submitForm_success env body st Es).
    cbn [snd successState fileQueue]. rewrite map_app, in_app_iff.
    cbn [map path In]. intros [H|[H|[H|[]]]].
    + exact (Hq H).
    + exact (certificate_path_not_report _ _ _ H).
    + exact (application_path_not_report _ _ _ H).
  - destruct (FileBackedEndpoint.fb_submitForm_failure env body st Es)
      as [_ [_ [Hsame _]]].
    now rewrite Hsame.
Qed.

Lemma fb_flush_queues_no_report (env : FlushEnv) (st : State) (now : Z) :
  ~ In (reportPath (flushNow env)) (queuedPaths st) ->
  ~ In (reportPath now) (queuedPaths st) ->
  ~ In (reportPath now) (queuedPaths (snd (sendBatchedFacultyEmail env st))).
Proof.
  intros Ht Hq. unfold queuedPaths in *.
  destruct (fileQueue st) as [|item q] eqn:Eq.
  - rewrite (fb_flush_empty env st Eq). cbn [snd]. now rewrite Eq.
  - destruct (sendSucceeds env st) eqn:Es.
    + rewrite fb_flush_success; [intros [] | now rewrite Eq | | exact Es].
      unfold queuedPaths. now rewrite Eq.
    + destruct (fb_flush_failure env st) as [Hsame _];
        [unfold queuedPaths; now rewrite Eq | exact Es |].
      now rewrite Hsame, Eq.
Qed.

End FileBackedFlush.

(** * Properties of the specification *)

Lemma serialsInOrder_intro (before after : list Registration)
    (done : list (SubmitEnv * FormData)) (ns : list Z) :
  StronglySorted Z.lt ns -> Forall (fun n => 0 <= n <= 9007199254740992) ns ->
  List.length ns = List.length done ->
  after = (before ++ stamped done ns)%list ->
  serialsInOrder before after done ns.
Proof.
  intros Hs Hp Hl Ha. repeat split; try assumption.
  - eapply Forall_impl; [|exact Hp]. cbv beta; intros n Hn.
    now apply parseInt_serialString.
  - apply sorted_serials_NoDup; [exact Hs|].
    eapply Forall_impl; [|exact Hp]. cbv beta; intros; lia.
Qed.

(** C1.  In both revisions, for every sequence of submissions handled one
    after the other: the serials [getNextSerialNumber] returns are those of
    the numbers allocated in order from the counter source, every
    submission is answered by its own services alone (the unique index
    never refuses a serial), and the registrations of the submissions
    answered 200 are stored under the numbers allocated to them, which
    increase strictly and give pairwise distinct serials.  File-backed: the
    counter file is absent or holds a non-negative number, no stored serial
    reads as a number above it, and the count stays within 2^53; every
    submission uses up a number.  Store-derived: the stored serials are
    six-digit serials, the numbers stay below one million, and the two
    PDFs of each submission have different paths; a number is used up by
    the submissions that are stored. *)
Theorem serials_distinct_and_increasing :
  (forall (subs : list (SubmitEnv * FormData)) (st : FileBacked.State),
      counterOk (FileBacked.counterFile st) ->
      storeBelow (FileBackedSpec.counterValue (FileBacked.counterFile st))
        (FileBacked.store st) ->
      FileBackedSpec.counterValue (FileBacked.counterFile st)
        + Z.of_nat (List.length subs) <= 9007199254740992 ->
      let ns := allocated (fun _ _ => true)
                  (FileBackedSpec.counterValue (FileBacked.counterFile st) + 1) subs in
      let answers := fst (FileBackedSpec.run subs st) in
      FileBackedSpec.issued subs st = map (fun n => Ok (serialString n)) ns
      /\ StronglySorted Z.lt ns
      /\ NoDup (map serialString ns)
      /\ answers = map (fun sub => answerOf (pipelineFailure (fst sub) (snd sub))) subs
      /\ serialsInOrder (FileBacked.store st)
           (FileBacked.store (snd (FileBackedSpec.run subs st)))
           (completed subs answers) (keptNumbers pipelineOk subs ns))
  /\ (forall (subs : list (SubmitEnv * FormData)) (st : StoreDerived.State),
      sixDigitStore (StoreDerived.store st) ->
      Forall (fun sub => pathsDistinct (fst sub) (snd sub) = true) subs ->
      StoreDerivedSpec.nextValue (StoreDerived.store st)
        + Z.of_nat (List.length subs) <= 1000000 ->
      let ns := allocated StoreDerivedSpec.servicesOk
                  (StoreDerivedSpec.nextValue (StoreDerived.store st)) subs in
      let answers := fst (StoreDerivedSpec.run subs st) in
      StoreDerivedSpec.issued subs st = StoreDerivedSpec.answersOfQuery subs ns
      /\ answers
         = map (fun sub => answerOf (StoreDerivedSpec.servicesFailure (fst sub) (snd sub)))
             subs
      /\ serialsInOrder (StoreDerived.store st)
           (StoreDerived.store (snd (StoreDerivedSpec.run subs st)))
           (completed subs answers)
           (keptNumbers StoreDerivedSpec.servicesOk subs ns)).
Proof.
  split.
  - intros subs st Hok Hb Hlen ns answers.
    pose proof (FileBackedRun.fb_counterValue_nonneg _ Hok) as Hc.
    destruct (FileBackedRun.fb_run_allocation subs st Hok Hb Hlen) as [Hi [Ha Hs]].
    fold ns in Hi, Hs. fold answers in Ha.
    assert (Hrange : Forall (fun n => 0 <= n <= 9007199254740992) ns).
    { eapply Forall_impl; [|apply allocated_range]. cbv beta. intros n Hn. lia. }
    split; [exact Hi|]. split; [apply allocated_sorted|]. split.
    { apply sorted_serials_NoDup; [apply allocated_sorted|].
      eapply Forall_impl; [|exact Hrange]. cbv beta; intros; lia. }
    split; [exact Ha|].
    rewrite Ha, (completed_answers pipelineOk pipelineFailure subs pipelineFailure_none).
    apply serialsInOrder_intro.
    + apply keptNumbers_sorted. reflexivity.
    + now apply keptNumbers_Forall.
    + apply keptNumbers_length.
    + exact Hs.
  - intros subs st Hsix Hd Hlen ns answers.
    destruct (StoreDerivedRun.sd_nextSerial_six _ Hsix) as [_ [Hv _]].
    destruct (StoreDerivedRun.sd_run_allocation subs st Hsix Hd Hlen) as [Hi [Ha Hs]].
    fold ns in Hi, Hs. fold answers in Ha.
    split; [exact Hi|]. split; [exact Ha|].
    rewrite Ha, (completed_answers StoreDerivedSpec.servicesOk
                   StoreDerivedSpec.servicesFailure subs
                   StoreDerivedRun.sd_servicesFailure_none).
    apply serialsInOrder_intro.
    + apply keptNumbers_sorted. auto.
    + apply keptNumbers_Forall.
      eapply Forall_impl; [|apply allocated_range]. cbv beta. intros n Hn. lia.
    + apply keptNumbers_length.
    + exact Hs.
Qed.

Lemma serials_distinct_and_increasing_witness :
  (counterOk (FileBacked.counterFile freshFileBacked)
   /\ FileBackedSpec.issued
        [(sampleEnv, sampleBody); (brokenEnv, sampleBody); (sampleEnv, sampleBody)]
        freshFileBacked
      = [Ok "000819"; Ok "000820"; Ok "000821"]
   /\ fst (FileBackedSpec.run
             [(sampleEnv, sampleBody); (brokenEnv, sampleBody); (sampleEnv, sampleBody)]
             freshFileBacked)
      = [Status200; Status500 BrowserError; Status200])
  /\ (sixDigitStore (StoreDerived.store freshStoreDerived)
      /\ StoreDerivedSpec.issued
           [(sampleEnv, sampleBody); (brokenEnv, sampleBody); (sampleEnv, sampleBody)]
           freshStoreDerived
         = [Ok "000819"; Ok "000820"; Ok "000820"]
      /\ fst (StoreDerivedSpec.run
                [(sampleEnv, sampleBody); (brokenEnv, sampleBody); (sampleEnv, sampleBody)]
                freshStoreDerived)
         = [Status200; Status500 BrowserError; Status200]).
Proof.
  split.
  - split; [exact I|].
    destruct (proj1 serials_distinct_and_increasing
                [(sampleEnv, sampleBody); (brokenEnv, sampleBody); (sampleEnv, sampleBody)]
                freshFileBacked I) as [Hi [_ [_ [Ha _]]]];
      [constructor | cbn; lia |].
    split; [exact Hi | exact Ha].
  - split; [constructor|].
    destruct (proj2 serials_distinct_and_increasing
                [(sampleEnv, sampleBody); (brokenEnv, sampleBody); (sampleEnv, sampleBody)]
                freshStoreDerived) as [Hi [Ha _]];
      [constructor | repeat constructor | cbn; lia |].
    split; [exact Hi | exact Ha].
Defined.

(** C2.  A flush of a non-empty queue whose mail is sent leaves the queue
    empty, has sent exactly one batch mail, which carries every queued
    entry, and has deleted the temporary spreadsheet.  A flush whose mail
    is not sent leaves the queue and the outbox as they were (and the
    spreadsheet, once written, on disk), so that a later flush that
    succeeds sends every entry, once.  In the file-backed revision the
    queued paths are those of PDFs, none of them the spreadsheet's. *)
Theorem flush_clears_queue_only_on_success :
  (forall (env : FlushEnv) (st : FileBacked.State),
      FileBacked.fileQueue st <> [] ->
      ~ In (reportPath (flushNow env)) (FileBackedSpec.queuedPaths st) ->
      let st' := snd (FileBacked.sendBatchedFacultyEmail env st) in
      (FileBackedSpec.sendSucceeds env st = true ->
         FileBacked.fileQueue st' = []
         /\ FileBacked.outbox st' =
              (FileBacked.outbox st ++
               [FileBacked.FacultyMail
                  (FileBackedSpec.queuedPaths st ++ [reportPath (flushNow env)])])%list
         /\ existsFile (reportPath (flushNow env)) (FileBacked.files st') = false)
      /\ (FileBackedSpec.sendSucceeds env st = false ->
         FileBacked.fileQueue st' = FileBacked.fileQueue st
         /\ FileBacked.outbox st' = FileBacked.outbox st
         /\ (flushFindOk env = true ->
             existsFile (reportPath (flushNow env)) (FileBacked.files st') = true)
         /\ forall env2 : FlushEnv,
              ~ In (reportPath (flushNow env2)) (FileBackedSpec.queuedPaths st) ->
              FileBackedSpec.sendSucceeds env2 st' = true ->
              let st'' := snd (FileBacked.sendBatchedFacultyEmail env2 st') in
              FileBacked.fileQueue st'' = []
              /\ FileBacked.outbox st'' =
                   (FileBacked.outbox st ++
                    [FileBacked.FacultyMail
                       (FileBackedSpec.queuedPaths st
                        ++ [reportPath (flushNow env2)])])%list))
  /\ (forall (env : FlushEnv) (st : StoreDerived.State),
      StoreDerived.fileQueue st <> [] ->
      let st' := snd (StoreDerived.sendBatchedFacultyEmail env st) in
      (StoreDerivedSpec.sendSucceeds env = true ->
         StoreDerived.fileQueue st' = []
         /\ StoreDerived.outbox st' =
              (StoreDerived.outbox st ++
               [StoreDerived.FacultyMail (StoreDerived.fileQueue st)
                  (StoreDerived.store st)])%list
         /\ existsFile (reportPath (flushNow env)) (StoreDerived.files st') = false)
      /\ (StoreDerivedSpec.sendSucceeds env = false ->
         StoreDerived.fileQueue st' = StoreDerived.fileQueue st
         /\ StoreDerived.outbox st' = StoreDerived.outbox st
         /\ (flushFindOk env = true ->
             existsFile (reportPath (flushNow env)) (StoreDerived.files st') = true)
         /\ forall env2 : FlushEnv,
              StoreDerivedSpec.sendSucceeds env2 = true ->
              let st'' := snd (StoreDerived.sendBatchedFacultyEmail env2 st') in
              StoreDerived.fileQueue st'' = []
              /\ StoreDerived.outbox st'' =
                   (StoreDerived.outbox st ++
                    [StoreDerived.FacultyMail (StoreDerived.fileQueue st)
                       (StoreDerived.store st)])%list)).
Proof.
  split.
  - intros env st Hq Ht st'. subst st'. split.
    + intros Hs. rewrite (FileBackedFlush.fb_flush_success env st Hq Ht Hs).
      cbn [snd FileBacked.fileQueue FileBacked.outbox FileBacked.files].
      repeat split. apply existsFile_removeFile_same.
    + intros Hs.
      destruct (FileBackedFlush.fb_flush_failure env st Ht Hs) as [Hq' [Ho' _]].
      split; [exact Hq'|]. split; [exact Ho'|]. split.
      * intros Hf. now apply FileBackedFlush.fb_flush_refused_keeps_report.
      * intros env2 Ht2 Hs2 st''. subst st''.
        assert (Hp : FileBackedSpec.queuedPaths
                       (snd (FileBacked.sendBatchedFacultyEmail env st))
                     = FileBackedSpec.queuedPaths st)
          by (unfold FileBackedSpec.queuedPaths; now rewrite Hq').
        rewrite FileBackedFlush.fb_flush_success;
          [| now rewrite Hq' | now rewrite Hp | exact Hs2].
        cbn [snd FileBacked.fileQueue FileBacked.outbox].
        now rewrite Hp, Ho'.
  - intros env st Hq st'. subst st'. split.
    + intros Hs. rewrite (StoreDerivedFlush.sd_flush_success env st Hq Hs).
      cbn [snd StoreDerived.fileQueue StoreDerived.outbox StoreDerived.files].
      repeat split. apply existsFile_removeFile_same.
    + intros Hs.
      destruct (StoreDerivedFlush.sd_flush_failure env st Hs) as [_ [Hq' [Ho' Hd']]].
      split; [exact Hq'|]. split; [exact Ho'|]. split.
      * intros Hf. apply StoreDerivedFlush.sd_flush_refused_keeps_report; try assumption.
        unfold StoreDerivedSpec.sendSucceeds in Hs. rewrite Hf in Hs. exact Hs.
      * intros env2 Hs2 st''. subst st''.
        rewrite StoreDerivedFlush.sd_flush_success; [| now rewrite Hq' | exact Hs2].
        cbn [snd StoreDerived.fileQueue StoreDerived.outbox].
        now rewrite Hq', Ho', Hd'.
Qed.

Lemma flush_clears_queue_only_on_success_witness :
  (FileBacked.fileQueue queuedFileBacked <> []
   /\ ~ In (reportPath (flushNow sendingEnv)) (FileBackedSpec.queuedPaths queuedFileBacked)
   /\ FileBackedSpec.sendSucceeds sendingEnv queuedFileBacked = true
   /\ FileBacked.fileQueue
        (snd (FileBacked.sendBatchedFacultyEmail sendingEnv queuedFileBacked)) = [])
  /\ (~ In (reportPath (flushNow refusingEnv)) (FileBackedSpec.queuedPaths queuedFileBacked)
      /\ FileBackedSpec.sendSucceeds refusingEnv queuedFileBacked = false
      /\ FileBacked.fileQueue
           (snd (FileBacked.sendBatchedFacultyEmail refusingEnv queuedFileBacked))
         = FileBacked.fileQueue queuedFileBacked)
  /\ (StoreDerived.fileQueue queuedStoreDerived <> []
      /\ StoreDerivedSpec.sendSucceeds sendingEnv = true
      /\ StoreDerived.fileQueue
           (snd (StoreDerived.sendBatchedFacultyEmail sendingEnv queuedStoreDerived)) = [])
  /\ (StoreDerivedSpec.sendSucceeds refusingEnv = false
      /\ StoreDerived.fileQueue
           (snd (StoreDerived.sendBatchedFacultyEmail refusingEnv queuedStoreDerived))
         = StoreDerived.fileQueue queuedStoreDerived).
Proof.
  assert (Hq1 : FileBacked.fileQueue queuedFileBacked <> []) by (vm_compute; discriminate).
  assert (Hq2 : StoreDerived.fileQueue queuedStoreDerived <> []) by (vm_compute; discriminate).
  assert (Ht1 : ~ In (reportPath (flushNow sendingEnv))
                    (FileBackedSpec.queuedPaths queuedFileBacked))
    by (vm_compute; intros [H|[H|[]]]; discriminate).
  assert (Ht2 : ~ In (reportPath (flushNow refusingEnv))
                    (FileBackedSpec.queuedPaths queuedFileBacked))
    by (vm_compute; intros [H|[H|[]]]; discriminate).
  split; [|split; [|split]].
  - split; [exact Hq1|]. split; [exact Ht1|]. split; [reflexivity|].
    apply (proj1 (proj1 flush_clears_queue_only_on_success
                    sendingEnv queuedFileBacked Hq1 Ht1)).
    reflexivity.
  - split; [exact Ht2|]. split; [reflexivity|].
    apply (proj2 (proj1 flush_clears_queue_only_on_success
                    refusingEnv queuedFileBacked Hq1 Ht2)).
    reflexivity.
  - split; [exact Hq2|]. split; [reflexivity|].
    apply (proj1 (proj2 flush_clears_queue_only_on_success
                    sendingEnv queuedStoreDerived Hq2)).
    reflexivity.
  - split; [reflexivity|].
    apply (proj2 (proj2 flush_clears_queue_only_on_success
                    refusingEnv queuedStoreDerived Hq2)).
    reflexivity.
Defined.

(** When the counter file is absent, and when the collection is empty, the
    first serial is the seed plus one. *)
Lemma missing_counter_serial (st : FileBacked.State) :
  FileBacked.counterFile st = None ->
  FileBacked.getNextSerialNumber st
  = (Ok "000819", FileBacked.setCounterFile (Some "819") st).
Proof.
  intros H. rewrite FileBackedFacts.fb_getNextSerialNumber_eq, H. reflexivity.
Qed.

Lemma empty_store_serial (env : SubmitEnv) (st : StoreDerived.State) :
  findOk env = true -> StoreDerived.store st = [] ->
  StoreDerived.getNextSerialNumber env st = (Ok "000819", st).
Proof.
  intros Hf H. rewrite StoreDerivedFacts.sd_getNextSerialNumber_eq, Hf.
  unfold StoreDerivedSpec.nextSerial. rewrite H. reflexivity.
Qed.

(** Any counter file that [parseInt] cannot read gives the serial
    "000NaN". *)
Lemma unparseable_counter_serial (st : FileBacked.State) (data : string) :
  FileBacked.counterFile st = Some data -> parseInt data = NaN ->
  FileBacked.getNextSerialNumber st
  = (Ok "000NaN", FileBacked.setCounterFile (Some "NaN") st).
Proof.
  intros Hc Hp. rewrite FileBackedFacts.fb_getNextSerialNumber_eq.
  unfold FileBackedSpec.nextSerial, FileBackedSpec.nextNumber.
  rewrite Hc, Hp. reflexivity.
Qed.

(** C3, at the failing input.  With a counter file that holds text that
    is not a number, [parseInt] returns [NaN] without throwing, so the
    fallback of the [catch] block is not taken: the serial is "000NaN", not
    "000819", "NaN" is written back, and the next call returns the same
    serial.  An empty counter file behaves the same. *)
Theorem corrupt_counter_yields_NaN :
  FileBacked.getNextSerialNumber corruptFileBacked
  = (Ok "000NaN", FileBacked.setCounterFile (Some "NaN") corruptFileBacked)
  /\ fst (FileBacked.getNextSerialNumber
            (snd (FileBacked.getNextSerialNumber corruptFileBacked)))
     = Ok "000NaN"
  /\ fst (FileBacked.getNextSerialNumber
            (FileBacked.setCounterFile (Some "") freshFileBacked))
     = Ok "000NaN".
Proof. repeat split. Qed.

Lemma replaceWhiteSpaceRuns_clean (inRun : bool) (s : string) :
  hasWhiteSpace (replaceWhiteSpaceRuns inRun s) = false.
Proof.
  revert inRun. induction s as [|c s IH]; intros inRun; [reflexivity|].
  cbn [replaceWhiteSpaceRuns].
  destruct (isWhiteSpace c) eqn:E.
  - destruct inRun; [apply IH|]. cbn [hasWhiteSpace]. rewrite IH. reflexivity.
  - cbn [hasWhiteSpace]. rewrite E, IH. reflexivity.
Qed.

Lemma sanitizedName_clean (data : FormData) (name : string) :
  sanitizedName data = Ok name -> hasWhiteSpace name = false.
Proof.
  unfold sanitizedName. destruct (applicantName data); [|discriminate].
  intros [= <-]. apply replaceWhiteSpaceRuns_clean.
Qed.

(** Without [applicantName] no render call returns, whatever the
    environment and the state: the certificate throws at the name, the
    application form at the name too, unless the browser has rejected the
    selector of the caste radio button before. *)
Lemma renderers_throw_without_name (env : SubmitEnv) (data : FormData) :
  applicantName data = None ->
  (forall st : FileBacked.State,
      fst (FileBacked.generateCertificate env data st)
      = Throw (if certBrowserOk env then TypeError else BrowserError)
      /\ fst (FileBacked.generateApplicationFormPdf env data st)
         = Throw (if formBrowserOk env
                  then if formFieldsOk env data then TypeError else SyntaxError
                  else BrowserError))
  /\ (forall st : StoreDerived.State,
      fst (StoreDerived.generateCertificate env data st)
      = Throw (if certBrowserOk env then TypeError else BrowserError)
      /\ fst (StoreDerived.generateApplicationFormPdf env data st)
         = Throw (if formBrowserOk env
                  then if formFieldsOk env data then TypeError else SyntaxError
                  else BrowserError)).
Proof.
  intros Hn.
  assert (Hr : renderable data = false) by (unfold renderable; now rewrite Hn).
  assert (Hs : sanitizedName data = Throw TypeError)
    by (unfold sanitizedName; now rewrite Hn).
  split; intros st; split.
  - rewrite FileBackedFacts.fb_generateCertificate_eq.
    rewrite (certificateFields_not_renderable _ Hr).
    now destruct (certBrowserOk env).
  - rewrite FileBackedFacts.fb_generateApplicationFormPdf_eq, Hs.
    now destruct (formBrowserOk env), (formFieldsOk env data).
  - rewrite StoreDerivedFacts.sd_generateCertificate_eq.
    rewrite (certificateFields_not_renderable _ Hr).
    now destruct (certBrowserOk env).
  - rewrite StoreDerivedFacts.sd_generateApplicationFormPdf_eq, Hs.
    now destruct (formBrowserOk env), (formFieldsOk env data).
Qed.

(** C6, at the failing input.  For a record without [applicantName] both
    renderers throw a [TypeError], in both revisions: the certificate when
    it upper-cases the name, the application form, whose fields are filled
    defensively, when it derives the file name; the endpoint answers 500. *)
Theorem renderers_crash_without_name :
  fst (FileBacked.generateCertificate sampleEnv namelessBody freshFileBacked)
  = Throw TypeError
  /\ fst (FileBacked.generateApplicationFormPdf sampleEnv namelessBody freshFileBacked)
     = Throw TypeError
  /\ fst (StoreDerived.generateCertificate sampleEnv namelessBody freshStoreDerived)
     = Throw TypeError
  /\ fst (StoreDerived.generateApplicationFormPdf sampleEnv namelessBody freshStoreDerived)
     = Throw TypeError
  /\ fst (FileBacked.submitForm sampleEnv namelessBody freshFileBacked)
     = Ok (Status500 TypeError)
  /\ fst (StoreDerived.submitForm sampleEnv namelessBody freshStoreDerived)
     = Ok (Status500 TypeError).
Proof. repeat split. Qed.

(** C7.  When an upload to Cloudinary fails while the other steps of the
    submission succeed, the endpoint still answers 200 and the
    registration is stored with [null] in the URL field of the failed
    upload.  The other steps are both renders (the browser runs, the
    fields can be read, the selector of the caste radio button parses,
    the PDFs are printed) and the save under the unique index; in the
    store-derived revision also the query for the last serial and the
    two [unlink] calls, which succeed when the PDFs have different
    paths. *)
Theorem upload_failure_not_fatal :
  (forall (env : SubmitEnv) (body : FormData) (st : FileBacked.State),
      FileBackedSpec.stepsSucceed env body st = true ->
      certUpload env = None \/ formUpload env = None ->
      fst (FileBacked.submitForm env body st) = Ok Status200
      /\ exists r,
           FileBacked.store (snd (FileBacked.submitForm env body st))
           = (FileBacked.store st ++ [r])%list
           /\ reg_data r = withSerialNumber body
                             (FileBackedSpec.nextSerial (FileBacked.counterFile st))
           /\ (certUpload env = None -> certificateUrl r = None)
           /\ (formUpload env = None -> applicationFormUrl r = None))
  /\ (forall (env : SubmitEnv) (body : FormData) (st : StoreDerived.State),
      StoreDerivedSpec.stepsSucceed env body st = true ->
      certUpload env = None \/ formUpload env = None ->
      fst (StoreDerived.submitForm env body st) = Ok Status200
      /\ exists r,
           StoreDerived.store (snd (StoreDerived.submitForm env body st))
           = (StoreDerived.store st ++ [r])%list
           /\ reg_data r = withSerialNumber body
                             (StoreDerivedSpec.nextSerial (StoreDerived.store st))
           /\ (certUpload env = None -> certificateUrl r = None)
           /\ (formUpload env = None -> applicationFormUrl r = None)).
Proof.
  split; intros env body st Hs _.
  - rewrite (FileBackedEndpoint.fb_submitForm_success env body st Hs).
    split; [reflexivity|]. eexists. split; [reflexivity|]. repeat split; auto.
  - rewrite (StoreDerivedEndpoint.sd_submitForm_success env body st Hs).
    split; [reflexivity|]. eexists. split; [reflexivity|]. repeat split; auto.
Qed.

Lemma upload_failure_not_fatal_witness :
  (FileBackedSpec.stepsSucceed sampleEnv sampleBody freshFileBacked = true
   /\ certUpload sampleEnv = None
   /\ fst (FileBacked.submitForm sampleEnv sampleBody freshFileBacked) = Ok Status200)
  /\ (StoreDerivedSpec.stepsSucceed sampleEnv sampleBody freshStoreDerived = true
      /\ certUpload sampleEnv = None
      /\ fst (StoreDerived.submitForm sampleEnv sampleBody freshStoreDerived)
         = Ok Status200).
Proof.
  split.
  - split; [reflexivity|]. split; [reflexivity|].
    apply (proj1 upload_failure_not_fatal sampleEnv sampleBody freshFileBacked);
      [reflexivity | left; reflexivity].
  - split; [reflexivity|]. split; [reflexivity|].
    apply (proj2 upload_failure_not_fatal sampleEnv sampleBody freshStoreDerived);
      [reflexivity | left; reflexivity].
Defined.

(** C8, as stated, fails on the file-backed revision: there the uploader
    itself unlinks the local PDF once Cloudinary has accepted it. *)
Lemma file_backed_uploader_deletes_local_file :
  existsFile "/usr/src/app/output/Certificate-Asha_Rao-1700000000000.pdf"
    (FileBacked.files pendingUpload) = true
  /\ FileBacked.uploadToCloudinary
       (Some "https://res.cloudinary.com/citd/certificate.pdf")
       "/usr/src/app/output/Certificate-Asha_Rao-1700000000000.pdf"
       (Some "Asha Rao") pendingUpload
     = (Ok (Some "https://res.cloudinary.com/citd/certificate.pdf"),
        FileBacked.setFiles [] pendingUpload)
  /\ existsFile "/usr/src/app/output/Certificate-Asha_Rao-1700000000000.pdf"
       (FileBacked.files
          (snd (FileBacked.uploadToCloudinary
                  (Some "https://res.cloudinary.com/citd/certificate.pdf")
                  "/usr/src/app/output/Certificate-Asha_Rao-1700000000000.pdf"
                  (Some "Asha Rao") pendingUpload))) = false.
Proof. repeat split. Qed.

(** C8, amended.  In the store-derived revision the uploader leaves the
    state, the local files included, as it found it; the PDF is still on
    disk when a render call returns; and the endpoint has deleted both
    PDFs when it answers 200.  In the file-backed revision the uploader
    deletes the local file exactly when Cloudinary accepted the upload. *)
Theorem local_file_lifecycle :
  (forall cloud p n (st : StoreDerived.State),
      snd (StoreDerived.uploadToCloudinary cloud p n st) = st)
  /\ (forall env data (st st' : StoreDerived.State) doc,
      StoreDerived.generateCertificate env data st = (Ok doc, st')
      \/ StoreDerived.generateApplicationFormPdf env data st = (Ok doc, st') ->
      existsFile (doc_path doc) (StoreDerived.files st') = true)
  /\ (forall env body (st : StoreDerived.State),
      fst (StoreDerived.submitForm env body st) = Ok Status200 ->
      existsFile (certificatePath env body)
        (StoreDerived.files (snd (StoreDerived.submitForm env body st))) = false
      /\ existsFile (applicationPath env body)
           (StoreDerived.files (snd (StoreDerived.submitForm env body st))) = false)
  /\ (forall cloud p n (st : FileBacked.State),
      FileBacked.files (snd (FileBacked.uploadToCloudinary cloud p n st))
      = match cloud with
        | Some _ => removeFile p (FileBacked.files st)
        | None => FileBacked.files st
        end).
Proof.
  split; [|split; [|split]].
  - intros. now rewrite StoreDerivedFacts.sd_uploadToCloudinary_eq.
  - intros env data st st' doc [H|H].
    + rewrite StoreDerivedFacts.sd_generateCertificate_eq in H.
      destruct (certBrowserOk env); [|discriminate].
      destruct (certificateFields data); [|discriminate].
      destruct (sanitizedName data); [|discriminate].
      destruct (certPdfOk env); [|discriminate].
      injection H as <- <-. destruct st. apply existsFile_addFile_same.
    + rewrite StoreDerivedFacts.sd_generateApplicationFormPdf_eq in H.
      destruct (formBrowserOk env); [|discriminate].
      destruct (formFieldsOk env data); [|discriminate].
      destruct (sanitizedName data); [|discriminate].
      destruct (formPdfOk env); [|discriminate].
      injection H as <- <-. destruct st. apply existsFile_addFile_same.
  - intros env body st H.
    destruct (StoreDerivedSpec.stepsSucceed env body st) eqn:Es.
    + rewrite (StoreDerivedEndpoint.sd_submitForm_success env body st Es).
      cbn [snd StoreDerivedSpec.successState StoreDerived.files].
      split.
      * rewrite existsFile_removeFile, existsFile_removeFile_same. reflexivity.
      * apply existsFile_removeFile_same.
    + destruct (StoreDerivedEndpoint.sd_submitForm_rejected env body st Es) as [e He].
      congruence.
  - intros cloud p n st. rewrite FileBackedFacts.fb_uploadToCloudinary_eq.
    destruct cloud; [|reflexivity].
    destruct (existsFile p (FileBacked.files st)) eqn:E.
    + destruct st; reflexivity.
    + cbn [snd]. now rewrite removeFile_absent.
Qed.

Lemma local_file_lifecycle_witness :
  StoreDerived.generateCertificate sampleEnv (withSerialNumber sampleBody "000819")
    freshStoreDerived
  = (Ok {| doc_path := certificatePath sampleEnv sampleBody; doc_url := None |},
     StoreDerived.setFiles [certificatePath sampleEnv sampleBody] freshStoreDerived)
  /\ existsFile (certificatePath sampleEnv sampleBody)
       (StoreDerived.files
          (StoreDerived.setFiles [certificatePath sampleEnv sampleBody]
             freshStoreDerived)) = true
  /\ fst (StoreDerived.submitForm sampleEnv sampleBody freshStoreDerived) = Ok Status200
  /\ existsFile (certificatePath sampleEnv sampleBody)
       (StoreDerived.files
          (snd (StoreDerived.submitForm sampleEnv sampleBody freshStoreDerived))) = false.
Proof.
  assert (Hgen : StoreDerived.generateCertificate sampleEnv
                   (withSerialNumber sampleBody "000819") freshStoreDerived
                 = (Ok {| doc_path := certificatePath sampleEnv sampleBody;
                          doc_url := None |},
                    StoreDerived.setFiles [certificatePath sampleEnv sampleBody]
                      freshStoreDerived)) by reflexivity.
  assert (Hok : fst (StoreDerived.submitForm sampleEnv sampleBody freshStoreDerived)
                = Ok Status200) by reflexivity.
  split; [exact Hgen|]. split; [|split; [exact Hok|]].
  - exact (proj1 (proj2 local_file_lifecycle) _ _ _ _ _ (or_introl Hgen)).
  - exact (proj1 (proj1 (proj2 (proj2 local_file_lifecycle)) _ _ _ Hok)).
Defined.

(** C9.  In both revisions [uploadToCloudinary] returns for every input and
    every state, never throws: a URL only if Cloudinary accepted the
    upload, and [null] whenever it did not. *)
Theorem uploadToCloudinary_never_throws (cloud : option string) (p : string)
    (n : option string) :
  (forall st : FileBacked.State,
      exists r st',
        FileBacked.uploadToCloudinary cloud p n st = (Ok r, st')
        /\ (cloud = None -> r = None)
        /\ (forall url, r = Some url -> cloud = Some url)
        /\ (forall url, cloud = Some url ->
              existsFile p (FileBacked.files st) = true -> r = Some url))
  /\ (forall st : StoreDerived.State,
      StoreDerived.uploadToCloudinary cloud p n st = (Ok cloud, st)).
Proof.
  split; intros st.
  - rewrite FileBackedFacts.fb_uploadToCloudinary_eq.
    destruct cloud as [u|].
    + destruct (existsFile p (FileBacked.files st)).
      * do 2 eexists. split; [reflexivity|]. repeat split; congruence.
      * do 2 eexists. split; [reflexivity|]. repeat split; congruence.
    + do 2 eexists. split; [reflexivity|]. repeat split; congruence.
  - apply StoreDerivedFacts.sd_uploadToCloudinary_eq.
Qed.

Lemma uploadToCloudinary_never_throws_witness :
  exists r st',
    FileBacked.uploadToCloudinary None
      "/usr/src/app/output/Certificate-Asha_Rao-1700000000000.pdf" (Some "Asha Rao")
      pendingUpload = (Ok r, st')
    /\ r = None.
Proof.
  destruct (proj1 (uploadToCloudinary_never_throws None
              "/usr/src/app/output/Certificate-Asha_Rao-1700000000000.pdf"
              (Some "Asha Rao")) pendingUpload) as [r [st' [Hrun [Hnone _]]]].
  exists r, st'. split; [exact Hrun | exact (Hnone eq_refl)].
Defined.

(** At 2^53 the count stops: [currentNumber + 1] is the same double, and
    the same serial is returned and written back at every call. *)
Lemma counter_stops_at_2_53 (st : FileBacked.State) :
  FileBacked.counterFile st = Some "9007199254740992" ->
  FileBacked.getNextSerialNumber st
  = (Ok "9007199254740992",
     FileBacked.setCounterFile (Some "9007199254740992") st).
Proof.
  intros H. rewrite FileBackedFacts.fb_getNextSerialNumber_eq, H.
  vm_compute. reflexivity.
Qed.

(** C10.  In the file-backed revision [getNextSerialNumber] writes the
    incremented count to the counter file before it returns, and nothing
    the endpoint does afterwards writes the file again: whatever the
    answer of a submission, the file holds the count just issued.  A
    failed submission stores no registration and still uses up its serial,
    the next one gets the following number, and over any run no serial is
    issued twice.  The counter file is absent or holds a non-negative
    number at the start, and the counts stay below 2^53, where
    JavaScript's [+ 1] is exact. *)
Theorem counter_survives_failed_submissions (st : FileBacked.State) :
  counterOk (FileBacked.counterFile st) ->
  FileBackedSpec.counterValue (FileBacked.counterFile st) < 9007199254740992 ->
  let c := FileBackedSpec.counterValue (FileBacked.counterFile st) in
  FileBacked.getNextSerialNumber st
  = (Ok (serialString (c + 1)),
     FileBacked.setCounterFile (Some (Z_toString (c + 1))) st)
  /\ (forall env body,
        FileBacked.counterFile (snd (FileBacked.submitForm env body st))
        = Some (Z_toString (c + 1)))
  /\ (forall env body e,
        fst (FileBacked.submitForm env body st) = Ok (Status500 e) ->
        FileBacked.store (snd (FileBacked.submitForm env body st)) = FileBacked.store st
        /\ (c + 1 < 9007199254740992 ->
            fst (FileBacked.getNextSerialNumber (snd (FileBacked.submitForm env body st)))
            = Ok (serialString (c + 2))))
  /\ (forall subs,
        c + Z.of_nat (List.length subs) < 9007199254740992 ->
        fst (FileBacked.getNextSerialNumber (snd (FileBackedSpec.run subs st)))
        = Ok (serialString (c + Z.of_nat (List.length subs) + 1)))
  /\ (forall subs1 subs2, subs2 <> [] ->
        c + Z.of_nat (List.length (subs1 ++ subs2)) < 9007199254740992 ->
        fst (FileBacked.getNextSerialNumber (snd (FileBackedSpec.run (subs1 ++ subs2) st)))
        <> fst (FileBacked.getNextSerialNumber (snd (FileBackedSpec.run subs1 st)))).
Proof.
  intros Hok Hlt c. fold c in Hlt.
  pose proof (FileBackedRun.fb_counterValue_nonneg _ Hok) as Hc. fold c in Hc.
  assert (Hissue : forall subs,
    c + Z.of_nat (List.length subs) < 9007199254740992 ->
    fst (FileBacked.getNextSerialNumber (snd (FileBackedSpec.run subs st)))
    = Ok (serialString (c + Z.of_nat (List.length subs) + 1))).
  { intros subs Hb.
    destruct (FileBackedRun.fb_run_counterFile subs st Hok) as [Hok' Hv];
      [fold c; lia|].
    rewrite FileBackedFacts.fb_getNextSerialNumber_eq. cbn [fst].
    rewrite (FileBackedRun.fb_nextSerial_counterOk _ Hok'), Hv;
      [reflexivity | rewrite Hv; fold c; lia]. }
  assert (Hfile : forall env body,
    FileBacked.counterFile (snd (FileBacked.submitForm env body st))
    = Some (Z_toString (c + 1))).
  { intros env body. rewrite FileBackedEndpoint.fb_submitForm_counterFile.
    now rewrite (FileBackedRun.fb_nextNumber_counterOk _ Hok Hlt). }
  split; [|split; [exact Hfile|split; [|split; [exact Hissue|]]]].
  - rewrite FileBackedFacts.fb_getNextSerialNumber_eq.
    rewrite (FileBackedRun.fb_nextSerial_counterOk _ Hok Hlt).
    now rewrite (FileBackedRun.fb_nextNumber_counterOk _ Hok Hlt).
  - intros env body e He. split.
    + destruct (FileBackedSpec.stepsSucceed env body st) eqn:Es.
      * rewrite (FileBackedEndpoint.fb_submitForm_success env body st Es) in He.
        discriminate.
      * apply (FileBackedEndpoint.fb_submitForm_failure env body st Es).
    + intros Hlt2.
      apply (Hissue [(env, body)]) in Hlt2 as Hone.
      rewrite (proj2 (FileBackedRun.fb_run_cons env body [] st)) in Hone.
      cbn [FileBackedSpec.run snd List.length] in Hone. rewrite Hone.
      do 2 f_equal. lia.
  - intros subs1 subs2 Hne Hb. rewrite length_app in Hb.
    rewrite !Hissue, length_app by (rewrite ?length_app; lia). intros [= H].
    apply padStart_inj in H; try lia.
    destruct subs2; [contradiction|]. cbn [List.length] in H. lia.
Qed.

Lemma counter_survives_failed_submissions_witness :
  counterOk (FileBacked.counterFile pendingUpload)
  /\ FileBackedSpec.counterValue (FileBacked.counterFile pendingUpload) < 9007199254740992
  /\ FileBacked.counterFile (snd (FileBacked.submitForm brokenEnv sampleBody pendingUpload))
     = Some (Z_toString (819 + 1))
  /\ fst (FileBacked.submitForm brokenEnv sampleBody pendingUpload)
     = Ok (Status500 BrowserError).
Proof.
  assert (Hok : counterOk (FileBacked.counterFile pendingUpload))
    by (exists 819; split; [reflexivity | lia]).
  assert (Hlt : FileBackedSpec.counterValue (FileBacked.counterFile pendingUpload)
                < 9007199254740992) by reflexivity.
  split; [exact Hok|]. split; [exact Hlt|]. split; [|reflexivity].
  exact (proj1 (proj2 (counter_survives_failed_submissions pendingUpload Hok Hlt))
           brokenEnv sampleBody).
Defined.

Lemma mainText_selected_by_gender_witness :
  applicantName sampleBody = Some "Asha  Rao"
  /\ fatherName sampleBody = Some "Ravi Rao"
  /\ exists text, mainText sampleBody = Ok text
       /\ (gender sampleBody = Some "Ms." <-> text = daughterOfText "Asha  Rao" "Ravi Rao").
Proof.
  split; [reflexivity|]. split; [reflexivity|].
  destruct (mainText_selected_by_gender sampleBody "Asha  Rao" "Ravi Rao"
              eq_refl eq_refl) as [text [Ht [_ [Hms _]]]].
  exists text. split; [exact Ht | exact Hms].
Defined.


(** * Further properties of the code *)



(** X1.  For a request body whose fields are strings or absent the
    endpoint always answers: 200 when every step other than the uploads
    and the confirmation mail succeeds, and otherwise 500 with the error
    of the first step that failed, in the order browser launch for the
    certificate, fields of the certificate, its print, browser launch for
    the form, the selector of the caste radio button, the print of the
    form, the save, the unique index.  The store-derived revision starts
    with the query for the last serial and ends with the two [unlink]
    calls, the second of which rejects when both PDFs share a path. *)
Theorem endpoint_answers_first_failure :
  (forall (env : SubmitEnv) (body : FormData) (st : FileBacked.State),
      fst (FileBacked.submitForm env body st)
      = Ok (answerOf (FileBackedSpec.firstFailure env body st)))
  /\ (forall (env : SubmitEnv) (body : FormData) (st : StoreDerived.State),
      fst (StoreDerived.submitForm env body st)
      = Ok (answerOf (StoreDerivedSpec.firstFailure env body st))).
Proof.
  split.
  - exact FileBackedEndpoint.fb_submitForm_answer.
  - exact StoreDerivedEndpoint.sd_submitForm_answer.
Qed.

(** X2.  A failure of the confirmation mail is not fatal: the answer, the
    collection and the queue after a submission are the same whatever the
    mail transport does, and a submission whose mail is refused is still
    answered 200, with nothing added to the outbox. *)
Theorem student_mail_failure_not_fatal :
  (forall (env : SubmitEnv) (body : FormData) (st : FileBacked.State) (ok : bool),
      fst (FileBacked.submitForm (withMailOk ok env) body st)
      = fst (FileBacked.submitForm env body st)
      /\ FileBacked.store (snd (FileBacked.submitForm (withMailOk ok env) body st))
         = FileBacked.store (snd (FileBacked.submitForm env body st))
      /\ FileBacked.fileQueue (snd (FileBacked.submitForm (withMailOk ok env) body st))
         = FileBacked.fileQueue (snd (FileBacked.submitForm env body st))
      /\ (FileBackedSpec.stepsSucceed env body st = true ->
          fst (FileBacked.submitForm (withMailOk false env) body st) = Ok Status200
          /\ FileBacked.outbox
               (snd (FileBacked.submitForm (withMailOk false env) body st))
             = FileBacked.outbox st))
  /\ (forall (env : SubmitEnv) (body : FormData) (st : StoreDerived.State) (ok : bool),
      fst (StoreDerived.submitForm (withMailOk ok env) body st)
      = fst (StoreDerived.submitForm env body st)
      /\ StoreDerived.store (snd (StoreDerived.submitForm (withMailOk ok env) body st))
         = StoreDerived.store (snd (StoreDerived.submitForm env body st))
      /\ StoreDerived.fileQueue
           (snd (StoreDerived.submitForm (withMailOk ok env) body st))
         = StoreDerived.fileQueue (snd (StoreDerived.submitForm env body st))
      /\ (StoreDerivedSpec.stepsSucceed env body st = true ->
          fst (StoreDerived.submitForm (withMailOk false env) body st) = Ok Status200
          /\ StoreDerived.outbox
               (snd (StoreDerived.submitForm (withMailOk false env) body st))
             = StoreDerived.outbox st)).
Proof.
  split; intros env body st ok.
  - assert (Hs : forall b, FileBackedSpec.stepsSucceed (withMailOk b env) body st
                           = FileBackedSpec.stepsSucceed env body st) by reflexivity.
    destruct (FileBackedSpec.stepsSucceed env body st) eqn:Es.
    + rewrite !FileBackedEndpoint.fb_submitForm_success by first [exact Es | apply Hs].
      repeat split. cbn [snd FileBackedSpec.successState FileBacked.outbox mailOk withMailOk].
      now rewrite andb_false_r.
    + destruct (FileBackedEndpoint.fb_submitForm_failure env body st Es)
        as [_ [Hd [Hq _]]].
      destruct (FileBackedEndpoint.fb_submitForm_failure (withMailOk ok env) body st)
        as [_ [Hd' [Hq' _]]]; [apply Hs|].
      rewrite !FileBackedEndpoint.fb_submitForm_answer, Hd, Hd', Hq, Hq'.
      repeat split; discriminate.
  - assert (Hs : forall b, StoreDerivedSpec.stored (withMailOk b env) body st
                           = StoreDerivedSpec.stored env body st) by reflexivity.
    assert (Hp : forall b, pathsDistinct (withMailOk b env) body
                           = pathsDistinct env body) by reflexivity.
    destruct (StoreDerivedSpec.stored env body st) eqn:Es.
    + rewrite !StoreDerivedEndpoint.sd_submitForm_stored by first [exact Es | apply Hs].
      unfold StoreDerivedSpec.stepsSucceed. rewrite Es, !Hp.
      destruct (pathsDistinct env body); repeat split; discriminate.
    + destruct (StoreDerivedEndpoint.sd_submitForm_failure env body st Es)
        as [_ [Hd [Hq _]]].
      destruct (StoreDerivedEndpoint.sd_submitForm_failure (withMailOk ok env) body st)
        as [_ [Hd' [Hq' _]]]; [apply Hs|].
      rewrite !StoreDerivedEndpoint.sd_submitForm_answer, Hd, Hd', Hq, Hq'.
      unfold StoreDerivedSpec.stepsSucceed. rewrite Es.
      repeat split; discriminate.
Qed.

Lemma student_mail_failure_not_fatal_witness :
  FileBackedSpec.stepsSucceed offlineEnv sampleBody freshFileBacked = true
  /\ fst (FileBacked.submitForm (withMailOk false offlineEnv) sampleBody freshFileBacked)
     = Ok Status200
  /\ StoreDerivedSpec.stepsSucceed sampleEnv sampleBody freshStoreDerived = true
  /\ fst (StoreDerived.submitForm (withMailOk false sampleEnv) sampleBody
            freshStoreDerived) = Ok Status200.
Proof.
  split; [reflexivity|]. split.
  - apply (proj2 (proj2 (proj2 (proj1 student_mail_failure_not_fatal
             offlineEnv sampleBody freshFileBacked false)))). reflexivity.
  - split; [reflexivity|].
    apply (proj2 (proj2 (proj2 (proj2 student_mail_failure_not_fatal
             sampleEnv sampleBody freshStoreDerived false)))). reflexivity.
Defined.

(** X3.  In the file-backed revision the confirmation mail attaches the
    application form by its path, and the uploader has unlinked that file
    when Cloudinary accepted it: a submission whose form upload succeeded
    never sends the confirmation mail, whatever the mail transport does. *)
Theorem uploaded_form_blocks_student_mail (env : SubmitEnv) (body : FormData)
    (st : FileBacked.State) :
  formUpload env <> None ->
  FileBacked.outbox (snd (FileBacked.submitForm env body st)) = FileBacked.outbox st.
Proof.
  intros Hu.
  destruct (FileBackedSpec.stepsSucceed env body st) eqn:Es.
  - rewrite (FileBackedEndpoint.fb_submitForm_success env body st Es).
    cbn [snd FileBackedSpec.successState FileBacked.outbox].
    destruct (formUpload env); [reflexivity | contradiction].
  - apply (FileBackedEndpoint.fb_submitForm_failure env body st Es).
Qed.

Lemma uploaded_form_blocks_student_mail_witness :
  formUpload sampleEnv <> None
  /\ fst (FileBacked.submitForm sampleEnv sampleBody freshFileBacked) = Ok Status200
  /\ FileBacked.outbox (snd (FileBacked.submitForm sampleEnv sampleBody freshFileBacked))
     = FileBacked.outbox freshFileBacked.
Proof.
  assert (H : formUpload sampleEnv <> None) by discriminate.
  split; [exact H|]. split; [reflexivity|].
  exact (uploaded_form_blocks_student_mail sampleEnv sampleBody freshFileBacked H).
Defined.

Module FileBackedBlocked.

Import FileBacked FileBackedSpec FileBackedFacts FileBackedEndpoint FileBackedFlush.

Lemma fb_forallb_absent {A} (f : A -> bool) (l : list A) (a : A) :
  In a l -> f a = false -> forallb f l = false.
Proof.
  intros Hin Hf. destruct (forallb f l) eqn:E; [|reflexivity].
  rewrite forallb_forall in E. rewrite (E a Hin) in Hf. discriminate.
Qed.

Lemma fb_certificate_absent_after_upload (env : SubmitEnv) (body : FormData)
    (fs : list string) :
  certUpload env <> None -> pathsDistinct env body = true ->
  existsFile (certificatePath env body)
    (afterRender (formUpload env) (applicationPath env body)
       (afterRender (certUpload env) (certificatePath env body) fs)) = false.
Proof.
  intros Hu Hd. destruct (certUpload env) as [u|]; [clear Hu | contradiction].
  assert (Hne : String.eqb (certificatePath env body) (applicationPath env body) = false)
    by (now apply negb_true_iff).
  unfold afterRender.
  destruct (formUpload env).
  - rewrite existsFile_removeFile, existsFile_addFile, existsFile_removeFile_same, Hne.
    reflexivity.
  - rewrite existsFile_addFile, existsFile_removeFile_same, Hne. reflexivity.
Qed.

Lemma fb_application_absent_after_upload (env : SubmitEnv) (body : FormData)
    (fs : list string) :
  formUpload env <> None ->
  existsFile (applicationPath env body)
    (afterRender (formUpload env) (applicationPath env body) fs) = false.
Proof.
  intros Hu. destruct (formUpload env) as [u|]; [clear Hu | contradiction].
  apply existsFile_removeFile_same.
Qed.

End FileBackedBlocked.

(** X4.  In the file-backed revision the batch mail attaches every queued
    PDF by its path, and a PDF that Cloudinary accepted has been unlinked
    by the uploader.  So the flush that follows a completed submission
    with a successful upload sends no mail and leaves the queue as it
    was.  The two PDFs of the submission have different paths, as they
    have whenever the name of the applicant holds no separator. *)
Theorem uploaded_pdf_blocks_batch_mail (env : SubmitEnv) (body : FormData)
    (st : FileBacked.State) (fenv : FlushEnv) :
  FileBackedSpec.stepsSucceed env body st = true ->
  pathsDistinct env body = true ->
  certUpload env <> None \/ formUpload env <> None ->
  ~ In (reportPath (flushNow fenv)) (FileBackedSpec.queuedPaths st) ->
  let st1 := snd (FileBacked.submitForm env body st) in
  let st2 := snd (FileBacked.sendBatchedFacultyEmail fenv st1) in
  FileBacked.fileQueue st1 <> []
  /\ FileBacked.fileQueue st2 = FileBacked.fileQueue st1
  /\ FileBacked.outbox st2 = FileBacked.outbox st1.
Proof.
  intros Hs Hd Hu Hq st1 st2. subst st2 st1.
  rewrite (FileBackedEndpoint.fb_submitForm_success env body st Hs).
  cbn [snd].
  split.
  - cbn [FileBackedSpec.successState FileBacked.fileQueue].
    destruct (FileBacked.fileQueue st); discriminate.
  - assert (Hfail : FileBackedSpec.sendSucceeds fenv
                      (FileBackedSpec.successState env body st) = false).
    { unfold FileBackedSpec.sendSucceeds, FileBackedSpec.queuedPaths.
      cbn [FileBackedSpec.successState FileBacked.fileQueue FileBacked.files].
      rewrite map_app. cbn [map FileBacked.path].
      match goal with
      | |- _ && forallb ?f ?l && _ = false =>
          assert (Hf : forallb f l = false)
      end.
      { destruct Hu as [Hc|Hf].
        - apply (FileBackedBlocked.fb_forallb_absent _ _ (certificatePath env body)).
          + apply in_or_app. right. left. reflexivity.
          + now apply FileBackedBlocked.fb_certificate_absent_after_upload.
        - apply (FileBackedBlocked.fb_forallb_absent _ _ (applicationPath env body)).
          + apply in_or_app. right. right. left. reflexivity.
          + now apply FileBackedBlocked.fb_application_absent_after_upload. }
      rewrite Hf. now rewrite andb_false_r. }
    assert (Hrep : ~ In (reportPath (flushNow fenv))
                     (FileBackedSpec.queuedPaths (FileBackedSpec.successState env body st))).
    { pose proof (FileBackedFlush.fb_submitForm_queues_no_report env body st
                    (flushNow fenv) Hq) as H.
      now rewrite (FileBackedEndpoint.fb_submitForm_success env body st Hs) in H. }
    destruct (FileBackedFlush.fb_flush_failure fenv _ Hrep Hfail) as [H1 [H2 _]].
    split; assumption.
Qed.

Lemma uploaded_pdf_blocks_batch_mail_witness :
  FileBackedSpec.stepsSucceed sampleEnv sampleBody freshFileBacked = true
  /\ pathsDistinct sampleEnv sampleBody = true
  /\ formUpload sampleEnv <> None
  /\ FileBacked.outbox
       (snd (FileBacked.sendBatchedFacultyEmail sendingEnv
               (snd (FileBacked.submitForm sampleEnv sampleBody freshFileBacked))))
     = FileBacked.outbox (snd (FileBacked.submitForm sampleEnv sampleBody freshFileBacked)).
Proof.
  assert (Hu : formUpload sampleEnv <> None) by discriminate.
  split; [reflexivity|]. split; [reflexivity|]. split; [exact Hu|].
  apply (uploaded_pdf_blocks_batch_mail sampleEnv sampleBody freshFileBacked sendingEnv
           eq_refl eq_refl (or_intror Hu)).
  intros [].
Defined.

Module StoreDerivedStuck.

Import StoreDerived StoreDerivedSpec StoreDerivedFacts StoreDerivedEndpoint
  StoreDerivedRun.

(** Once the next serial is taken no submission can be stored any more. *)
Lemma sd_stuck_forever (subs : list (SubmitEnv * FormData)) (st : State) :
  serialTaken (Some (nextSerial (store st))) (store st) = true ->
  store (snd (run subs st)) = store st
  /\ completed subs (fst (run subs st)) = [].
Proof.
  revert st. induction subs as [|[env body] rest IH]; intros st Ht; [now split|].
  cbn [run].
  pose proof (sd_taken_not_stored env body st Ht) as Es.
  destruct (sd_submitForm_failure env body st Es) as [[e He] [Hd _]].
  destruct (submitForm env body st) as [r st1]. cbn [fst snd] in *. subst r.
  rewrite <- Hd in Ht. destruct (IH st1 Ht) as [IHd IHc].
  destruct (run rest st1) as [answers st2]. cbn [fst snd answer completed] in *.
  split; [congruence | exact IHc].
Qed.

Lemma sd_nextSerial_after_999999 (docs : list Registration) (r : Registration) :
  findLast docs = Some r -> serialOf r = Some "999999" ->
  nextSerial docs = "1000000".
Proof. intros Hl Hs. unfold nextSerial. rewrite Hl, Hs. reflexivity. Qed.

End StoreDerivedStuck.

(** X5.  The store-derived allocator finds the last serial by sorting the
    serials as strings.  When the last serial is "999999" a submission is
    stamped "1000000", which sorts below "999999": the allocator then
    returns "1000000" for ever, and every later submission is refused by
    the unique index, nothing more being stored. *)
Theorem store_derived_serials_end_at_one_million (env : SubmitEnv) (body : FormData)
    (st : StoreDerived.State) (r : Registration) :
  StoreDerived.findLast (StoreDerived.store st) = Some r ->
  serialOf r = Some "999999" ->
  StoreDerivedSpec.stepsSucceed env body st = true ->
  let st1 := snd (StoreDerived.submitForm env body st) in
  StoreDerived.store st1
  = (StoreDerived.store st
     ++ [registrationOf body "1000000" (certUpload env) (formUpload env)])%list
  /\ (forall env' : SubmitEnv,
        findOk env' = true ->
        fst (StoreDerived.getNextSerialNumber env' st1) = Ok "1000000")
  /\ (forall subs : list (SubmitEnv * FormData),
        StoreDerived.store (snd (StoreDerivedSpec.run subs st1)) = StoreDerived.store st1
        /\ completed subs (fst (StoreDerivedSpec.run subs st1)) = []).
Proof.
  intros Hl Hs Hok st1. subst st1.
  rewrite (StoreDerivedEndpoint.sd_submitForm_success env body st Hok).
  cbn [snd].
  assert (Hst : StoreDerived.store (StoreDerivedSpec.successState env body st)
          = (StoreDerived.store st
             ++ [registrationOf body "1000000" (certUpload env) (formUpload env)])%list).
  { cbn [StoreDerivedSpec.successState StoreDerived.store].
    now rewrite (StoreDerivedStuck.sd_nextSerial_after_999999 _ r Hl Hs). }
  assert (Hlast : StoreDerived.findLast
            (StoreDerived.store (StoreDerivedSpec.successState env body st))
          = Some r).
  { rewrite Hst, StoreDerivedRun.sd_findLast_app, Hl, Hs. reflexivity. }
  assert (Hnext : StoreDerivedSpec.nextSerial
            (StoreDerived.store (StoreDerivedSpec.successState env body st))
          = "1000000")
    by exact (StoreDerivedStuck.sd_nextSerial_after_999999 _ r Hlast Hs).
  split; [exact Hst|]. split.
  - intros env' Hf. rewrite StoreDerivedFacts.sd_getNextSerialNumber_eq, Hf.
    cbn [fst]. now rewrite Hnext.
  - intros subs. apply StoreDerivedStuck.sd_stuck_forever.
    rewrite Hnext, Hst.
    now apply StoreDerivedRun.sd_serialTaken_app.
Qed.

Lemma store_derived_serials_end_at_one_million_witness :
  StoreDerived.findLast (StoreDerived.store fullStoreDerived) = Some lastSixDigits
  /\ serialOf lastSixDigits = Some "999999"
  /\ StoreDerivedSpec.stepsSucceed sampleEnv sampleBody fullStoreDerived = true
  /\ completed [(sampleEnv, sampleBody); (offlineEnv, sampleBody)]
       (fst (StoreDerivedSpec.run [(sampleEnv, sampleBody); (offlineEnv, sampleBody)]
               (snd (StoreDerived.submitForm sampleEnv sampleBody fullStoreDerived))))
     = [].
Proof.
  split; [reflexivity|]. split; [reflexivity|]. split; [reflexivity|].
  apply (proj2 (proj2 (store_derived_serials_end_at_one_million sampleEnv sampleBody
           fullStoreDerived lastSixDigits eq_refl eq_refl eq_refl))).
Defined.

Section UniqueIndex.

Lemma NoDup_snoc {A} (l : list A) (a : A) :
  NoDup l -> ~ In a l -> NoDup (l ++ [a]).
Proof.
  induction 1 as [|x l Hx Hl IH]; intros Ha; cbn.
  - constructor; [intros [] | constructor].
  - constructor.
    + rewrite in_app_iff. intros [H|[H|[]]]; [exact (Hx H)|].
      apply Ha. left. now symmetry.
    + apply IH. intros H. apply Ha. right. exact H.
Qed.

Lemma fb_run_keeps_serials_unique (subs : list (SubmitEnv * FormData))
    (st : FileBacked.State) :
  NoDup (map serialOf (FileBacked.store st)) ->
  NoDup (map serialOf (FileBacked.store (snd (FileBackedSpec.run subs st))))
  /\ exists news,
       FileBacked.store (snd (FileBackedSpec.run subs st))
       = (FileBacked.store st ++ news)%list
       /\ List.length news
          = List.length (completed subs (fst (FileBackedSpec.run subs st))).
Proof.
  revert st. induction subs as [|[env body] rest IH]; intros st Hnd.
  - cbn. split; [exact Hnd|]. exists []. now rewrite app_nil_r.
  - cbn [FileBackedSpec.run].
    destruct (FileBackedSpec.stepsSucceed env body st) eqn:Es.
    + rewrite (FileBackedEndpoint.fb_submitForm_success env body st Es).
      assert (Hfree : ~ In (Some (FileBackedSpec.nextSerial (FileBacked.counterFile st)))
                        (map serialOf (FileBacked.store st))).
      { apply serialTaken_false. unfold FileBackedSpec.stepsSucceed in Es.
        apply andb_true_iff in Es as [_ Es]. now apply negb_true_iff in Es. }
      destruct (IH (FileBackedSpec.successState env body st)) as [IHn [news [IHs IHl]]].
      { cbn [FileBackedSpec.successState FileBacked.store]. rewrite map_app.
        now apply NoDup_snoc. }
      destruct (FileBackedSpec.run rest (FileBackedSpec.successState env body st))
        as [answers st2].
      cbn [fst snd answer completed] in *. split; [exact IHn|].
      eexists (_ :: news). split.
      * rewrite IHs. cbn [FileBackedSpec.successState FileBacked.store].
        rewrite <- app_assoc. reflexivity.
      * cbn [List.length]. now rewrite IHl.
    + destruct (FileBackedEndpoint.fb_submitForm_failure env body st Es)
        as [[e He] [Hd _]].
      destruct (FileBacked.submitForm env body st) as [r st1].
      cbn [fst snd] in *. subst r. rewrite <- Hd in Hnd.
      destruct (IH st1 Hnd) as [IHn [news [IHs IHl]]].
      destruct (FileBackedSpec.run rest st1) as [answers st2].
      cbn [fst snd answer completed] in *. split; [exact IHn|].
      exists news. split; [congruence | exact IHl].
Qed.

Lemma sd_run_keeps_serials_unique (subs : list (SubmitEnv * FormData))
    (st : StoreDerived.State) :
  NoDup (map serialOf (StoreDerived.store st)) ->
  NoDup (map serialOf (StoreDerived.store (snd (StoreDerivedSpec.run subs st))))
  /\ exists news,
       StoreDerived.store (snd (StoreDerivedSpec.run subs st))
       = (StoreDerived.store st ++ news)%list
       /\ (List.length (completed subs (fst (StoreDerivedSpec.run subs st)))
           <= List.length news)%nat
       /\ (Forall (fun sub => pathsDistinct (fst sub) (snd sub) = true) subs ->
           List.length news
           = List.length (completed subs (fst (StoreDerivedSpec.run subs st)))).
Proof.
  revert st. induction subs as [|[env body] rest IH]; intros st Hnd.
  - cbn. split; [exact Hnd|]. exists []. now rewrite app_nil_r.
  - destruct (StoreDerivedRun.sd_run_cons env body rest st) as [Hfst Hsnd].
    rewrite Hfst, Hsnd. clear Hfst Hsnd.
    destruct (StoreDerivedSpec.stored env body st) eqn:Es.
    + assert (Hfree : ~ In (Some (StoreDerivedSpec.nextSerial (StoreDerived.store st)))
                        (map serialOf (StoreDerived.store st))).
      { apply serialTaken_false. revert Es. unfold StoreDerivedSpec.stored.
        rewrite !andb_true_iff. intros [_ Es]. now apply negb_true_iff. }
      assert (Hstore : StoreDerived.store (snd (StoreDerived.submitForm env body st))
                = (StoreDerived.store st
                   ++ [registrationOf body
                         (StoreDerivedSpec.nextSerial (StoreDerived.store st))
                         (certUpload env) (formUpload env)])%list).
      { rewrite (StoreDerivedEndpoint.sd_submitForm_stored env body st Es).
        now destruct (pathsDistinct env body). }
      destruct (IH (snd (StoreDerived.submitForm env body st))) as [IHn [news [IHs [IHle IHl]]]].
      { rewrite Hstore, map_app. now apply NoDup_snoc. }
      split; [exact IHn|].
      eexists (_ :: news). split; [|split].
      * rewrite IHs, Hstore, <- app_assoc. reflexivity.
      * cbn [List.length completed].
        destruct (answer _); cbn [List.length]; lia.
      * intros Hd. inversion Hd as [|? ? Hd1 Hdrest]; subst. cbn [fst snd] in Hd1.
        rewrite (StoreDerivedEndpoint.sd_submitForm_stored env body st Es), Hd1 in *.
        cbn [fst snd answer completed List.length] in *. now rewrite (IHl Hdrest).
    + destruct (StoreDerivedEndpoint.sd_submitForm_failure env body st Es)
        as [[e He] [Hd _]].
      rewrite He. cbn [answer completed].
      rewrite <- Hd in Hnd.
      destruct (IH _ Hnd) as [IHn [news [IHs [IHle IHl]]]].
      split; [exact IHn|].
      exists news. split; [congruence|]. split; [exact IHle|].
      intros Hp. inversion Hp; subst. auto.
Qed.

End UniqueIndex.

(** X6.  Whatever the state of the counter source, a corrupt counter file
    included, the unique index keeps the stored serials pairwise distinct
    over any run of submissions; the collection only grows, and no stored
    registration is changed or removed.  In the file-backed revision it
    grows by one registration for each submission answered 200; in the
    store-derived revision by at least that many, and by exactly that
    many when the two PDFs of every submission have different paths. *)
Theorem stored_serials_stay_unique :
  (forall (subs : list (SubmitEnv * FormData)) (st : FileBacked.State),
      NoDup (map serialOf (FileBacked.store st)) ->
      NoDup (map serialOf (FileBacked.store (snd (FileBackedSpec.run subs st))))
      /\ exists news,
           FileBacked.store (snd (FileBackedSpec.run subs st))
           = (FileBacked.store st ++ news)%list
           /\ List.length news
              = List.length (completed subs (fst (FileBackedSpec.run subs st))))
  /\ (forall (subs : list (SubmitEnv * FormData)) (st : StoreDerived.State),
      NoDup (map serialOf (StoreDerived.store st)) ->
      NoDup (map serialOf (StoreDerived.store (snd (StoreDerivedSpec.run subs st))))
      /\ exists news,
           StoreDerived.store (snd (StoreDerivedSpec.run subs st))
           = (StoreDerived.store st ++ news)%list
           /\ (List.length (completed subs (fst (StoreDerivedSpec.run subs st)))
               <= List.length news)%nat
           /\ (Forall (fun sub => pathsDistinct (fst sub) (snd sub) = true) subs ->
               List.length news
               = List.length (completed subs (fst (StoreDerivedSpec.run subs st))))).
Proof.
  split; [exact fb_run_keeps_serials_unique | exact sd_run_keeps_serials_unique].
Qed.

Lemma stored_serials_stay_unique_witness :
  NoDup (map serialOf (FileBacked.store corruptFileBacked))
  /\ NoDup (map serialOf (FileBacked.store (snd (FileBackedSpec.run
              [(sampleEnv, sampleBody); (sampleEnv, sampleBody)] corruptFileBacked)))).
Proof.
  assert (H : NoDup (map serialOf (FileBacked.store corruptFileBacked)))
    by constructor.
  split; [exact H|].
  exact (proj1 (proj1 stored_serials_stay_unique
                  [(sampleEnv, sampleBody); (sampleEnv, sampleBody)]
                  corruptFileBacked H)).
Defined.

(** X7.  In the store-derived revision the endpoint unlinks the two PDFs
    only at the end of the path that answers 200.  When both renders
    succeed (the browser runs, the fields can be read, the selector of
    the caste radio button parses, the PDFs are printed) and the save
    fails (MongoDB unreachable or the serial taken) the answer is 500,
    nothing is stored or queued, and both PDFs stay on disk. *)
Theorem failed_save_leaves_pdfs_on_disk (env : SubmitEnv) (body : FormData)
    (st : StoreDerived.State) :
  findOk env = true -> certBrowserOk env = true -> certPdfOk env = true ->
  formBrowserOk env = true -> formFieldsOk env body = true ->
  formPdfOk env = true -> renderable body = true ->
  saveOk env = false
    \/ serialTaken (Some (StoreDerivedSpec.nextSerial (StoreDerived.store st)))
         (StoreDerived.store st) = true ->
  let st' := snd (StoreDerived.submitForm env body st) in
  fst (StoreDerived.submitForm env body st)
  = Ok (Status500 (if saveOk env then DuplicateKey else DatabaseError))
  /\ StoreDerived.store st' = StoreDerived.store st
  /\ StoreDerived.fileQueue st' = StoreDerived.fileQueue st
  /\ existsFile (certificatePath env body) (StoreDerived.files st') = true
  /\ existsFile (applicationPath env body) (StoreDerived.files st') = true.
Proof.
  intros Hf Hcb Hcp Hfb Hff Hfp Hr Hsave st'. subst st'.
  unfold StoreDerived.submitForm, try_catch, bind.
  rewrite StoreDerivedFacts.sd_getNextSerialNumber_eq, Hf. cbv beta iota zeta.
  rewrite StoreDerivedFacts.sd_generateCertificate_eq, Hcb.
  destruct (certificateFields_renderable
              (withSerialNumber body (StoreDerivedSpec.nextSerial (StoreDerived.store st))))
    as [fields ->]; [assumption|].
  rewrite sanitizedName_renderable by assumption.
  rewrite Hcp. cbv beta iota zeta.
  rewrite StoreDerivedFacts.sd_generateApplicationFormPdf_eq, Hfb,
    formFieldsOk_withSerialNumber, Hff.
  rewrite sanitizedName_renderable by assumption.
  rewrite Hfp. cbv beta iota zeta.
  rewrite StoreDerivedFacts.sd_save_eq.
  cbn [applicantName withSerialNumber].
  fold (certificatePath env body). fold (applicationPath env body).
  destruct st as [fs docs q ob].
  cbn [StoreDerived.store StoreDerived.setFiles StoreDerived.files doc_url doc_path
       serialOf reg_data withSerialNumber serialNumber] in *.
  assert (Hfiles : existsFile (certificatePath env body)
                     (addFile (applicationPath env body)
                        (addFile (certificatePath env body) fs)) = true
                   /\ existsFile (applicationPath env body)
                        (addFile (applicationPath env body)
                           (addFile (certificatePath env body) fs)) = true).
  { split; [apply existsFile_addFile_other|]; apply existsFile_addFile_same. }
  destruct (saveOk env).
  - destruct Hsave as [Hs|Ht]; [discriminate|]. rewrite Ht.
    cbn [fst snd StoreDerived.store StoreDerived.fileQueue StoreDerived.files ret].
    split; [reflexivity|]. split; [reflexivity|]. split; [reflexivity|]. exact Hfiles.
  - cbn [fst snd StoreDerived.store StoreDerived.fileQueue StoreDerived.files ret].
    split; [reflexivity|]. split; [reflexivity|]. split; [reflexivity|]. exact Hfiles.
Qed.

Lemma failed_save_leaves_pdfs_on_disk_witness :
  saveOk unsavedEnv = false
  /\ formFieldsOk unsavedEnv sampleBody = true
  /\ fst (StoreDerived.submitForm unsavedEnv sampleBody freshStoreDerived)
     = Ok (Status500 DatabaseError)
  /\ existsFile (certificatePath unsavedEnv sampleBody)
       (StoreDerived.files
          (snd (StoreDerived.submitForm unsavedEnv sampleBody freshStoreDerived)))
     = true.
Proof.
  split; [reflexivity|]. split; [reflexivity|].
  destruct (failed_save_leaves_pdfs_on_disk unsavedEnv sampleBody freshStoreDerived
              eq_refl eq_refl eq_refl eq_refl eq_refl eq_refl eq_refl
              (or_introl eq_refl))
    as [Ha [_ [_ [Hc _]]]].
  split; [exact Ha | exact Hc].
Defined.

Lemma fb_run_queue (subs : list (SubmitEnv * FormData)) (st : FileBacked.State) :
  FileBacked.fileQueue (snd (FileBackedSpec.run subs st))
  = (FileBacked.fileQueue st
     ++ FileBackedSpec.queueEntries
          (completed subs (fst (FileBackedSpec.run subs st))))%list.
Proof.
  revert st. induction subs as [|[env body] rest IH]; intros st.
  - cbn. now rewrite app_nil_r.
  - cbn [FileBackedSpec.run].
    destruct (FileBackedSpec.stepsSucceed env body st) eqn:Es.
    + rewrite (FileBackedEndpoint.fb_submitForm_success env body st Es).
      specialize (IH (FileBackedSpec.successState env body st)).
      destruct (FileBackedSpec.run rest (FileBackedSpec.successState env body st))
        as [answers st2].
      cbn [fst snd answer completed] in *. rewrite IH.
      cbn [FileBackedSpec.successState FileBacked.fileQueue
           FileBackedSpec.queueEntries flat_map].
      rewrite <- app_assoc. reflexivity.
    + destruct (FileBackedEndpoint.fb_submitForm_failure env body st Es)
        as [[e He] [_ [Hq _]]].
      specialize (IH (snd (FileBacked.submitForm env body st))).
      destruct (FileBacked.submitForm env body st) as [r st1].
      cbn [fst snd] in *. subst r.
      destruct (FileBackedSpec.run rest st1) as [answers st2].
      cbn [fst snd answer completed] in *. congruence.
Qed.

Lemma sd_run_queue (subs : list (SubmitEnv * FormData)) (st : StoreDerived.State) :
  Forall (fun sub => pathsDistinct (fst sub) (snd sub) = true) subs ->
  StoreDerived.fileQueue (snd (StoreDerivedSpec.run subs st))
  = (StoreDerived.fileQueue st
     ++ StoreDerivedSpec.queueEntries
          (completed subs (fst (StoreDerivedSpec.run subs st))))%list.
Proof.
  revert st. induction subs as [|[env body] rest IH]; intros st Hd.
  - cbn. now rewrite app_nil_r.
  - cbn [StoreDerivedSpec.run].
    inversion Hd as [|? ? Hd1 Hdrest]; subst. cbn [fst snd] in Hd1.
    specialize (fun st => IH st Hdrest).
    destruct (StoreDerivedSpec.stepsSucceed env body st) eqn:Es.
    + rewrite (StoreDerivedEndpoint.sd_submitForm_success env body st Es).
      specialize (IH (StoreDerivedSpec.successState env body st)).
      destruct (StoreDerivedSpec.run rest (StoreDerivedSpec.successState env body st))
        as [answers st2].
      cbn [fst snd answer completed] in *. rewrite IH.
      cbn [StoreDerivedSpec.successState StoreDerived.fileQueue
           StoreDerivedSpec.queueEntries map].
      rewrite <- app_assoc. reflexivity.
    + destruct (StoreDerivedEndpoint.sd_submitForm_failure env body st
                  (StoreDerivedEndpoint.sd_not_stored env body st Es Hd1))
        as [[e He] [_ [Hq _]]].
      specialize (IH (snd (StoreDerived.submitForm env body st))).
      destruct (StoreDerived.submitForm env body st) as [r st1].
      cbn [fst snd] in *. subst r.
      destruct (StoreDerivedSpec.run rest st1) as [answers st2].
      cbn [fst snd answer completed] in *. congruence.
Qed.

(** X8.  Over any run of submissions the queue grows by the entries of the
    submissions answered 200, in their order (two entries each in the
    file-backed revision, one each in the store-derived revision); a
    submission answered 500 queues nothing.  In the store-derived
    revision, where the queue is filled before the PDFs are unlinked, the
    two PDFs of every submission have different paths. *)
Theorem queue_holds_completed_submissions :
  (forall (subs : list (SubmitEnv * FormData)) (st : FileBacked.State),
      FileBacked.fileQueue (snd (FileBackedSpec.run subs st))
      = (FileBacked.fileQueue st
         ++ FileBackedSpec.queueEntries
              (completed subs (fst (FileBackedSpec.run subs st))))%list)
  /\ (forall (subs : list (SubmitEnv * FormData)) (st : StoreDerived.State),
      Forall (fun sub => pathsDistinct (fst sub) (snd sub) = true) subs ->
      StoreDerived.fileQueue (snd (StoreDerivedSpec.run subs st))
      = (StoreDerived.fileQueue st
         ++ StoreDerivedSpec.queueEntries
              (completed subs (fst (StoreDerivedSpec.run subs st))))%list).
Proof.
  split; [exact fb_run_queue | exact sd_run_queue].
Qed.

Lemma queue_holds_completed_submissions_witness :
  Forall (fun sub => pathsDistinct (fst sub) (snd sub) = true)
    [(sampleEnv, sampleBody); (brokenEnv, sampleBody)]
  /\ StoreDerived.fileQueue
       (snd (StoreDerivedSpec.run [(sampleEnv, sampleBody); (brokenEnv, sampleBody)]
               freshStoreDerived))
     = StoreDerivedSpec.queueEntries [(sampleEnv, sampleBody)].
Proof.
  assert (H : Forall (fun sub => pathsDistinct (fst sub) (snd sub) = true)
                [(sampleEnv, sampleBody); (brokenEnv, sampleBody)])
    by (repeat constructor).
  split; [exact H|].
  exact (proj2 queue_holds_completed_submissions
           [(sampleEnv, sampleBody); (brokenEnv, sampleBody)] freshStoreDerived H).
Defined.

Section SplitJoin.

Lemma join_split (sep : ascii) (s : string) : join sep (split sep s) = s.
Proof.
  induction s as [|c s IH]; [reflexivity|].
  cbn [split]. destruct (Ascii.eqb_spec c sep) as [->|Hc].
  - pose proof (split_not_nil sep s) as Hne.
    destruct (split sep s) as [|p ps]; [contradiction|].
    cbn [join] in *. now rewrite IH.
  - pose proof (split_not_nil sep s) as Hne.
    destruct (split sep s) as [|p ps]; [contradiction|].
    destruct ps as [|p' ps]; cbn [join] in *; now rewrite <- IH.
Qed.

Lemma split_parts_clean (sep : ascii) (s : string) :
  Forall (fun part => countChar sep part = 0%nat) (split sep s).
Proof.
  induction s as [|c s IH]; [repeat constructor|].
  cbn [split]. destruct (Ascii.eqb c sep) eqn:Ec.
  - constructor; [reflexivity | exact IH].
  - pose proof (split_not_nil sep s) as Hne.
    destruct (split sep s) as [|p ps]; [contradiction|].
    inversion IH as [|? ? Hp Hps]; subst.
    constructor; [|exact Hps]. cbn [countChar]. now rewrite Ec, Hp.
Qed.

End SplitJoin.

(** X9.  [formatDate] is its own inverse on strings: reformatting a
    reformatted date gives the date back, whatever the string is. *)
Theorem formatDate_involutive (s : string) :
  formatDate (Some (formatDate (Some s))) = s.
Proof.
  destruct s as [|c s]; [reflexivity|].
  pose proof (join_split "-" (String c s)) as Hj.
  pose proof (split_parts_clean "-" (String c s)) as Hc.
  destruct (split "-" (String c s)) as [|y [|m [|d [|x rest]]]] eqn:Es.
  - exfalso. exact (split_not_nil _ _ Es).
  - cbn [formatDate]. rewrite Es. cbn [formatDate]. now rewrite Es.
  - cbn [formatDate]. rewrite Es. cbn [formatDate]. now rewrite Es.
  - inversion Hc as [|? ? Hy Hc1]; subst. inversion Hc1 as [|? ? Hm Hc2]; subst.
    inversion Hc2 as [|? ? Hd _]; subst.
    replace (formatDate (Some (String c s))) with (d ++ "-" ++ m ++ "-" ++ y)
      by (cbn [formatDate]; now rewrite Es).
    rewrite (formatDate_three_parts d m y Hd Hm Hy). exact Hj.
  - cbn [formatDate]. rewrite Es. cbn [formatDate]. now rewrite Es.
Qed.

Section Sanitizer.

Lemma replaceWhiteSpaceRuns_fixed (inRun : bool) (s : string) :
  hasWhiteSpace s = false -> replaceWhiteSpaceRuns inRun s = s.
Proof.
  revert inRun. induction s as [|c s IH]; intros inRun; [reflexivity|].
  cbn [hasWhiteSpace replaceWhiteSpaceRuns]. intros H.
  apply orb_false_iff in H as [Hc Hs]. rewrite Hc. now rewrite IH.
Qed.

Lemma replaceWhiteSpaceRuns_length (inRun : bool) (s : string) :
  (String.length (replaceWhiteSpaceRuns inRun s) <= String.length s)%nat.
Proof.
  revert inRun. induction s as [|c s IH]; intros inRun; [apply le_n|].
  cbn [replaceWhiteSpaceRuns]. destruct (isWhiteSpace c).
  - destruct inRun; cbn [String.length].
    + specialize (IH true). lia.
    + specialize (IH true). lia.
  - cbn [String.length]. specialize (IH false). lia.
Qed.

End Sanitizer.

(** X10.  The name component of a PDF file name, [name.replace(/\s+/g,
    '_')], holds no white space, is the name itself when the name holds
    none, is not changed by a second replacement, and is never longer than
    the name. *)
Theorem sanitized_name_properties (s : string) :
  hasWhiteSpace (replaceWhiteSpace s) = false
  /\ (hasWhiteSpace s = false -> replaceWhiteSpace s = s)
  /\ replaceWhiteSpace (replaceWhiteSpace s) = replaceWhiteSpace s
  /\ (String.length (replaceWhiteSpace s) <= String.length s)%nat.
Proof.
  unfold replaceWhiteSpace.
  split; [apply replaceWhiteSpaceRuns_clean|].
  split; [apply replaceWhiteSpaceRuns_fixed|].
  split; [|apply replaceWhiteSpaceRuns_length].
  apply replaceWhiteSpaceRuns_fixed, replaceWhiteSpaceRuns_clean.
Qed.

Lemma sanitized_name_properties_witness :
  hasWhiteSpace "Asha_Rao" = false /\ replaceWhiteSpace "Asha_Rao" = "Asha_Rao".
Proof.
  split; [reflexivity|].
  apply (proj1 (proj2 (sanitized_name_properties "Asha_Rao"))). reflexivity.
Defined.

Section FlushOutcome.

Lemma caught_result {S} (x : result unit * S) :
  fst (match x with
       | (Ok a, s') => (Ok a, s')
       | (Throw _, s') => (Ok tt, s')
       end) = Ok tt.
Proof. destruct x as [[[]|e] s']; reflexivity. Qed.

Lemma fb_flush_query_ok (env : FlushEnv) (st : FileBacked.State) :
  flushFindOk env = true ->
  fst (FileBacked.sendBatchedFacultyEmail env st) = Ok tt.
Proof.
  intros Hf. destruct st as [c fs docs [|item q] ob]; [reflexivity|].
  unfold FileBacked.sendBatchedFacultyEmail.
  unfold bind at 1. unfold get at 1. cbn [FileBacked.fileQueue].
  unfold bind at 1. rewrite Hf. unfold guard, ret at 1.
  unfold bind at 1, FileBacked.writeFile, modify at 1. unfold try_catch at 1.
  apply caught_result.
Qed.

Lemma fb_flush_query_fails (env : FlushEnv) (st : FileBacked.State) :
  FileBacked.fileQueue st <> [] -> flushFindOk env = false ->
  FileBacked.sendBatchedFacultyEmail env st = (Throw DatabaseError, st).
Proof.
  intros Hq Hf. destruct st as [c fs docs [|item q] ob]; [contradiction|].
  unfold FileBacked.sendBatchedFacultyEmail.
  unfold bind at 1. unfold get at 1. cbn [FileBacked.fileQueue].
  unfold bind at 1. rewrite Hf. reflexivity.
Qed.

Lemma sd_flush_never_throws (env : FlushEnv) (st : StoreDerived.State) :
  fst (StoreDerived.sendBatchedFacultyEmail env st) = Ok tt.
Proof.
  destruct st as [fs docs [|item q] ob]; [reflexivity|].
  unfold StoreDerived.sendBatchedFacultyEmail.
  unfold bind at 1. unfold get at 1. cbn [StoreDerived.fileQueue].
  unfold try_catch at 1. apply caught_result.
Qed.

Lemma sd_flush_query_fails (env : FlushEnv) (st : StoreDerived.State) :
  flushFindOk env = false ->
  StoreDerived.sendBatchedFacultyEmail env st = (Ok tt, st).
Proof.
  intros Hf. destruct st as [fs docs [|item q] ob]; [reflexivity|].
  unfold StoreDerived.sendBatchedFacultyEmail.
  unfold bind at 1. unfold get at 1. cbn [StoreDerived.fileQueue].
  unfold try_catch, bind at 1. rewrite Hf. reflexivity.
Qed.

End FlushOutcome.

(** X11.  What a flush returns.  On an empty queue both revisions return
    at once and touch nothing, whatever the services would answer.  On a
    non-empty queue the file-backed flush rejects, with the state
    untouched, exactly when the query for the spreadsheet fails, which it
    runs outside the [try] block; every other failure is caught.  The
    store-derived flush runs the query inside the [try] block and never
    rejects; a failed query leaves the state untouched. *)
Theorem flush_outcome :
  (forall (env : FlushEnv) (st : FileBacked.State),
      (FileBacked.fileQueue st = [] ->
       FileBacked.sendBatchedFacultyEmail env st = (Ok tt, st))
      /\ (FileBacked.fileQueue st <> [] -> flushFindOk env = false ->
          FileBacked.sendBatchedFacultyEmail env st = (Throw DatabaseError, st))
      /\ (flushFindOk env = true ->
          fst (FileBacked.sendBatchedFacultyEmail env st) = Ok tt))
  /\ (forall (env : FlushEnv) (st : StoreDerived.State),
      fst (StoreDerived.sendBatchedFacultyEmail env st) = Ok tt
      /\ (StoreDerived.fileQueue st = [] ->
          StoreDerived.sendBatchedFacultyEmail env st = (Ok tt, st))
      /\ (flushFindOk env = false ->
          StoreDerived.sendBatchedFacultyEmail env st = (Ok tt, st))).
Proof.
  split; intros env st.
  - split; [apply FileBackedFlush.fb_flush_empty|].
    split; [apply fb_flush_query_fails | apply fb_flush_query_ok].
  - split; [apply sd_flush_never_throws|].
    split; [apply StoreDerivedFlush.sd_flush_empty | apply sd_flush_query_fails].
Qed.

Lemma flush_outcome_witness :
  FileBacked.fileQueue queuedFileBacked <> []
  /\ flushFindOk blindEnv = false
  /\ FileBacked.sendBatchedFacultyEmail blindEnv queuedFileBacked
     = (Throw DatabaseError, queuedFileBacked)
  /\ StoreDerived.sendBatchedFacultyEmail blindEnv queuedStoreDerived
     = (Ok tt, queuedStoreDerived).
Proof.
  assert (Hq : FileBacked.fileQueue queuedFileBacked <> [])
    by (vm_compute; discriminate).
  split; [exact Hq|]. split; [reflexivity|]. split.
  - exact (proj1 (proj2 (proj1 flush_outcome blindEnv queuedFileBacked)) Hq eq_refl).
  - exact (proj2 (proj2 (proj2 flush_outcome blindEnv queuedStoreDerived)) eq_refl).
Defined.

Section FlushCleanup.

Lemma existsFile_removeFiles_gen (q : string) (paths fs : list string) :
  existsFile q (FileBackedSpec.removeFiles paths fs)
  = existsFile q fs && negb (existsb (String.eqb q) paths).
Proof.
  unfold FileBackedSpec.removeFiles. revert fs.
  induction paths as [|p paths IH]; intros fs; cbn [fold_left existsb].
  - now rewrite andb_true_r.
  - rewrite IH, existsFile_removeFile, (String.eqb_sym q p).
    destruct (existsFile q fs), (String.eqb p q), (existsb (String.eqb q) paths);
      reflexivity.
Qed.

End FlushCleanup.

(** X12.  In the file-backed revision a flush whose mail is sent unlinks
    every queued PDF and the spreadsheet, and no other file: afterwards no
    queued path is on disk, and every other path is on disk exactly when it
    was before. *)
Theorem sent_flush_cleans_queued_files (env : FlushEnv) (st : FileBacked.State) :
  FileBacked.fileQueue st <> [] ->
  ~ In (reportPath (flushNow env)) (FileBackedSpec.queuedPaths st) ->
  FileBackedSpec.sendSucceeds env st = true ->
  let st' := snd (FileBacked.sendBatchedFacultyEmail env st) in
  (forall p, In p (FileBackedSpec.queuedPaths st) ->
             existsFile p (FileBacked.files st') = false)
  /\ (forall p, ~ In p (FileBackedSpec.queuedPaths st) ->
                p <> reportPath (flushNow env) ->
                existsFile p (FileBacked.files st') = existsFile p (FileBacked.files st)).
Proof.
  intros Hq Ht Hs st'. subst st'.
  rewrite (FileBackedFlush.fb_flush_success env st Hq Ht Hs).
  cbn [snd FileBacked.files]. split; intros p Hp.
  - rewrite existsFile_removeFile, existsFile_removeFiles_gen.
    assert (He : existsb (String.eqb p) (FileBackedSpec.queuedPaths st) = true).
    { apply existsb_exists. exists p. split; [exact Hp | apply String.eqb_refl]. }
    rewrite He. cbn [negb]. now rewrite andb_false_r.
  - intros Hne.
    rewrite existsFile_removeFile, existsFile_removeFiles_gen, existsFile_addFile.
    assert (He : existsb (String.eqb p) (FileBackedSpec.queuedPaths st) = false).
    { destruct (existsb (String.eqb p) (FileBackedSpec.queuedPaths st)) eqn:E;
        [|reflexivity].
      apply existsb_exists in E as [x [Hx Hpx]]. apply String.eqb_eq in Hpx.
      subst x. contradiction. }
    rewrite He.
    apply String.eqb_neq in Hne. rewrite Hne, (String.eqb_sym _ p), Hne.
    cbn [negb]. now rewrite orb_false_r, !andb_true_r.
Qed.

Lemma sent_flush_cleans_queued_files_witness :
  FileBacked.fileQueue queuedFileBacked <> []
  /\ FileBackedSpec.sendSucceeds sendingEnv queuedFileBacked = true
  /\ existsFile (certificatePath offlineEnv sampleBody)
       (FileBacked.files queuedFileBacked) = true
  /\ existsFile (certificatePath offlineEnv sampleBody)
       (FileBacked.files
          (snd (FileBacked.sendBatchedFacultyEmail sendingEnv queuedFileBacked)))
     = false.
Proof.
  assert (Hq : FileBacked.fileQueue queuedFileBacked <> [])
    by (vm_compute; discriminate).
  assert (Ht : ~ In (reportPath (flushNow sendingEnv))
                   (FileBackedSpec.queuedPaths queuedFileBacked))
    by (vm_compute; intros [H|[H|[]]]; discriminate).
  split; [exact Hq|]. split; [reflexivity|]. split; [reflexivity|].
  apply (proj1 (sent_flush_cleans_queued_files sendingEnv queuedFileBacked
                  Hq Ht eq_refl)).
  vm_compute. left. reflexivity.
Defined.

Section ParseIntTolerance.

Import DecimalString.

#[local] Arguments Z.mul : simpl never.
#[local] Arguments Z.add : simpl never.

Lemma parseDigits_uint_tail (d : Decimal.uint) (acc : Z) (tail : string) :
  endsDigits tail ->
  parseDigits (Some acc) (NilEmpty.string_of_uint d ++ tail) = Some (uintValue acc d).
Proof.
  intros Ht. revert acc; induction d; intros acc; simpl;
    try (rewrite IHd; f_equal; f_equal; lia).
  destruct tail as [|c tail]; [reflexivity|].
  cbn [endsDigits] in Ht. cbn [parseDigits]. now rewrite Ht.
Qed.

Lemma parseDigits_fresh_tail (d : Decimal.uint) (tail : string) :
  d <> Decimal.Nil -> endsDigits tail ->
  parseDigits None (NilEmpty.string_of_uint d ++ tail) = Some (uintValue 0 d).
Proof.
  intros Hd Ht.
  assert (Hs : startsWithDigit (NilEmpty.string_of_uint d ++ tail)).
  { pose proof (string_of_uint_startsWithDigit d Hd) as H.
    destruct (NilEmpty.string_of_uint d); [contradiction | exact H]. }
  rewrite (parseDigits_restart _ Hs). now apply parseDigits_uint_tail.
Qed.

Lemma trimStart_whiteSpace (ws s : string) :
  allWhiteSpace ws = true -> trimStart (ws ++ s) = trimStart s.
Proof.
  induction ws as [|c ws IH]; [reflexivity|].
  cbn [allWhiteSpace]. intros H. apply andb_true_iff in H as [Hc Hw].
  cbn [append trimStart]. rewrite Hc. now apply IH.
Qed.

Lemma parseInt_whiteSpace (ws s : string) :
  allWhiteSpace ws = true -> parseInt (ws ++ s) = parseInt s.
Proof.
  intros H. unfold parseInt. now rewrite (trimStart_whiteSpace ws s H).
Qed.

Lemma parseInt_Z_toString_tail (z : Z) (tail : string) :
  endsDigits tail -> parseInt (Z_toString z ++ tail) = Int (roundDouble z).
Proof.
  intros Ht. destruct z as [|p|p].
  - change (Z_toString 0) with "0". cbn [append].
    destruct tail as [|c tail]; [reflexivity|].
    cbn [endsDigits] in Ht.
    rewrite parseInt_startsWithDigit by (cbn; discriminate).
    cbn [parseDigits]. change (digitValue "0") with (Some 0). cbn [parseDigits].
    now rewrite Ht.
  - unfold Z_toString. cbn [Z.to_int NilEmpty.string_of_int].
    pose proof (DecimalPos.Unsigned.to_uint_nonnil p) as Hn.
    rewrite parseInt_startsWithDigit.
    + rewrite (parseDigits_fresh_tail _ _ Hn Ht), uintValue_zero,
        DecimalPos.Unsigned.of_to. reflexivity.
    + pose proof (string_of_uint_startsWithDigit _ Hn) as H.
      destruct (NilEmpty.string_of_uint (Pos.to_uint p)); [contradiction | exact H].
  - unfold Z_toString. cbn [Z.to_int NilEmpty.string_of_int append].
    pose proof (DecimalPos.Unsigned.to_uint_nonnil p) as Hn.
    change (parseInt (String "-" (NilEmpty.string_of_uint (Pos.to_uint p) ++ tail)))
      with (match parseDigits None (NilEmpty.string_of_uint (Pos.to_uint p) ++ tail) with
            | Some v => Int (roundDouble (- v))
            | None => NaN
            end).
    rewrite (parseDigits_fresh_tail _ _ Hn Ht), uintValue_zero,
      DecimalPos.Unsigned.of_to. reflexivity.
Qed.

End ParseIntTolerance.

(** X13.  [getNextSerialNumber] of the file-backed revision reads the
    counter file with [parseInt]: a file that holds a decimal number below
    2^53 in magnitude, negative ones included, possibly after white space
    and before any text that does not start with a digit (a final newline,
    say), counts as that number, and the number plus one is written back
    bare. *)
Theorem counter_file_read_leniently (st : FileBacked.State) (ws tail : string) (z : Z) :
  allWhiteSpace ws = true -> endsDigits tail ->
  Z.abs z < 9007199254740992 ->
  FileBacked.counterFile st = Some (ws ++ Z_toString z ++ tail) ->
  FileBacked.getNextSerialNumber st
  = (Ok (padStart 6 (Z_toString (z + 1))),
     FileBacked.setCounterFile (Some (Z_toString (z + 1))) st).
Proof.
  intros Hw Ht Hz Hc. rewrite FileBackedFacts.fb_getNextSerialNumber_eq.
  unfold FileBackedSpec.nextSerial, FileBackedSpec.nextNumber.
  rewrite Hc, (parseInt_whiteSpace _ _ Hw), (parseInt_Z_toString_tail _ _ Ht).
  cbn [succ_num]. rewrite (roundDouble_safe z), (roundDouble_safe (z + 1)) by lia.
  reflexivity.
Qed.

Lemma counter_file_read_leniently_witness :
  allWhiteSpace " " = true
  /\ endsDigits (String "010"%char "")
  /\ Z.abs 900 < 9007199254740992
  /\ FileBacked.getNextSerialNumber handEditedCounter
     = (Ok (padStart 6 (Z_toString (900 + 1))),
        FileBacked.setCounterFile (Some (Z_toString (900 + 1))) handEditedCounter).
Proof.
  assert (Ht : endsDigits (String "010"%char "")) by reflexivity.
  split; [reflexivity|]. split; [exact Ht|]. split; [reflexivity|].
  exact (counter_file_read_leniently handEditedCounter " " (String "010"%char "") 900
           eq_refl Ht eq_refl eq_refl).
Defined.

(** X14.  In the store-derived revision, a run that starts with an empty
    queue followed by a flush whose mail is sent: the one batch mail lists
    exactly the submissions of the run that were answered 200, in order,
    with every registration stored so far; the queue is empty afterwards
    and a further flush does nothing.  The two PDFs of every submission
    of the run have different paths. *)
Theorem batch_mail_lists_completed_submissions
    (subs : list (SubmitEnv * FormData)) (st : StoreDerived.State) (env : FlushEnv) :
  StoreDerived.fileQueue st = [] ->
  Forall (fun sub => pathsDistinct (fst sub) (snd sub) = true) subs ->
  completed subs (fst (StoreDerivedSpec.run subs st)) <> [] ->
  StoreDerivedSpec.sendSucceeds env = true ->
  let st1 := snd (StoreDerivedSpec.run subs st) in
  let st2 := snd (StoreDerived.sendBatchedFacultyEmail env st1) in
  StoreDerived.outbox st2
  = (StoreDerived.outbox st1
     ++ [StoreDerived.FacultyMail
           (StoreDerivedSpec.queueEntries
              (completed subs (fst (StoreDerivedSpec.run subs st))))
           (StoreDerived.store st1)])%list
  /\ StoreDerived.fileQueue st2 = []
  /\ forall env' : FlushEnv,
       StoreDerived.sendBatchedFacultyEmail env' st2 = (Ok tt, st2).
Proof.
  intros Hq Hd Hc Hs st1 st2. subst st2 st1.
  pose proof (sd_run_queue subs st Hd) as Hrun.
  rewrite Hq in Hrun. cbn [List.app] in Hrun.
  assert (Hne : StoreDerived.fileQueue (snd (StoreDerivedSpec.run subs st)) <> []).
  { rewrite Hrun.
    destruct (completed subs (fst (StoreDerivedSpec.run subs st))) as [|[e b] l];
      [contradiction | discriminate]. }
  rewrite (StoreDerivedFlush.sd_flush_success env _ Hne Hs).
  cbn [snd StoreDerived.outbox StoreDerived.fileQueue]. rewrite Hrun.
  split; [reflexivity|]. split; [reflexivity|].
  intros env'. now apply StoreDerivedFlush.sd_flush_empty.
Qed.

Lemma batch_mail_lists_completed_submissions_witness :
  StoreDerived.fileQueue freshStoreDerived = []
  /\ Forall (fun sub => pathsDistinct (fst sub) (snd sub) = true)
       [(sampleEnv, sampleBody); (brokenEnv, sampleBody)]
  /\ StoreDerivedSpec.sendSucceeds sendingEnv = true
  /\ StoreDerived.fileQueue
       (snd (StoreDerived.sendBatchedFacultyEmail sendingEnv
               (snd (StoreDerivedSpec.run
                       [(sampleEnv, sampleBody); (brokenEnv, sampleBody)]
                       freshStoreDerived)))) = [].
Proof.
  assert (H : Forall (fun sub => pathsDistinct (fst sub) (snd sub) = true)
                [(sampleEnv, sampleBody); (brokenEnv, sampleBody)])
    by (repeat constructor).
  split; [reflexivity|]. split; [exact H|]. split; [reflexivity|].
  apply (batch_mail_lists_completed_submissions
           [(sampleEnv, sampleBody); (brokenEnv, sampleBody)]
           freshStoreDerived sendingEnv eq_refl H);
    [vm_compute; discriminate | reflexivity].
Defined.

(** X15.  In the store-derived revision a submission answered 200 leaves
    on disk exactly the files that were there before, the two paths of its
    PDFs excepted, which are absent afterwards. *)
Theorem completed_submission_leaves_disk_clean (env : SubmitEnv) (body : FormData)
    (st : StoreDerived.State) (p : string) :
  fst (StoreDerived.submitForm env body st) = Ok Status200 ->
  existsFile p (StoreDerived.files (snd (StoreDerived.submitForm env body st)))
  = existsFile p (StoreDerived.files st)
    && negb (String.eqb p (certificatePath env body))
    && negb (String.eqb p (applicationPath env body)).
Proof.
  intros H.
  destruct (StoreDerivedSpec.stepsSucceed env body st) eqn:Es.
  - rewrite (StoreDerivedEndpoint.sd_submitForm_success env body st Es).
    cbn [snd StoreDerivedSpec.successState StoreDerived.files].
    rewrite !existsFile_removeFile, !existsFile_addFile.
    rewrite (String.eqb_sym (applicationPath env body) p),
      (String.eqb_sym (certificatePath env body) p).
    destruct (existsFile p (StoreDerived.files st)),
      (String.eqb p (certificatePath env body)),
      (String.eqb p (applicationPath env body)); reflexivity.
  - destruct (StoreDerivedEndpoint.sd_submitForm_rejected env body st Es) as [e He].
    congruence.
Qed.

Lemma completed_submission_leaves_disk_clean_witness :
  fst (StoreDerived.submitForm sampleEnv sampleBody freshStoreDerived) = Ok Status200
  /\ existsFile (applicationPath sampleEnv sampleBody)
       (StoreDerived.files
          (snd (StoreDerived.submitForm sampleEnv sampleBody freshStoreDerived)))
     = existsFile (applicationPath sampleEnv sampleBody)
         (StoreDerived.files freshStoreDerived)
       && negb (String.eqb (applicationPath sampleEnv sampleBody)
                  (certificatePath sampleEnv sampleBody))
       && negb (String.eqb (applicationPath sampleEnv sampleBody)
                  (applicationPath sampleEnv sampleBody)).
Proof.
  split; [reflexivity|].
  apply (completed_submission_leaves_disk_clean sampleEnv sampleBody freshStoreDerived).
  reflexivity.
Defined.

(** X16.  In the file-backed revision a submission answered 200 leaves
    each of its two PDFs on disk exactly when Cloudinary refused it: an
    uploaded PDF is gone, a refused one waits for the flush.  For the
    certificate this needs the two PDFs to have different paths: a form
    written to the path of an uploaded certificate brings it back. *)
Theorem pdf_kept_exactly_when_upload_failed (env : SubmitEnv) (body : FormData)
    (st : FileBacked.State) :
  fst (FileBacked.submitForm env body st) = Ok Status200 ->
  let st' := snd (FileBacked.submitForm env body st) in
  (pathsDistinct env body = true ->
   existsFile (certificatePath env body) (FileBacked.files st')
   = negb (isSome (certUpload env)))
  /\ existsFile (applicationPath env body) (FileBacked.files st')
     = negb (isSome (formUpload env)).
Proof.
  intros H st'. subst st'.
  destruct (FileBackedSpec.stepsSucceed env body st) eqn:Es.
  - rewrite (FileBackedEndpoint.fb_submitForm_success env body st Es).
    cbn [snd FileBackedSpec.successState FileBacked.files].
    unfold FileBackedSpec.afterRender. split.
    + intros Hd.
      assert (Hne : String.eqb (certificatePath env body) (applicationPath env body)
                    = false) by (now apply negb_true_iff).
      destruct (certUpload env), (formUpload env); cbn [isSome negb];
        rewrite ?existsFile_removeFile, ?existsFile_addFile, ?existsFile_removeFile,
          ?existsFile_addFile, ?String.eqb_refl, ?Hne,
          ?(String.eqb_sym (applicationPath env body) (certificatePath env body)), ?Hne;
        cbn [negb andb orb]; rewrite ?orb_true_r, ?andb_false_r, ?andb_true_r,
          ?orb_false_r; reflexivity.
    + destruct (formUpload env); cbn [isSome negb].
      * apply existsFile_removeFile_same.
      * apply existsFile_addFile_same.
  - destruct (FileBackedEndpoint.fb_submitForm_failure env body st Es) as [[e He] _].
    congruence.
Qed.

Lemma pdf_kept_exactly_when_upload_failed_witness :
  fst (FileBacked.submitForm sampleEnv sampleBody freshFileBacked) = Ok Status200
  /\ pathsDistinct sampleEnv sampleBody = true
  /\ existsFile (certificatePath sampleEnv sampleBody)
       (FileBacked.files (snd (FileBacked.submitForm sampleEnv sampleBody freshFileBacked)))
     = negb (isSome (certUpload sampleEnv)).
Proof.
  split; [reflexivity|]. split; [reflexivity|].
  apply (proj1 (pdf_kept_exactly_when_upload_failed sampleEnv sampleBody
                  freshFileBacked eq_refl)).
  reflexivity.
Defined.

(** X17.  In the file-backed revision a serial that is already in the
    collection (the counter file was lost or reset, say) costs one
    submission: when both renders and the save would succeed it is
    answered 500 by the unique index and stores nothing, but the counter
    file has moved on, so the next submission is stamped with the
    following number.  The counts stay below 2^53.  (The store-derived
    revision stays on the taken serial, see X5.) *)
Theorem taken_serial_is_skipped (env : SubmitEnv) (body : FormData)
    (st : FileBacked.State) :
  counterOk (FileBacked.counterFile st) ->
  FileBackedSpec.counterValue (FileBacked.counterFile st) + 1 < 9007199254740992 ->
  pipelineOk env body = true ->
  serialTaken (Some (FileBackedSpec.nextSerial (FileBacked.counterFile st)))
    (FileBacked.store st) = true ->
  let st' := snd (FileBacked.submitForm env body st) in
  fst (FileBacked.submitForm env body st) = Ok (Status500 DuplicateKey)
  /\ FileBacked.store st' = FileBacked.store st
  /\ fst (FileBacked.getNextSerialNumber st')
     = Ok (serialString (FileBackedSpec.counterValue (FileBacked.counterFile st) + 2)).
Proof.
  intros Hok Hb Hp Ht st'. subst st'.
  assert (Hfail : FileBackedSpec.firstFailure env body st = Some DuplicateKey).
  { unfold FileBackedSpec.firstFailure.
    rewrite (proj2 (pipelineFailure_none env body) Hp). now rewrite Ht. }
  pose proof (FileBackedEndpoint.fb_taken_fails env body st Ht) as Es.
  split; [|split].
  - now rewrite FileBackedEndpoint.fb_submitForm_answer, Hfail.
  - apply (FileBackedEndpoint.fb_submitForm_failure env body st Es).
  - rewrite FileBackedFacts.fb_getNextSerialNumber_eq. cbn [fst].
    rewrite FileBackedEndpoint.fb_submitForm_counterFile.
    destruct (FileBackedRun.fb_counterOk_next _ Hok) as [Hok1 Hv1]; [lia|].
    rewrite (FileBackedRun.fb_nextSerial_counterOk _ Hok1), Hv1 by (rewrite Hv1; lia).
    do 2 f_equal. lia.
Qed.

Lemma taken_serial_is_skipped_witness :
  counterOk (FileBacked.counterFile lostCounter)
  /\ pipelineOk sampleEnv sampleBody = true
  /\ serialTaken (Some (FileBackedSpec.nextSerial (FileBacked.counterFile lostCounter)))
       (FileBacked.store lostCounter) = true
  /\ fst (FileBacked.submitForm sampleEnv sampleBody lostCounter)
     = Ok (Status500 DuplicateKey)
  /\ fst (FileBacked.getNextSerialNumber
            (snd (FileBacked.submitForm sampleEnv sampleBody lostCounter)))
     = Ok (serialString (FileBackedSpec.counterValue (FileBacked.counterFile lostCounter) + 2)).
Proof.
  destruct (taken_serial_is_skipped sampleEnv sampleBody lostCounter
              I eq_refl eq_refl eq_refl)
    as [Ha [_ Hn]].
  split; [exact I|]. split; [reflexivity|]. split; [reflexivity|].
  split; [exact Ha | exact Hn].
Defined.

(** X18.  When the name of the applicant holds no path separator,
    [path.join] leaves the file names as they are: the two PDFs of a
    submission lie in the output folder under their own names, and their
    paths differ. *)
Theorem plain_name_keeps_paths_apart (env : SubmitEnv) (body : FormData) :
  countChar "/" (orEmpty (applicantName body)) = 0%nat ->
  certificatePath env body
  = outputDir ++ "/"
    ++ pdfFileName "Certificate" (replaceWhiteSpace (orEmpty (applicantName body)))
         (certNow env)
  /\ applicationPath env body
     = outputDir ++ "/"
       ++ pdfFileName "Application" (replaceWhiteSpace (orEmpty (applicantName body)))
            (formNow env)
  /\ pathsDistinct env body = true.
Proof.
  intros Hn.
  assert (Hclean : countChar "/" (replaceWhiteSpace (orEmpty (applicantName body)))
                   = 0%nat) by (now apply countChar_replaceWhiteSpaceRuns).
  split; [|split].
  - unfold certificatePath. apply joinOutput_pdfFileName;
      [reflexivity | discriminate | discriminate | exact Hclean].
  - unfold applicationPath. apply joinOutput_pdfFileName;
      [reflexivity | discriminate | discriminate | exact Hclean].
  - now apply plain_name_paths_distinct.
Qed.

Lemma plain_name_keeps_paths_apart_witness :
  countChar "/" (orEmpty (applicantName sampleBody)) = 0%nat
  /\ certificatePath sampleEnv sampleBody
     = "/usr/src/app/output/Certificate-Asha_Rao-1700000000000.pdf"
  /\ pathsDistinct sampleEnv sampleBody = true.
Proof.
  destruct (plain_name_keeps_paths_apart sampleEnv sampleBody eq_refl)
    as [Hc [_ Hd]].
  split; [reflexivity|]. split; [exact Hc | exact Hd].
Defined.

(** X19.  In the store-derived revision the endpoint unlinks the two PDFs
    after it has stored and queued the registration.  When the two PDFs
    share a path (a name with [..] segments, both named in the same
    millisecond) the second [unlink] rejects: the submission is answered
    500 although its registration is stored and queued, and the PDF is
    gone. *)
Theorem shared_path_fails_after_store (env : SubmitEnv) (body : FormData)
    (st : StoreDerived.State) :
  StoreDerivedSpec.stored env body st = true ->
  pathsDistinct env body = false ->
  let st' := snd (StoreDerived.submitForm env body st) in
  fst (StoreDerived.submitForm env body st) = Ok (Status500 ENOENT)
  /\ StoreDerived.store st'
     = (StoreDerived.store st
        ++ [registrationOf body (StoreDerivedSpec.nextSerial (StoreDerived.store st))
              (certUpload env) (formUpload env)])%list
  /\ StoreDerived.fileQueue st'
     = (StoreDerived.fileQueue st
        ++ [{| StoreDerived.studentName := applicantName body;
               StoreDerived.itemCertificateUrl := certUpload env;
               StoreDerived.itemApplicationFormUrl := formUpload env |}])%list
  /\ existsFile (certificatePath env body) (StoreDerived.files st') = false.
Proof.
  intros Hs Hd st'. subst st'.
  rewrite (StoreDerivedEndpoint.sd_submitForm_collision env body st Hs Hd).
  cbn [fst snd StoreDerivedSpec.collisionState StoreDerived.store
       StoreDerived.fileQueue StoreDerived.files].
  split; [reflexivity|]. split; [reflexivity|]. split; [reflexivity|].
  apply existsFile_removeFile_same.
Qed.

Lemma shared_path_fails_after_store_witness :
  StoreDerivedSpec.stored sameInstantEnv dottedBody freshStoreDerived = true
  /\ pathsDistinct sameInstantEnv dottedBody = false
  /\ fst (StoreDerived.submitForm sameInstantEnv dottedBody freshStoreDerived)
     = Ok (Status500 ENOENT)
  /\ List.length
       (StoreDerived.store
          (snd (StoreDerived.submitForm sameInstantEnv dottedBody freshStoreDerived)))
     = 1%nat.
Proof.
  destruct (shared_path_fails_after_store sameInstantEnv dottedBody freshStoreDerived
              eq_refl eq_refl) as [Ha [Hs _]].
  split; [reflexivity|]. split; [reflexivity|]. split; [exact Ha|].
  now rewrite Hs.
Defined.

(** X20.  In the file-backed revision the count stops at 2^53: from a
    counter file that holds 9007199254740992, [currentNumber + 1] is the
    same double, so over any run of submissions the counter file keeps
    that content and [getNextSerialNumber] returns the same serial. *)
Theorem counter_stuck_at_2_53 (subs : list (SubmitEnv * FormData))
    (st : FileBacked.State) :
  FileBacked.counterFile st = Some "9007199254740992" ->
  FileBacked.counterFile (snd (FileBackedSpec.run subs st)) = Some "9007199254740992"
  /\ fst (FileBacked.getNextSerialNumber (snd (FileBackedSpec.run subs st)))
     = Ok "9007199254740992".
Proof.
  revert st. induction subs as [|[env body] rest IH]; intros st Hc.
  - cbn [FileBackedSpec.run snd]. split; [exact Hc|].
    now rewrite (counter_stops_at_2_53 st Hc).
  - rewrite (proj2 (FileBackedRun.fb_run_cons env body rest st)).
    apply IH. rewrite FileBackedEndpoint.fb_submitForm_counterFile, Hc.
    vm_compute. reflexivity.
Qed.

Lemma counter_stuck_at_2_53_witness :
  FileBacked.counterFile saturatedCounter = Some "9007199254740992"
  /\ fst (FileBacked.getNextSerialNumber
            (snd (FileBackedSpec.run [(sampleEnv, sampleBody); (brokenEnv, sampleBody)]
                    saturatedCounter)))
     = Ok "9007199254740992".
Proof.
  split; [reflexivity|].
  apply (counter_stuck_at_2_53 [(sampleEnv, sampleBody); (brokenEnv, sampleBody)]
           saturatedCounter eq_refl).
Defined.
